(** * Building-code dashboard: jurisdiction lookup, search and report engine

    A shallow embedding of the client-side logic of the dashboard:
    - the jurisdiction dataset ([CODE_SOURCES], [DATA_SOURCES],
      [JURISDICTIONS]) and the fallback pass that fills in the remaining
      states (fallback-states.js);
    - [statesSorted], the browse order of the state tree;
    - [buildSuggestions], the search/autocomplete function;
    - [selectSuggestion], [showReport], [buildSourcesPanel] and the source
      link of [renderCodeCard], the report composer;
    - [buildTree] with its click handlers, the search button,
      [codeStatusBadge] and [amendmentIcon].

    Modelling conventions.
    - A JS string is a [string]; one [ascii] stands for one UTF-16 code
      unit.  This is exact on ASCII text, which covers every key, state
      name, city name and county name of the dataset.  Free-text fields
      (notes, amendments, labels) that hold other characters carry them as
      their UTF-8 bytes; the code never looks inside those fields.
      [isWhiteSpace] and [toLowerCase] are the ASCII parts of the JS
      functions.
    - A plain JS object used as a map is an association list ([jsobj]) of
      its own properties in the order in which [Object.keys],
      [Object.values], [Object.entries] and the spread syntax enumerate
      them: the keys that are array indices first, by ascending value, then
      the other keys in the order in which they were created.  [obj_set]
      creates a property at the place this order gives it.
    - [obj_get] is the read of an own property.  [read] is the bracket read
      [o[k]] with a key that comes from the data: when the object has no own
      property of that name it finds the members every object inherits from
      [Object.prototype] ([constructor], [toString], ...), which are
      truthy objects without any of the fields of a record ([jsval]).
    - [undefined] and [null] are [None]; a property read on [undefined]
      raises, which is the [TypeError] outcome of [result].
    - A [Set] is the list of its elements in insertion order.
    - The HTML text itself is not modelled: [showReport] returns the values
      the source computes and then interpolates into the markup. *)

From Stdlib Require Import List String Ascii Bool Arith PeanoNat NArith Lia.
From Stdlib Require Import Sorting.Sorted Sorting.Permutation.
From Stdlib Require Import Structures.OrderedTypeEx.
Import ListNotations.
Open Scope string_scope.
Open Scope list_scope.
Open Scope nat_scope.

(** ** JS values *)

Module JS.

(** Result of a call that may throw. *)
Inductive result (A : Type) : Type :=
| Ok (a : A)
| TypeError.
Arguments Ok {A} a.
Arguments TypeError {A}.

(** Look at one component of a result. *)
Definition rmap {A B : Type} (f : A -> B) (x : result A) : result B :=
  match x with
  | Ok a => Ok (f a)
  | TypeError => TypeError
  end.

(** Sequencing of calls that may throw. *)
Definition bind {A B : Type} (x : result A) (f : A -> result B) : result B :=
  match x with
  | Ok a => f a
  | TypeError => TypeError
  end.

(** [l.map(f)] with a callback that may throw. *)
Fixpoint traverse {A B : Type} (f : A -> result B) (l : list A) : result (list B) :=
  match l with
  | [] => Ok []
  | x :: l' =>
      bind (f x) (fun y => bind (traverse f l') (fun ys => Ok (y :: ys)))
  end.

(** An object used as a map: its own properties, in the order of
    enumeration. *)
Definition jsobj (V : Type) : Type := list (string * V).

(** The own property [k] of [o]. *)
Fixpoint obj_get {V} (o : jsobj V) (k : string) : option V :=
  match o with
  | [] => None
  | (k', v) :: o' => if String.eqb k' k then Some v else obj_get o' k
  end.

(** The names of the members every object inherits from
    [Object.prototype]. *)
Definition Object_prototype : list string := [
  "constructor"; "__defineGetter__"; "__defineSetter__"; "hasOwnProperty";
  "__lookupGetter__"; "__lookupSetter__"; "isPrototypeOf"; "propertyIsEnumerable";
  "toString"; "valueOf"; "__proto__"; "toLocaleString"
].

(** What a read can give on an object whose own values have type [V]: an
    own value, the member inherited under a name (a function, or the
    prototype object itself for [__proto__]), or [undefined].  Two
    inherited members are the same object exactly when they have the same
    name. *)
Inductive jsval (V : Type) : Type :=
| val (v : V)
| proto (k : string)
| undefined.
Arguments val {V} v.
Arguments proto {V} k.
Arguments undefined {V}.

(** [o[k]] *)
Definition read {V} (o : jsobj V) (k : string) : jsval V :=
  match obj_get o k with
  | Some v => val v
  | None => if existsb (String.eqb k) Object_prototype then proto k else undefined
  end.

(** [o[x]] where the key [x] is itself a value read from a table of
    strings.  A string is the name read; an inherited member is converted
    to its source text (or to [[object Object]]), and [undefined] to its
    name: none of these texts names a property of the tables of this
    program or a member of [Object.prototype]. *)
Definition read_at {V} (o : jsobj V) (x : jsval string) : jsval V :=
  match x with
  | val k => read o k
  | proto _ => undefined
  | undefined => undefined
  end.

(** The decimal digits of [s] as a number, when [s] holds nothing else. *)
Fixpoint decimal (s : string) (acc : N) : option N :=
  match s with
  | EmptyString => Some acc
  | String c s' =>
      let n := nat_of_ascii c in
      if (48 <=? n) && (n <=? 57)
      then decimal s' (acc * 10 + N.of_nat (n - 48)%nat)%N
      else None
  end.

(** The value of a key that is an array index: a canonical decimal numeral
    (no sign, no leading zero) below [2^32 - 1]. *)
Definition array_index (k : string) : option N :=
  match k with
  | EmptyString => None
  | String c rest =>
      if Ascii.eqb c "0"
      then match rest with EmptyString => Some 0%N | _ => None end
      else match decimal k 0 with
           | Some n => if (n <? 4294967295)%N then Some n else None
           | None => None
           end
  end.

(** Give the existing own property [k] the value [v]; it keeps its
    place. *)
Fixpoint obj_update {V} (k : string) (v : V) (o : jsobj V) : jsobj V :=
  match o with
  | [] => []
  | (k', v') :: o' =>
      if String.eqb k' k then (k', v) :: o' else (k', v') :: obj_update k v o'
  end.

(** Create the property [k], an array index of value [n]: it goes behind
    the array indices of smaller value. *)
Fixpoint obj_insert_index {V} (n : N) (k : string) (v : V) (o : jsobj V) : jsobj V :=
  match o with
  | [] => [(k, v)]
  | (k', v') :: o' =>
      match array_index k' with
      | Some m => if (m <? n)%N then (k', v') :: obj_insert_index n k v o' else (k, v) :: o
      | None => (k, v) :: o
      end
  end.

(** [o[k] = v], and the definition of the property [k] by an object
    literal or the spread syntax: an existing key keeps its position; a new
    key goes last, unless it is an array index. *)
Definition obj_set {V} (k : string) (v : V) (o : jsobj V) : jsobj V :=
  match obj_get o k with
  | Some _ => obj_update k v o
  | None =>
      match array_index k with
      | Some n => obj_insert_index n k v o
      | None => o ++ [(k, v)]
      end
  end.

Definition Object_keys {V} (o : jsobj V) : list string := map fst o.
Definition Object_values {V} (o : jsobj V) : list V := map snd o.
Definition Object_entries {V} (o : jsobj V) : list (string * V) := o.

(** [{ ...a, ...b }] *)
Definition spread {V} (a b : jsobj V) : jsobj V :=
  fold_left (fun o kv => obj_set (fst kv) (snd kv) o) b a.

(** A [Set] of strings, in insertion order. *)
Definition Set_has (s : list string) (x : string) : bool :=
  existsb (String.eqb x) s.
Definition Set_add (s : list string) (x : string) : list string :=
  if Set_has s x then s else s ++ [x].
(** [new Set(l)] *)
Definition Set_of (l : list string) : list string := fold_left Set_add l [].

(** Truthiness of a string: only the empty string is falsy. *)
Definition truthy (s : string) : bool := negb (String.eqb s "").

(** Truthiness of a value read from a table of strings: an inherited
    member is an object, which is truthy. *)
Definition truthy_val (x : jsval string) : bool :=
  match x with
  | val s => truthy s
  | proto _ => true
  | undefined => false
  end.

(** Equality of two such values, as a [Set] tests it. *)
Definition same_value (x y : jsval string) : bool :=
  match x, y with
  | val a, val b => String.eqb a b
  | proto a, proto b => String.eqb a b
  | undefined, undefined => true
  | _, _ => false
  end.

(** A [Set] of such values, in insertion order. *)
Definition Values_has (s : list (jsval string)) (x : jsval string) : bool :=
  existsb (same_value x) s.
Definition Values_add (s : list (jsval string)) (x : jsval string) : list (jsval string) :=
  if Values_has s x then s else s ++ [x].

(** [\s] and the characters [trim] removes (ASCII part). *)
Definition isWhiteSpace (c : ascii) : bool :=
  let n := nat_of_ascii c in ((9 <=? n) && (n <=? 13)) || (n =? 32).

(** [\d] *)
Definition isDigit (c : ascii) : bool :=
  let n := nat_of_ascii c in (48 <=? n) && (n <=? 57).

Definition lower (c : ascii) : ascii :=
  let n := nat_of_ascii c in
  if (65 <=? n) && (n <=? 90) then ascii_of_nat (n + 32) else c.

Definition upper (c : ascii) : ascii :=
  let n := nat_of_ascii c in
  if (97 <=? n) && (n <=? 122) then ascii_of_nat (n - 32) else c.

Fixpoint smap (f : ascii -> ascii) (s : string) : string :=
  match s with
  | EmptyString => EmptyString
  | String c s' => String (f c) (smap f s')
  end.

Definition toLowerCase (s : string) : string := smap lower s.
Definition toUpperCase (s : string) : string := smap upper s.

Fixpoint trimStart (s : string) : string :=
  match s with
  | EmptyString => EmptyString
  | String c s' => if isWhiteSpace c then trimStart s' else s
  end.

Fixpoint trimEnd (s : string) : string :=
  match s with
  | EmptyString => EmptyString
  | String c s' =>
      match trimEnd s' with
      | EmptyString => if isWhiteSpace c then EmptyString else String c EmptyString
      | r => String c r
      end
  end.

(** [s.trim()] *)
Definition trim (s : string) : string := trimEnd (trimStart s).

(** [s.split(sep)] for a one-character separator. *)
Fixpoint split (sep : ascii) (s : string) : list string :=
  match s with
  | EmptyString => [EmptyString]
  | String c s' =>
      if Ascii.eqb c sep then EmptyString :: split sep s'
      else match split sep s' with
           | p :: ps => String c p :: ps
           | [] => [String c EmptyString]
           end
  end.

(** [s.includes(t)] *)
Fixpoint includes (s t : string) : bool :=
  String.prefix t s ||
  match s with
  | EmptyString => false
  | String _ s' => includes s' t
  end.

(** [l.includes(x)] on an array of strings. *)
Definition arr_includes (l : list string) (x : string) : bool :=
  existsb (String.eqb x) l.

End JS.
Import JS.

Notation "x <- e ;; k" := (bind e (fun x => k))
  (at level 61, e at next level, right associativity).

#[global] Arguments isWhiteSpace : simpl never.
#[global] Arguments isDigit : simpl never.

(** ** The zip-code pattern of the search box: [/\s+\d{5}(-\d{4})?$/] *)

(** Consume exactly [n] digits. *)
Fixpoint digits (n : nat) (s : string) : option string :=
  match n with
  | 0 => Some s
  | S n' =>
      match s with
      | String c s' => if isDigit c then digits n' s' else None
      | EmptyString => None
      end
  end.

(** [\d{5}(-\d{4})?$] matches the whole of [s]. *)
Definition zip_here (s : string) : bool :=
  match digits 5 s with
  | Some EmptyString => true
  | Some (String c r) =>
      Ascii.eqb c "-" &&
      match digits 4 r with
      | Some EmptyString => true
      | _ => false
      end
  | None => false
  end.

(** The whole pattern matches from the start of [s] to its end. *)
Fixpoint zip_re_here (s : string) : bool :=
  match s with
  | EmptyString => false
  | String c s' => isWhiteSpace c && (zip_here s' || zip_re_here s')
  end.

(** [s.replace(/\s+\d{5}(-\d{4})?$/, '')]: the leftmost position at which
    the pattern matches is cut off, with everything after it (the pattern
    is anchored at the end). *)
Fixpoint replace_zip (s : string) : string :=
  if zip_re_here s then EmptyString
  else match s with
       | EmptyString => EmptyString
       | String c s' => String c (replace_zip s')
       end.

(** ** Data model (the shapes of the dataset literals) *)

(** One code adoption: [{ year, status, effective, amendments }].  The
    entries of a fire district only have [year] and [amendments]. *)
Record CodeAdoption : Type := {
  year : option nat;
  status : option string;
  effective : option string;
  amendments : option (list string)
}.

Record FireDistrict : Type := {
  fd_name : string;
  fd_adopted : jsobj CodeAdoption
}.

(** A city or county record. *)
Record LocalRecord : Type := {
  l_type : option string;
  l_note : option string;
  l_adopted : jsobj CodeAdoption;
  l_fireDistricts : option (list FireDistrict)
}.

(** A state record. *)
Record Jurisdiction : Type := {
  name : string;
  abbr : string;
  region : string;
  stateNote : string;
  adopted : jsobj CodeAdoption;
  cities : jsobj LocalRecord;
  counties : jsobj LocalRecord
}.

Record DataSource : Type := {
  icon : string;
  src_label : string;
  url : string;
  stateUrl : option (string -> string);
  src_note : string;
  codes : list string
}.

(** Shorthands for writing the dataset. *)
Definition adoption (y : option nat) (s e : string) (a : list string) : CodeAdoption :=
  {| year := y; status := Some s; effective := Some e; amendments := Some a |}.
Definition fd_adoption (y : option nat) (a : list string) : CodeAdoption :=
  {| year := y; status := None; effective := None; amendments := Some a |}.

(** ** The dataset *)

Definition CODE_SOURCES : jsobj string := [
  ("IBC", "icc_chart"); ("IRC", "icc_chart"); ("IFC", "icc_chart");
  ("IMC", "icc_chart"); ("IPC", "icc_chart"); ("IECC", "icc_chart");
  ("IEBC", "icc_chart"); ("IGCC", "icc_chart"); ("IFGC", "icc_chart");
  ("NEC", "nec_nfpa");
  ("NFPA1", "nfpa_atc"); ("NFPA13", "nfpa_atc"); ("NFPA72", "nfpa_atc");
  ("UPC", "iapmo_upc"); ("UMC", "iapmo_umc");
  ("CBC", "ca_bsc"); ("CMC", "ca_bsc"); ("CPC", "ca_bsc"); ("CEC", "ca_bsc");
  ("NYSBC", "nys_dos"); ("OSSC", "or_bcd"); ("WSEC", "wa_sbcc")
].

Definition DATA_SOURCES : jsobj DataSource := [
  ("icc_chart",
   {| icon := "📄";
      src_label := "ICC Master I-Code Adoption Chart";
      url := "https://www.iccsafe.org/wp-content/uploads/Master-I-Code-Adoption-Chart.pdf";
      stateUrl := None;
      src_note := "PDF · Updated ~monthly";
      codes := ["IBC"; "IRC"; "IFC"; "IMC"; "IPC"; "IECC"; "IEBC"; "IGCC"; "IFGC"] |});
  ("nec_nfpa",
   {| icon := "⚡";
      src_label := "NFPA – NEC Enforcement Maps (Official)";
      url := "https://www.nfpa.org/education-and-research/electrical/nec-enforcement-maps";
      stateUrl := None;
      src_note := "HTML · NFPA publisher source";
      codes := ["NEC"] |});
  ("becp",
   {| icon := "🏗";
      src_label := "DOE BECP – Building Energy Codes State Portal";
      url := "https://www.energycodes.gov/status";
      stateUrl := Some (fun abbr => String.append "https://www.energycodes.gov/status/states/" (toLowerCase abbr));
      src_note := "HTML · DOE per-state portal";
      codes := ["IECC"] |});
  ("nfpa_atc",
   {| icon := "🔴";
      src_label := "NFPA Adoption Tracking Center";
      url := "https://www.nfpa.org/Codes-and-Standards/Adoption-Tracking-Center";
      stateUrl := None;
      src_note := "HTML";
      codes := ["NFPA1"; "NFPA13"; "NFPA72"] |});
  ("municode",
   {| icon := "📚";
      src_label := "Municode Library – Local Code of Ordinances";
      url := "https://library.municode.com/";
      stateUrl := None;
      src_note := "HTML · Searchable municipal codes";
      codes := [] |});
  ("iapmo_upc",
   {| icon := "🔧";
      src_label := "IAPMO – UPC State Adoption Status";
      url := "https://www.iapmo.org/upc/";
      stateUrl := None;
      src_note := "HTML";
      codes := ["UPC"] |});
  ("iapmo_umc",
   {| icon := "🔧";
      src_label := "IAPMO – UMC State Adoption Status";
      url := "https://www.iapmo.org/umc/";
      stateUrl := None;
      src_note := "HTML";
      codes := ["UMC"] |});
  ("ca_bsc",
   {| icon := "🏛";
      src_label := "CA Building Standards Commission – Title 24";
      url := "https://www.dgs.ca.gov/BSC/Codes";
      stateUrl := None;
      src_note := "CA BSC";
      codes := ["CBC"; "CMC"; "CPC"; "CEC"] |});
  ("nys_dos",
   {| icon := "🏛";
      src_label := "NYS Dept. of State – Building Codes";
      url := "https://dos.ny.gov/building-codes";
      stateUrl := None;
      src_note := "NYS DOS";
      codes := ["NYSBC"] |});
  ("or_bcd",
   {| icon := "🏛";
      src_label := "Oregon Building Codes Division";
      url := "https://www.oregon.gov/bcd/codes-stand/Pages/oregon-codes-standards.aspx";
      stateUrl := None;
      src_note := "OR BCD";
      codes := ["OSSC"] |});
  ("wa_sbcc",
   {| icon := "🏛";
      src_label := "WA State Building Code Council";
      url := "https://sbcc.wa.gov/state-building-codes";
      stateUrl := None;
      src_note := "WA SBCC";
      codes := ["WSEC"] |})
].

(** The core jurisdiction database, as the literal defines it:
    state -> adopted codes at state level, cities, counties. *)
Definition JURISDICTIONS_core : jsobj Jurisdiction := [
  ("AL",
   {| name := "Alabama"; abbr := "AL"; region := "Southeast";
      stateNote := "Alabama adopts statewide codes but allows local amendments.";
      adopted := [
        ("IBC", adoption (Some 2018) "adopted" "2021-01-01" ["Section 1612 amended for SFHA requirements"; "Local seismic exceptions for northern Alabama"]);
        ("IRC", adoption (Some 2018) "adopted" "2021-01-01" []);
        ("IFC", adoption (Some 2018) "adopted" "2021-01-01" []);
        ("NEC", adoption (Some 2020) "adopted" "2021-07-01" []);
        ("IECC", adoption (Some 2018) "adopted" "2021-01-01" ["Climate Zone 2-3 compliance path modified"])
      ];
      cities := [
        ("Birmingham",
         {| l_type := Some "city";
            l_note := None;
            l_adopted := [
              ("IBC", adoption (Some 2018) "adopted" "2021-03-01" ["Chapter 11 Accessibility: enhanced requirements beyond ADAAG"; "Section 3409 historic preservation overlay"]);
              ("IRC", adoption (Some 2018) "adopted" "2021-03-01" []);
              ("IFC", adoption (Some 2021) "adopted" "2023-01-01" ["Sec 903.2.1.2: Sprinklers required in A-2 occupancies >3,000 sq ft"]);
              ("NEC", adoption (Some 2020) "adopted" "2021-07-01" ["Art. 210 AFCI requirements expanded to all circuits"]);
              ("IECC", adoption (Some 2018) "adopted" "2021-03-01" []);
              ("IEBC", adoption (Some 2018) "adopted" "2021-03-01" [])
            ];
            l_fireDistricts := Some [
                {| fd_name := "Birmingham Fire District 1 (Downtown)";
                   fd_adopted := [
                     ("IFC", fd_adoption (Some 2021) ["High-rise buildings: sprinklers required in all floors"; "Annual inspection requirements for all commercial"])
                   ] |}
              ] |});
        ("Mobile",
         {| l_type := Some "city";
            l_note := None;
            l_adopted := [
              ("IBC", adoption (Some 2018) "adopted" "2020-06-01" ["Wind zone amendments: 130 mph design wind speed minimum"; "Chapter 16 Structural: hurricane strap requirements"]);
              ("IRC", adoption (Some 2018) "adopted" "2020-06-01" ["Section R301 Wind Design: 130 mph Vult minimum"]);
              ("NEC", adoption (Some 2017) "adopted" "2019-01-01" []);
              ("IFC", adoption (Some 2018) "adopted" "2020-06-01" [])
            ];
            l_fireDistricts := None |})
      ];
      counties := [
        ("Jefferson County",
         {| l_type := Some "county";
            l_note := None;
            l_adopted := [
              ("IBC", adoption (Some 2018) "adopted" "2021-03-01" []);
              ("IRC", adoption (Some 2018) "adopted" "2021-03-01" []);
              ("NEC", adoption (Some 2020) "adopted" "2021-07-01" [])
            ];
            l_fireDistricts := None |});
        ("Mobile County",
         {| l_type := Some "county";
            l_note := None;
            l_adopted := [
              ("IBC", adoption (Some 2018) "adopted" "2020-09-01" ["Wind speed map overrides per ASCE 7-16 Figure 26.5-1B"]);
              ("NEC", adoption (Some 2017) "adopted" "2019-01-01" [])
            ];
            l_fireDistricts := None |})
      ] |});
  ("AK",
   {| name := "Alaska"; abbr := "AK"; region := "Pacific Northwest";
      stateNote := "Alaska Fire Marshal adopts IFC statewide. Building codes adopted by local governments; no mandatory statewide building code for municipalities.";
      adopted := [
        ("IFC", adoption (Some 2018) "adopted" "2020-01-01" ["Arctic construction provisions added"; "Chapter 3: permafrost foundation requirements"]);
        ("NEC", adoption (Some 2020) "adopted" "2022-01-01" [])
      ];
      cities := [
        ("Anchorage",
         {| l_type := Some "municipality";
            l_note := None;
            l_adopted := [
              ("IBC", adoption (Some 2018) "adopted" "2020-01-01" ["Seismic Design Category D/E requirements per Anchorage overlay"; "Section 1609: wind 110 mph Vult"; "Snow load requirements: 40-60 psf ground snow"]);
              ("IRC", adoption (Some 2018) "adopted" "2020-01-01" ["R301.2: Climate Zone 7 requirements"; "Foundation: frost depth 42 inches min"]);
              ("IFC", adoption (Some 2018) "adopted" "2020-01-01" []);
              ("NEC", adoption (Some 2020) "adopted" "2022-01-01" []);
              ("IECC", adoption (Some 2018) "adopted" "2020-01-01" ["CZ 7 envelope requirements: R-49 ceiling, R-30 floor"]);
              ("IMC", adoption (Some 2018) "adopted" "2020-01-01" ["Freeze protection requirements for all mechanical systems"])
            ];
            l_fireDistricts := None |});
        ("Fairbanks",
         {| l_type := Some "city";
            l_note := None;
            l_adopted := [
              ("IBC", adoption (Some 2015) "adopted" "2017-01-01" ["Permafrost design requirements Chapter 18"; "Extreme cold weather: -60°F design temp"]);
              ("NEC", adoption (Some 2017) "adopted" "2019-01-01" []);
              ("IFC", adoption (Some 2018) "adopted" "2020-01-01" [])
            ];
            l_fireDistricts := None |})
      ];
      counties := [] |});
  ("AZ",
   {| name := "Arizona"; abbr := "AZ"; region := "Southwest";
      stateNote := "Arizona has no statewide building code; each municipality adopts independently. State Fire Marshal adopts IFC. ADWR regulates water.";
      adopted := [
        ("IFC", adoption (Some 2018) "adopted" "2020-01-01" ["Wildland-Urban Interface provisions mandatory statewide"]);
        ("NEC", adoption (Some 2020) "adopted" "2022-01-01" [])
      ];
      cities := [
        ("Phoenix",
         {| l_type := Some "city";
            l_note := None;
            l_adopted := [
              ("IBC", adoption (Some 2018) "adopted" "2020-07-01" ["Chapter 16: Seismic Design Category B"; "Section 1609: Wind 90 mph Vult"; "Appendix G adopted – Flood-Resistant Construction"; "Section 420: Residential Group R occupancy sprinkler amendments"]);
              ("IRC", adoption (Some 2018) "adopted" "2020-07-01" ["R301.2(4): Ground snow 0 psf"; "R302.1: Fire separation distances modified for desert lots"]);
              ("IFC", adoption (Some 2018) "adopted" "2020-07-01" ["WUI Chapter 49: Urban interface fire protection"; "Section 507: Unlimited area buildings – evaporative cooling provisions"]);
              ("NEC", adoption (Some 2020) "adopted" "2022-01-01" ["PV systems: Art. 690 rapid shutdown required"; "Art. 310: Conductor ratings adjusted for ambient 100°F"]);
              ("IECC", adoption (Some 2018) "adopted" "2020-07-01" ["CZ 2B: Cool roof requirements for low-slope roofs"; "Mechanical: evaporative cooling compliance pathway"]);
              ("IMC", adoption (Some 2018) "adopted" "2020-07-01" []);
              ("IPC", adoption (Some 2018) "adopted" "2020-07-01" ["Water conservation: WaterSense fixtures mandatory for new construction"])
            ];
            l_fireDistricts := Some [
                {| fd_name := "Phoenix Fire District (unincorporated)";
                   fd_adopted := [
                     ("IFC", fd_adoption (Some 2021) ["High-piled storage regulations per sec. 3205"; "Hazmat regulations per CFC equivalents"])
                   ] |}
              ] |});
        ("Tucson",
         {| l_type := Some "city";
            l_note := None;
            l_adopted := [
              ("IBC", adoption (Some 2018) "adopted" "2020-07-01" ["Climate Zone 2B energy amendments"; "Greywater reuse system provisions added"]);
              ("IRC", adoption (Some 2018) "adopted" "2020-07-01" ["R325 Greywater systems adopted"]);
              ("IFC", adoption (Some 2018) "adopted" "2020-07-01" []);
              ("NEC", adoption (Some 2017) "adopted" "2019-01-01" []);
              ("IECC", adoption (Some 2018) "adopted" "2020-07-01" ["CZ 2B: Solar-ready provisions for R-1, R-2 mandatory"])
            ];
            l_fireDistricts := None |});
        ("Scottsdale",
         {| l_type := Some "city";
            l_note := None;
            l_adopted := [
              ("IBC", adoption (Some 2021) "adopted" "2022-01-01" ["Desert vegetation fire separation provisions"]);
              ("IRC", adoption (Some 2021) "adopted" "2022-01-01" []);
              ("IFC", adoption (Some 2021) "adopted" "2022-01-01" ["Enhanced WUI requirements east of Pima Rd"]);
              ("NEC", adoption (Some 2020) "adopted" "2022-01-01" [])
            ];
            l_fireDistricts := None |})
      ];
      counties := [
        ("Maricopa County",
         {| l_type := Some "county";
            l_note := Some "Unincorporated areas only.";
            l_adopted := [
              ("IBC", adoption (Some 2018) "adopted" "2020-01-01" []);
              ("IRC", adoption (Some 2018) "adopted" "2020-01-01" []);
              ("NEC", adoption (Some 2020) "adopted" "2022-01-01" []);
              ("IFC", adoption (Some 2018) "adopted" "2020-01-01" [])
            ];
            l_fireDistricts := None |});
        ("Pima County",
         {| l_type := Some "county";
            l_note := Some "Unincorporated areas only.";
            l_adopted := [
              ("IBC", adoption (Some 2018) "adopted" "2019-10-01" ["Greywater chapter adopted"]);
              ("NEC", adoption (Some 2017) "adopted" "2019-01-01" [])
            ];
            l_fireDistricts := None |})
      ] |});
  ("CA",
   {| name := "California"; abbr := "CA"; region := "Pacific";
      stateNote := "California has mandatory statewide building standards (Title 24 CCR). Local amendments must be more restrictive and filed with the California Building Standards Commission.";
      adopted := [
        ("CBC", adoption (Some 2022) "adopted" "2023-01-01" ["Based on 2021 IBC with California amendments. Seismic SDC D-E-F for most of state."; "Accessibility: enhanced beyond ADA/CBC Chapter 11B"]);
        ("CRC", adoption (Some 2022) "adopted" "2023-01-01" ["Based on 2021 IRC. High Wind zone provisions throughout"]);
        ("CEC", adoption (Some 2022) "adopted" "2023-01-01" ["Based on 2020 NEC. Additional solar PV requirements per T24 Part 6"]);
        ("CPC", adoption (Some 2022) "adopted" "2023-01-01" ["Based on 2021 UPC"]);
        ("CMC", adoption (Some 2022) "adopted" "2023-01-01" ["Based on 2021 UMC"]);
        ("IECC", adoption (Some 2022) "adopted" "2023-01-01" ["Title 24 Part 6 supersedes – all-electric reach code pathway"; "HERS rating requirements"]);
        ("IFC", adoption (Some 2022) "adopted" "2023-01-01" ["Based on 2021 IFC with California amendments"; "Chapter 49 Wildland-Urban Interface strongly enforced"])
      ];
      cities := [
        ("Los Angeles",
         {| l_type := Some "city";
            l_note := None;
            l_adopted := [
              ("CBC", adoption (Some 2022) "adopted" "2023-01-01" ["LA amendment: LADBS-specific seismic retrofit requirements (soft-story ord.)"; "Chapter 91 LABC: local amendments throughout"; "Mandatory Earthquake Hazard Reduction: URM and soft-story programs"; "Green Building Ordinance: LEED Silver min for new commercial >50k sqft"]);
              ("CEC", adoption (Some 2022) "adopted" "2023-01-01" ["All new residential: solar PV mandatory (T24 enhanced)"; "EV charging: 25% of parking spaces EV-ready"]);
              ("CPC", adoption (Some 2022) "adopted" "2023-01-01" ["Low Impact Development: stormwater capture requirements"]);
              ("IFC", adoption (Some 2022) "adopted" "2023-01-01" ["LAFD amendments: high-rise sprinkler retrofit program"; "WUI interface extends to Zone A fire overlay"]);
              ("IECC", adoption (Some 2022) "adopted" "2023-01-01" ["Reach code: all-electric new construction (residential)"; "Solar-ready provisions for CZ 9"])
            ];
            l_fireDistricts := Some [
                {| fd_name := "LAFD Bureau of Fire Prevention";
                   fd_adopted := [
                     ("IFC", fd_adoption (Some 2022) ["Enhanced high-rise fire safety provisions"; "Brush clearance 100ft mandatory in Very High Fire Hazard Severity Zones"; "Ember-resistant vents required in VHFHSZ"])
                   ] |}
              ] |});
        ("San Francisco",
         {| l_type := Some "city";
            l_note := None;
            l_adopted := [
              ("CBC", adoption (Some 2022) "adopted" "2023-01-01" ["SFBC Appendix 4A: San Francisco amendments (extensive)"; "Chapter 34B: Unreinforced masonry seismic safety"; "Administrative Code Chapter 13: Green Building requirements"; "Mandatory soft-story retrofit: Tier 4 buildings"]);
              ("CEC", adoption (Some 2022) "adopted" "2023-01-01" ["All-electric: new construction must be all-electric (Building Ordinance 43-21)"]);
              ("CPC", adoption (Some 2022) "adopted" "2023-01-01" []);
              ("IFC", adoption (Some 2022) "adopted" "2023-01-01" ["SF amendments: Tenderloin/SoMa density-specific fire provisions"]);
              ("IECC", adoption (Some 2022) "adopted" "2023-01-01" ["All-electric reach code"; "Embodied carbon requirements for buildings >25k sqft"])
            ];
            l_fireDistricts := None |});
        ("San Diego",
         {| l_type := Some "city";
            l_note := None;
            l_adopted := [
              ("CBC", adoption (Some 2022) "adopted" "2023-01-01" ["Climate Zone 7 amendments"; "Canyon development fire separation requirements"]);
              ("CEC", adoption (Some 2022) "adopted" "2023-01-01" []);
              ("IFC", adoption (Some 2022) "adopted" "2023-01-01" ["WUI Chapter: Canyon and chaparral interface provisions enhanced"; "Brush Management Zone 1: 100ft"; "Brush Management Zone 2: 200ft in Very High Fire Hazard Severity Zone"])
            ];
            l_fireDistricts := None |})
      ];
      counties := [
        ("Los Angeles County",
         {| l_type := Some "county";
            l_note := Some "Unincorporated areas only.";
            l_adopted := [
              ("CBC", adoption (Some 2022) "adopted" "2023-01-01" ["Title 26 LACC: County amendments to CBC"; "Hillside grading requirements Chapter 70"]);
              ("CEC", adoption (Some 2022) "adopted" "2023-01-01" []);
              ("IFC", adoption (Some 2022) "adopted" "2023-01-01" ["Title 32 LACC: Fire Code"; "WUI provisions throughout unincorporated hillside areas"])
            ];
            l_fireDistricts := None |})
      ] |});
  ("CO",
   {| name := "Colorado"; abbr := "CO"; region := "Mountain";
      stateNote := "Colorado has no mandatory statewide building code for commercial buildings. CDPHE adopts codes for health care. DORA/DOLA provides model codes. State Electrical Board adopts NEC. Local governments adopt independently.";
      adopted := [
        ("NEC", adoption (Some 2020) "adopted" "2021-01-01" ["Colorado amendments via DORA Electrical Board"]);
        ("IFC", adoption (Some 2021) "adopted" "2022-01-01" ["DFPC adopts statewide for unincorporated areas"])
      ];
      cities := [
        ("Denver",
         {| l_type := Some "city";
            l_note := None;
            l_adopted := [
              ("IBC", adoption (Some 2019) "adopted" "2021-01-01" ["Denver Building Code local amendments (extensive - Title 10)"; "Chapter 11 Accessibility: enhanced requirements"; "Green Building Ordinance: all new commercial must achieve LEED Silver equivalent"; "Seismic: SDC A-B, wind 105 mph"]);
              ("IRC", adoption (Some 2021) "adopted" "2023-01-01" ["R302: Fire separation for duplex/townhome"; "Appendix Q – Tiny Houses adopted"]);
              ("IFC", adoption (Some 2021) "adopted" "2022-01-01" ["Chapter 9: High-rise buildings >55ft: sprinklers required"; "Sec 315: Combustible material storage in urban context"]);
              ("NEC", adoption (Some 2020) "adopted" "2021-06-01" ["Art. 230: Integrated solar service entrance requirements"; "EV charging infrastructure: 20% of commercial parking EV-ready"]);
              ("IECC", adoption (Some 2021) "adopted" "2022-04-01" ["CZ 5B: Enhanced insulation values"; "Commercial: Stretch Energy Code requires 20% better than IECC base"]);
              ("IMC", adoption (Some 2021) "adopted" "2022-01-01" []);
              ("IPC", adoption (Some 2021) "adopted" "2022-01-01" []);
              ("IEBC", adoption (Some 2021) "adopted" "2022-01-01" [])
            ];
            l_fireDistricts := Some [
                {| fd_name := "Denver Fire Department";
                   fd_adopted := [
                     ("IFC", fd_adoption (Some 2021) ["Downtown High-Rise Fire Safety Standards"; "Cannabis cultivation facility: enhanced ventilation and fire suppression"])
                   ] |}
              ] |});
        ("Boulder",
         {| l_type := Some "city";
            l_note := None;
            l_adopted := [
              ("IBC", adoption (Some 2021) "adopted" "2023-01-01" ["SmartRegs rental housing standards"; "Climate Commitment: all-electric new construction pathway"]);
              ("IRC", adoption (Some 2021) "adopted" "2023-01-01" ["Accessory Dwelling Units: streamlined permitting"; "All-electric ready: EV charging conduit mandatory"]);
              ("NEC", adoption (Some 2020) "adopted" "2021-06-01" []);
              ("IECC", adoption (Some 2021) "adopted" "2023-01-01" ["Stretch code: 30% beyond IECC 2021 for commercial"; "2030 District participant: embodied carbon tracking"]);
              ("IFC", adoption (Some 2021) "adopted" "2023-01-01" ["WUI requirements throughout western Boulder interface"])
            ];
            l_fireDistricts := None |})
      ];
      counties := [
        ("Denver County",
         {| l_type := Some "county";
            l_note := Some "Denver is a consolidated city-county – same as City of Denver.";
            l_adopted := [];
            l_fireDistricts := None |});
        ("Jefferson County",
         {| l_type := Some "county";
            l_note := None;
            l_adopted := [
              ("IBC", adoption (Some 2021) "adopted" "2023-07-01" ["WUI Chapter 7A: wildfire provisions in unincorporated areas"; "High Wind Zone: 115 mph Vult in mountain communities"]);
              ("IRC", adoption (Some 2021) "adopted" "2023-07-01" ["R327: Wildland-Urban Interface Construction"]);
              ("NEC", adoption (Some 2020) "adopted" "2021-06-01" []);
              ("IFC", adoption (Some 2021) "adopted" "2022-01-01" [])
            ];
            l_fireDistricts := None |});
        ("Arapahoe County",
         {| l_type := Some "county";
            l_note := None;
            l_adopted := [
              ("IBC", adoption (Some 2021) "adopted" "2023-01-01" []);
              ("IRC", adoption (Some 2021) "adopted" "2023-01-01" []);
              ("NEC", adoption (Some 2020) "adopted" "2021-06-01" [])
            ];
            l_fireDistricts := None |})
      ] |});
  ("FL",
   {| name := "Florida"; abbr := "FL"; region := "Southeast";
      stateNote := "Florida Building Code (FBC) is mandatory statewide, updated every 3 years. Local amendments are very restricted – only modifications that are more stringent based on local conditions (climate, soils, etc.) are permitted with DBPR approval.";
      adopted := [
        ("IBC", adoption (Some 2020) "adopted" "2021-01-01" ["FBC 7th Ed. (2020): based on 2018 IBC with extensive Florida amendments"; "Floating structures Chapter 36: boat docks and seawall provisions"; "Miami-Dade High Velocity Hurricane Zone (HVHZ) provisions"; "Wind Speed Maps: Florida-specific per ASCE 7-16"; "Section 1604: importance factor modifications for hurricane-prone regions"; "Product Approval system (HVHZ impact windows/doors)"]);
        ("IRC", adoption (Some 2020) "adopted" "2021-01-01" ["FBC Residential 7th Ed."; "R301: Wind design per Florida High Wind Region"; "Section 3-17 Hurricane-resistant construction"]);
        ("NEC", adoption (Some 2020) "adopted" "2021-01-01" ["Art. 230: Service entrance flood elevation requirements"; "Art. 690: PV systems – Florida solar ready provisions"]);
        ("IFC", adoption (Some 2020) "adopted" "2021-01-01" ["FBC Fire Chapter based on IFC 2018"]);
        ("IECC", adoption (Some 2020) "adopted" "2021-01-01" ["CZ 1-2: Florida energy amendments"; "Duct leakage testing mandatory"; "Blower door test mandatory for new residential"]);
        ("IPC", adoption (Some 2020) "adopted" "2021-01-01" []);
        ("IMC", adoption (Some 2020) "adopted" "2021-01-01" ["Hurricane-rated equipment requirements"])
      ];
      cities := [
        ("Miami",
         {| l_type := Some "city";
            l_note := None;
            l_adopted := [
              ("IBC", adoption (Some 2020) "adopted" "2021-01-01" ["HVHZ provisions: all exterior components must have NOA (Notice of Acceptance)"; "Miami 21 zoning: transect-based building form standards"; "Resiliency requirements: flood elevation +1ft above BFE"; "Green Building: LEED Silver or equivalent for new commercial"]);
              ("IRC", adoption (Some 2020) "adopted" "2021-01-01" ["Hurricane shutters: mandatory for all openings in HVHZ"; "R301.2: 185 mph Vult in HVHZ"]);
              ("NEC", adoption (Some 2020) "adopted" "2021-01-01" ["Art. 230: Service above flood elevation AE+2ft"]);
              ("IFC", adoption (Some 2020) "adopted" "2021-01-01" [])
            ];
            l_fireDistricts := None |});
        ("Orlando",
         {| l_type := Some "city";
            l_note := None;
            l_adopted := [
              ("IBC", adoption (Some 2020) "adopted" "2021-01-01" ["Theme park and entertainment: special occupancy provisions"; "Hotels and high-rise: enhanced fire protection requirements"]);
              ("NEC", adoption (Some 2020) "adopted" "2021-01-01" []);
              ("IFC", adoption (Some 2020) "adopted" "2021-01-01" ["Assembly: enhanced crowd management provisions for entertainment venues"])
            ];
            l_fireDistricts := None |})
      ];
      counties := [
        ("Miami-Dade County",
         {| l_type := Some "county";
            l_note := None;
            l_adopted := [
              ("IBC", adoption (Some 2020) "adopted" "2021-01-01" ["HVHZ product approval system"; "185 mph Vult design wind speed"; "Enhanced flood provisions: countywide FEMA CLOMR requirements"]);
              ("NEC", adoption (Some 2020) "adopted" "2021-01-01" []);
              ("IFC", adoption (Some 2020) "adopted" "2021-01-01" [])
            ];
            l_fireDistricts := None |});
        ("Broward County",
         {| l_type := Some "county";
            l_note := None;
            l_adopted := [
              ("IBC", adoption (Some 2020) "adopted" "2021-01-01" ["Wind: 160-170 mph Vult at coast"]);
              ("NEC", adoption (Some 2020) "adopted" "2021-01-01" [])
            ];
            l_fireDistricts := None |})
      ] |});
  ("IL",
   {| name := "Illinois"; abbr := "IL"; region := "Midwest";
      stateNote := "Illinois has no mandatory statewide building code for local governments. Chicago and Cook County adopt independently. OSFM (Office of State Fire Marshal) adopts IFC statewide. State Plumbing Code mandatory. Capital Development Board uses IBC for state buildings.";
      adopted := [
        ("IFC", adoption (Some 2018) "adopted" "2020-01-01" ["Illinois Fire Prevention Code based on NFPA 1 and IFC"]);
        ("NEC", adoption (Some 2020) "adopted" "2022-01-01" []);
        ("IPC", adoption (Some 2018) "adopted" "2019-01-01" ["Illinois Plumbing Code: statewide mandatory"])
      ];
      cities := [
        ("Chicago",
         {| l_type := Some "city";
            l_note := None;
            l_adopted := [
              ("IBC", adoption (None) "own-code" "Ongoing" ["Chicago Building Code (CBC): proprietary code based loosely on 2015 IBC"; "Title 14B: Chicago Building Code (2019 update)"; "Energy: Chicago Energy Transformation Code (2023)"; "Accessibility: enhanced Chapter 11"; "High-rise: buildings >80ft have extensive supplemental requirements"; "Masonry: extensive Chicago masonry construction appendix"]);
              ("NEC", adoption (Some 2020) "adopted" "2022-01-01" ["Chicago Electrical Code supplements NEC"; "Commercial: City conduit (rigid metal conduit) requirements in loop"]);
              ("IFC", adoption (Some 2018) "adopted" "2020-01-01" ["Chicago Fire Prevention Code: proprietary provisions"; "High-rise: CFD-specific requirements above 80ft"]);
              ("IPC", adoption (Some 2018) "adopted" "2019-01-01" ["Chicago Plumbing Code: supplements state code"]);
              ("IECC", adoption (Some 2021) "adopted" "2023-01-01" ["Chicago Energy Transformation Code: 90% better performance target by 2030"; "Building benchmarking mandatory >50k sqft"])
            ];
            l_fireDistricts := None |});
        ("Springfield",
         {| l_type := Some "city";
            l_note := None;
            l_adopted := [
              ("IBC", adoption (Some 2018) "adopted" "2020-01-01" []);
              ("NEC", adoption (Some 2020) "adopted" "2022-01-01" []);
              ("IFC", adoption (Some 2018) "adopted" "2020-01-01" [])
            ];
            l_fireDistricts := None |})
      ];
      counties := [
        ("Cook County",
         {| l_type := Some "county";
            l_note := None;
            l_adopted := [
              ("IBC", adoption (Some 2018) "adopted" "2020-01-01" ["Cook County Building Code: supplements IBC for unincorporated areas"]);
              ("NEC", adoption (Some 2020) "adopted" "2022-01-01" []);
              ("IFC", adoption (Some 2018) "adopted" "2020-01-01" [])
            ];
            l_fireDistricts := None |})
      ] |});
  ("NY",
   {| name := "New York"; abbr := "NY"; region := "Northeast";
      stateNote := "New York has mandatory statewide building code (NYSBC) for all buildings except New York City. NYC has its own building code. NYSBC is based on IBC but with extensive New York-specific amendments managed by DOS/DFS.";
      adopted := [
        ("IBC", adoption (Some 2020) "adopted" "2022-01-01" ["NYSBC 2020: based on 2018 IBC with NYSBC amendments"; "Appendix N: Manufactured Buildings"; "Chapter 17: Special Inspection – enhanced NY requirements"; "Seismic: NYC/Westchester enhanced provisions separate from NYSBC"]);
        ("IRC", adoption (Some 2020) "adopted" "2022-01-01" ["NYSRC 2020: based on 2018 IRC"]);
        ("NEC", adoption (Some 2020) "adopted" "2022-01-01" ["NYSEC: New York State Electrical Code supplements NEC 2020"]);
        ("IFC", adoption (Some 2020) "adopted" "2022-01-01" ["NYSFC: based on IFC 2018"]);
        ("IECC", adoption (Some 2020) "adopted" "2022-01-01" ["NYSECC 2020: enhanced beyond IECC"; "CZ 4A-6A: heating design"; "Stretch code provisions available"])
      ];
      cities := [
        ("New York City",
         {| l_type := Some "city";
            l_note := None;
            l_adopted := [
              ("IBC", adoption (None) "own-code" "2022-01-01" ["NYC Building Code 2022 (BC 2022): proprietary code, not NYSBC"; "Based on 2015 IBC + extensive NYC amendments spanning all 35 chapters"; "Chapter 7: High-Rise Construction – prescriptive requirements above 420ft"; "Chapter 8: Super-Tall: 1000ft+ provisions"; "Local Law 97 (Climate Mobilization Act): carbon emissions caps 2024+"; "Local Law 126: Periodic Facade Inspection & Safety Program (FISP)"; "Zoning: FAR and height limits via NYC Zoning Resolution"]);
              ("NEC", adoption (Some 2020) "adopted" "2022-01-01" ["NYC Electrical Code: supplements NEC 2020"; "Commercial: BMS/EMS integration requirements"]);
              ("IFC", adoption (None) "own-code" "2022-01-01" ["NYC Fire Code 2022: proprietary, not NYSFC"; "Enhanced high-rise provisions"; "Local Law 5: Sprinkler retrofit program"]);
              ("IECC", adoption (Some 2020) "adopted" "2022-01-01" ["NYC Energy Conservation Code"; "Local Law 97: mandatory carbon intensity targets"; "Benchmarking: LL84 mandatory for all >25k sqft"]);
              ("IPC", adoption (None) "own-code" "2022-01-01" ["NYC Plumbing Code 2022"]);
              ("IMC", adoption (None) "own-code" "2022-01-01" ["NYC Mechanical Code 2022"])
            ];
            l_fireDistricts := None |});
        ("Buffalo",
         {| l_type := Some "city";
            l_note := None;
            l_adopted := [
              ("IBC", adoption (Some 2020) "adopted" "2022-01-01" ["NYSBC 2020 applies; minimal local amendments"; "Snow load: 40 psf ground snow"]);
              ("NEC", adoption (Some 2020) "adopted" "2022-01-01" []);
              ("IFC", adoption (Some 2020) "adopted" "2022-01-01" [])
            ];
            l_fireDistricts := None |})
      ];
      counties := [
        ("Westchester County",
         {| l_type := Some "county";
            l_note := None;
            l_adopted := [
              ("IBC", adoption (Some 2020) "adopted" "2022-01-01" ["NYSBC + Westchester amendments"; "Seismic: enhanced provisions due to proximity to Ramapo Fault"]);
              ("NEC", adoption (Some 2020) "adopted" "2022-01-01" [])
            ];
            l_fireDistricts := None |})
      ] |});
  ("TX",
   {| name := "Texas"; abbr := "TX"; region := "South-Central";
      stateNote := "Texas has no mandatory statewide building code for commercial buildings. State law allows municipalities to adopt codes. TSDHS adopts IFC via state. TDLR enforces accessibility (TAS) statewide. State Plumbing Board. TECL licenses electricians per NEC.";
      adopted := [
        ("NEC", adoption (Some 2020) "adopted" "2021-09-01" ["Texas TECL: licensure based on NEC 2020"]);
        ("IFC", adoption (Some 2021) "adopted" "2022-08-01" ["Texas Fire Code: based on IFC 2021"])
      ];
      cities := [
        ("Houston",
         {| l_type := Some "city";
            l_note := Some "Notable: Houston has no citywide zoning ordinance.";
            l_adopted := [
              ("IBC", adoption (Some 2015) "adopted" "2017-01-01" ["Houston amendments: Chapter 10 Mechanical (local)"; "Flood: minimum FFE requirements per Harris County Flood Control"; "Wind: 120 mph Vult"]);
              ("IRC", adoption (Some 2015) "adopted" "2017-01-01" ["R301.2.4 Wind: 120 mph Vult for Zone II/III"]);
              ("NEC", adoption (Some 2017) "adopted" "2019-01-01" []);
              ("IFC", adoption (Some 2021) "adopted" "2022-08-01" []);
              ("IECC", adoption (Some 2015) "adopted" "2017-01-01" ["CZ 2A: Commercial energy code"])
            ];
            l_fireDistricts := None |});
        ("Dallas",
         {| l_type := Some "city";
            l_note := None;
            l_adopted := [
              ("IBC", adoption (Some 2021) "adopted" "2023-01-01" ["Dallas amendments: extensive via Dallas Development Code"; "High-rise: enhanced fire protection Chapter 403"; "Seismic: SDC A, minor amendments"]);
              ("IRC", adoption (Some 2021) "adopted" "2023-01-01" []);
              ("NEC", adoption (Some 2020) "adopted" "2022-01-01" []);
              ("IFC", adoption (Some 2021) "adopted" "2022-08-01" []);
              ("IECC", adoption (Some 2021) "adopted" "2023-01-01" ["CZ 3A: enhanced insulation requirements"])
            ];
            l_fireDistricts := None |});
        ("Austin",
         {| l_type := Some "city";
            l_note := None;
            l_adopted := [
              ("IBC", adoption (Some 2021) "adopted" "2022-07-01" ["Austin Amendments: Title 25 Land Development Code integration"; "Austin Energy Green Building standards: 1-5 star program"; "Seismic: minimal (SDC A)"]);
              ("IRC", adoption (Some 2021) "adopted" "2022-07-01" ["ADU (Accessory Dwelling Unit) provisions expanded"]);
              ("NEC", adoption (Some 2020) "adopted" "2021-09-01" ["EV charging: 20% EV-ready for new commercial parking"]);
              ("IFC", adoption (Some 2021) "adopted" "2022-08-01" []);
              ("IECC", adoption (Some 2021) "adopted" "2022-07-01" ["Austin Energy Green Building program: enhanced beyond IECC"])
            ];
            l_fireDistricts := None |});
        ("San Antonio",
         {| l_type := Some "city";
            l_note := None;
            l_adopted := [
              ("IBC", adoption (Some 2021) "adopted" "2023-01-01" []);
              ("IRC", adoption (Some 2021) "adopted" "2023-01-01" []);
              ("NEC", adoption (Some 2020) "adopted" "2022-01-01" []);
              ("IFC", adoption (Some 2021) "adopted" "2022-08-01" [])
            ];
            l_fireDistricts := None |})
      ];
      counties := [
        ("Harris County",
         {| l_type := Some "county";
            l_note := Some "Unincorporated areas only.";
            l_adopted := [
              ("IBC", adoption (Some 2015) "adopted" "2017-01-01" ["Flood: Harris County Flood Control District minimum FFE +2ft above 500-yr BFE"]);
              ("NEC", adoption (Some 2017) "adopted" "2019-01-01" [])
            ];
            l_fireDistricts := None |});
        ("Travis County",
         {| l_type := Some "county";
            l_note := None;
            l_adopted := [
              ("IBC", adoption (Some 2021) "adopted" "2023-01-01" []);
              ("NEC", adoption (Some 2020) "adopted" "2021-09-01" [])
            ];
            l_fireDistricts := None |})
      ] |});
  ("WA",
   {| name := "Washington"; abbr := "WA"; region := "Pacific Northwest";
      stateNote := "Washington State Building Code Council (SBCC) adopts mandatory statewide codes including WSBC (based on IBC), WSRC (based on IRC), WSEC, WSFC, and WSSPC. Local amendments require state filing.";
      adopted := [
        ("IBC", adoption (Some 2021) "adopted" "2023-03-15" ["Washington State Building Code (2021): based on IBC 2021"; "Seismic: SDC C-D throughout I-5 corridor"; "Snow loads: amended per WA climate zones"; "Section 1707: special inspections enhanced"]);
        ("IRC", adoption (Some 2021) "adopted" "2023-03-15" ["Washington State Residential Code 2021"; "Climate Zone 4C-5B provisions"; "Earthquake-resistant design requirements"]);
        ("NEC", adoption (Some 2020) "adopted" "2023-03-15" ["Washington NEC amendments: administered by L&I"]);
        ("IFC", adoption (Some 2021) "adopted" "2023-03-15" ["Washington State Fire Code (WSFC) 2021"]);
        ("WSEC", adoption (Some 2021) "adopted" "2023-03-15" ["Washington State Energy Code: advanced over IECC 2021"; "EV charging: mandatory commercial provisions"; "All-electric ready for new construction (2023)"])
      ];
      cities := [
        ("Seattle",
         {| l_type := Some "city";
            l_note := None;
            l_adopted := [
              ("IBC", adoption (Some 2021) "adopted" "2023-03-15" ["Seattle Building Code: WSBC + Seattle amendments (SMC 22.100)"; "Seismic: enhanced SDC D provisions"; "Section 3108: communication towers"; "Mandatory seismic retrofit: URM buildings"; "Green Building: Seattle SMC Mandatory Targets per RES Policy"]);
              ("IRC", adoption (Some 2021) "adopted" "2023-03-15" ["Seattle Residential Code: WSRC + Seattle amendments"]);
              ("NEC", adoption (Some 2020) "adopted" "2023-03-15" ["Seattle Electrical Code: enhanced EV charging"; "20% of commercial spaces EV-ready"]);
              ("IFC", adoption (Some 2021) "adopted" "2023-03-15" ["Seattle Fire Code: enhanced high-rise provisions"; "Chapter 38: Cannabis business fire safety provisions"]);
              ("WSEC", adoption (Some 2021) "adopted" "2023-03-15" ["Seattle Reach Code: all-electric new construction"; "Zero net carbon pathway encouraged"; "Benchmarking: BO 117 mandatory for >20k sqft"]);
              ("IMC", adoption (Some 2021) "adopted" "2023-03-15" ["Seattle Mechanical Code: heat pump requirements"])
            ];
            l_fireDistricts := Some [
                {| fd_name := "Seattle Fire Marshal";
                   fd_adopted := [
                     ("IFC", fd_adoption (Some 2021) ["High-rise: enhanced provisions above 75ft"; "Cannabis: Tier 1-3 extraction facility requirements"; "Emergency Responder Radio Coverage NFPA 1221"])
                   ] |}
              ] |});
        ("Spokane",
         {| l_type := Some "city";
            l_note := None;
            l_adopted := [
              ("IBC", adoption (Some 2021) "adopted" "2023-03-15" ["Snow load: 25 psf min for Spokane valley"]);
              ("NEC", adoption (Some 2020) "adopted" "2023-03-15" []);
              ("WSEC", adoption (Some 2021) "adopted" "2023-03-15" [])
            ];
            l_fireDistricts := None |})
      ];
      counties := [
        ("King County",
         {| l_type := Some "county";
            l_note := Some "Unincorporated areas only.";
            l_adopted := [
              ("IBC", adoption (Some 2021) "adopted" "2023-03-15" ["King County Building Code: WSBC base"; "Landslide hazard areas: Chapter 16 amendments"]);
              ("WSEC", adoption (Some 2021) "adopted" "2023-03-15" []);
              ("NEC", adoption (Some 2020) "adopted" "2023-03-15" [])
            ];
            l_fireDistricts := None |})
      ] |});
  ("OR",
   {| name := "Oregon"; abbr := "OR"; region := "Pacific Northwest";
      stateNote := "Oregon BCD adopts and enforces statewide building codes. OSSC, ORRC, OECC. Local amendments limited.";
      adopted := [
        ("OSSC", adoption (Some 2021) "adopted" "2023-01-01" ["Oregon Structural Specialty Code: based on 2021 IBC"; "Seismic: SDC C-D-E along coast (Cascadia Subduction Zone)"]);
        ("IFC", adoption (Some 2021) "adopted" "2023-01-01" ["Oregon Fire Code: statewide mandatory"]);
        ("NEC", adoption (Some 2020) "adopted" "2022-01-01" []);
        ("IECC", adoption (Some 2021) "adopted" "2023-01-01" ["Oregon Energy Efficiency Specialty Code: enhanced for CZ 4C-5C"])
      ];
      cities := [
        ("Portland",
         {| l_type := Some "city";
            l_note := None;
            l_adopted := [
              ("OSSC", adoption (Some 2021) "adopted" "2023-01-01" ["Portland Zoning Code Title 33: use overlays affecting building code"; "Climate Emergency: 2030 all-electric requirement"; "Seismic: soft-story retrofit program ongoing"]);
              ("NEC", adoption (Some 2020) "adopted" "2022-01-01" []);
              ("IFC", adoption (Some 2021) "adopted" "2023-01-01" []);
              ("IECC", adoption (Some 2021) "adopted" "2023-01-01" ["Portland reach code: all-electric new construction pathway per ADM-13.04.020"])
            ];
            l_fireDistricts := None |})
      ];
      counties := [] |});
  ("VA",
   {| name := "Virginia"; abbr := "VA"; region := "Mid-Atlantic";
      stateNote := "Virginia Uniform Statewide Building Code (USBC) is mandatory. DHCD enforces. Based on 2018 IBC with VA amendments. Local amendments are not permitted.";
      adopted := [
        ("IBC", adoption (Some 2018) "adopted" "2021-10-01" ["VUSBC (Virginia Uniform Statewide Building Code Part I: Construction)"; "Based on 2018 IBC"; "Seismic: SDC A-B throughout most of state; C near Richmond/DC corridor"]);
        ("IRC", adoption (Some 2018) "adopted" "2021-10-01" ["VUSBC Part II: Residential"]);
        ("NEC", adoption (Some 2017) "adopted" "2018-01-01" ["DPOR administers electrical licensing per NEC 2017"]);
        ("IFC", adoption (Some 2018) "adopted" "2021-10-01" ["Virginia Statewide Fire Prevention Code"]);
        ("IECC", adoption (Some 2018) "adopted" "2021-10-01" ["VECC (Virginia Energy Conservation Code): based on IECC 2018"; "CZ 4A for northern VA; CZ 3A south"])
      ];
      cities := [];
      counties := [] |});
  ("GA",
   {| name := "Georgia"; abbr := "GA"; region := "Southeast";
      stateNote := "Georgia DCA adopts statewide mandatory codes. Local amendments allowed with DCA review.";
      adopted := [
        ("IBC", adoption (Some 2018) "adopted" "2020-01-01" ["Georgia State Minimum Standard Building Code: based on IBC 2018"; "Chapter 17: enhanced special inspection requirements"]);
        ("IRC", adoption (Some 2018) "adopted" "2020-01-01" []);
        ("NEC", adoption (Some 2020) "adopted" "2021-01-01" []);
        ("IFC", adoption (Some 2018) "adopted" "2020-01-01" []);
        ("IECC", adoption (Some 2015) "adopted" "2016-01-01" ["CZ 2A-4A: Georgia amendments"])
      ];
      cities := [
        ("Atlanta",
         {| l_type := Some "city";
            l_note := None;
            l_adopted := [
              ("IBC", adoption (Some 2018) "adopted" "2020-01-01" ["Atlanta amendments: enhanced historic preservation requirements"; "Transit-oriented development zones: enhanced ADU provisions"]);
              ("NEC", adoption (Some 2020) "adopted" "2021-01-01" []);
              ("IFC", adoption (Some 2018) "adopted" "2020-01-01" []);
              ("IECC", adoption (Some 2015) "adopted" "2016-01-01" ["Atlanta Better Buildings Challenge: voluntary stretch targets"])
            ];
            l_fireDistricts := None |})
      ];
      counties := [
        ("Fulton County",
         {| l_type := Some "county";
            l_note := None;
            l_adopted := [
              ("IBC", adoption (Some 2018) "adopted" "2020-01-01" []);
              ("NEC", adoption (Some 2020) "adopted" "2021-01-01" [])
            ];
            l_fireDistricts := None |})
      ] |});
  ("MA",
   {| name := "Massachusetts"; abbr := "MA"; region := "Northeast";
      stateNote := "Massachusetts adopts the Massachusetts State Building Code (780 CMR) statewide. Based on 2009 IBC with MA amendments – updating to 2015 IBC basis in 9th edition. BBRS administers.";
      adopted := [
        ("IBC", adoption (Some 2015) "adopted" "2020-01-01" ["780 CMR 9th Edition: based on 2015 IBC"; "Seismic: SDC B-C in eastern MA"; "Section 1101: MA accessibility enhanced (521 CMR)"; "780 CMR Chapter 36: Stretch Energy Code available"]);
        ("IRC", adoption (Some 2015) "adopted" "2020-01-01" ["780 CMR Appendix AA: Two Family dwellings"]);
        ("NEC", adoption (Some 2020) "adopted" "2021-01-01" ["527 CMR 12.00: Massachusetts Electrical Code based on NEC 2020"]);
        ("IFC", adoption (Some 2015) "adopted" "2020-01-01" ["527 CMR 1.00: Massachusetts Fire Prevention Regulations"]);
        ("IECC", adoption (Some 2018) "adopted" "2020-01-01" ["Base: 780 CMR Appendix AB Energy Code"; "Stretch Code: 780 CMR 115.AA – 20% better required in many municipalities"; "Specialized Code: enhanced (opt-in)"])
      ];
      cities := [
        ("Boston",
         {| l_type := Some "city";
            l_note := None;
            l_adopted := [
              ("IBC", adoption (Some 2015) "adopted" "2020-01-01" ["Boston Zoning Code and Groundwater Conservation Overlay supplement"; "Resilience: BBP Sea Level Rise+3ft minimum FFE"; "LEED Gold required for new construction >50k sqft per IDP"]);
              ("NEC", adoption (Some 2020) "adopted" "2021-01-01" []);
              ("IFC", adoption (Some 2015) "adopted" "2020-01-01" ["Boston Fire Prevention Code: BFD amendments"]);
              ("IECC", adoption (Some 2018) "adopted" "2020-01-01" ["Boston Stretch Code mandatory"; "BERDO: building emissions reduction + disclosure ordinance applies >35k sqft"])
            ];
            l_fireDistricts := None |})
      ];
      counties := [] |});
  ("HI",
   {| name := "Hawaii"; abbr := "HI"; region := "Pacific";
      stateNote := "State building code based on IBC 2015.";
      adopted := [
        ("IBC", adoption (Some 2015) "adopted" "2016-01-01" ["Hawaii State Building Code: IBC 2015 basis"; "High Wind: 110-130 mph Vult throughout"; "Tsunami hazard zone: enhanced coastal requirements"]);
        ("NEC", adoption (Some 2020) "adopted" "2022-01-01" []);
        ("IFC", adoption (Some 2015) "adopted" "2016-01-01" [])
      ];
      cities := [];
      counties := [] |});
  ("ID",
   {| name := "Idaho"; abbr := "ID"; region := "Mountain";
      stateNote := "No mandatory statewide building code. IFC adopted statewide.";
      adopted := [
        ("IFC", adoption (Some 2018) "adopted" "2020-01-01" []);
        ("NEC", adoption (Some 2020) "adopted" "2022-01-01" [])
      ];
      cities := [
        ("Boise",
         {| l_type := Some "city";
            l_note := None;
            l_adopted := [
              ("IBC", adoption (Some 2018) "adopted" "2021-01-01" ["WUI provisions for bench/foothills areas"]);
              ("NEC", adoption (Some 2020) "adopted" "2022-01-01" []);
              ("IFC", adoption (Some 2018) "adopted" "2021-01-01" [])
            ];
            l_fireDistricts := None |})
      ];
      counties := [] |});
  ("MN",
   {| name := "Minnesota"; abbr := "MN"; region := "Midwest";
      stateNote := "MN DLI administers Minnesota Building Code (MBC): based on IBC 2015. Statewide mandatory.";
      adopted := [
        ("IBC", adoption (Some 2015) "adopted" "2020-03-31" ["MBC 2020: based on IBC 2015 with MN amendments"; "Chapter 1301: state amendments throughout"; "1341: Minnesota Accessibility Code – exceeds ADA"]);
        ("IRC", adoption (Some 2015) "adopted" "2020-03-31" []);
        ("NEC", adoption (Some 2020) "adopted" "2020-06-01" []);
        ("IFC", adoption (Some 2015) "adopted" "2020-03-31" []);
        ("IECC", adoption (Some 2015) "adopted" "2020-03-31" ["MN Energy Code: CZ 6-7 enhanced requirements"])
      ];
      cities := [
        ("Minneapolis",
         {| l_type := Some "city";
            l_note := None;
            l_adopted := [
              ("IBC", adoption (Some 2015) "adopted" "2020-03-31" ["Minneapolis amendments: Chapter 6 local"; "Green Building Policy: LEED Silver >50k sqft"]);
              ("NEC", adoption (Some 2020) "adopted" "2020-06-01" []);
              ("IFC", adoption (Some 2015) "adopted" "2020-03-31" [])
            ];
            l_fireDistricts := None |})
      ];
      counties := [] |});
  ("OH",
   {| name := "Ohio"; abbr := "OH"; region := "Midwest";
      stateNote := "Ohio BBS administers Ohio Building Code (OBC) statewide. Based on IBC 2017.";
      adopted := [
        ("IBC", adoption (Some 2017) "adopted" "2017-11-01" ["OBC: based on IBC 2017 with Ohio amendments"; "Section 4101:1 OBC fire and life safety"]);
        ("NEC", adoption (Some 2017) "adopted" "2018-01-01" []);
        ("IFC", adoption (Some 2017) "adopted" "2017-11-01" []);
        ("IECC", adoption (Some 2017) "adopted" "2017-11-01" [])
      ];
      cities := [
        ("Columbus",
         {| l_type := Some "city";
            l_note := None;
            l_adopted := [
              ("IBC", adoption (Some 2017) "adopted" "2017-11-01" []);
              ("NEC", adoption (Some 2017) "adopted" "2018-01-01" []);
              ("IFC", adoption (Some 2017) "adopted" "2017-11-01" [])
            ];
            l_fireDistricts := None |});
        ("Cleveland",
         {| l_type := Some "city";
            l_note := None;
            l_adopted := [
              ("IBC", adoption (Some 2017) "adopted" "2017-11-01" ["Cleveland amendments: historic district provisions"; "Lake Erie waterfront setback requirements"]);
              ("NEC", adoption (Some 2017) "adopted" "2018-01-01" [])
            ];
            l_fireDistricts := None |})
      ];
      counties := [] |});
  ("PA",
   {| name := "Pennsylvania"; abbr := "PA"; region := "Mid-Atlantic";
      stateNote := "PA UCC (Uniform Construction Code) is mandatory statewide except for first class cities (Philadelphia). Based on IBC 2018.";
      adopted := [
        ("IBC", adoption (Some 2018) "adopted" "2022-10-01" ["PA UCC: 2018 IBC basis"; "Radon: Chapter 11 PA mandatory radon-resistant construction"]);
        ("IRC", adoption (Some 2018) "adopted" "2022-10-01" ["Radon: Appendix F mandatory"]);
        ("NEC", adoption (Some 2017) "adopted" "2019-01-01" []);
        ("IFC", adoption (Some 2018) "adopted" "2022-10-01" []);
        ("IECC", adoption (Some 2018) "adopted" "2022-10-01" [])
      ];
      cities := [
        ("Philadelphia",
         {| l_type := Some "city";
            l_note := None;
            l_adopted := [
              ("IBC", adoption (None) "own-code" "2022-01-01" ["Philadelphia Building Construction and Occupancy Code: based on IBC 2018 with PhilaCode amendments"; "Title 4 Philadelphia Code: local amendments throughout"; "Energy: Philly Energy Campaign stretch code pathway"]);
              ("NEC", adoption (Some 2017) "adopted" "2019-01-01" []);
              ("IFC", adoption (Some 2018) "adopted" "2022-01-01" ["Philadelphia Fire Code: enhanced provisions"])
            ];
            l_fireDistricts := None |})
      ];
      counties := [] |})
].

(** ** fallback-states.js: fill in the rest of the states *)

Record StateStub : Type := { stub_abbr : string; stub_name : string }.

Definition ALL_STATES : list StateStub := [
  {| stub_abbr := "AR"; stub_name := "Arkansas" |};
  {| stub_abbr := "CT"; stub_name := "Connecticut" |};
  {| stub_abbr := "DE"; stub_name := "Delaware" |};
  {| stub_abbr := "IA"; stub_name := "Iowa" |};
  {| stub_abbr := "IN"; stub_name := "Indiana" |};
  {| stub_abbr := "KS"; stub_name := "Kansas" |};
  {| stub_abbr := "KY"; stub_name := "Kentucky" |};
  {| stub_abbr := "LA"; stub_name := "Louisiana" |};
  {| stub_abbr := "ME"; stub_name := "Maine" |};
  {| stub_abbr := "MD"; stub_name := "Maryland" |};
  {| stub_abbr := "MI"; stub_name := "Michigan" |};
  {| stub_abbr := "MS"; stub_name := "Mississippi" |};
  {| stub_abbr := "MO"; stub_name := "Missouri" |};
  {| stub_abbr := "MT"; stub_name := "Montana" |};
  {| stub_abbr := "NE"; stub_name := "Nebraska" |};
  {| stub_abbr := "NV"; stub_name := "Nevada" |};
  {| stub_abbr := "NH"; stub_name := "New Hampshire" |};
  {| stub_abbr := "NJ"; stub_name := "New Jersey" |};
  {| stub_abbr := "NM"; stub_name := "New Mexico" |};
  {| stub_abbr := "NC"; stub_name := "North Carolina" |};
  {| stub_abbr := "ND"; stub_name := "North Dakota" |};
  {| stub_abbr := "OK"; stub_name := "Oklahoma" |};
  {| stub_abbr := "RI"; stub_name := "Rhode Island" |};
  {| stub_abbr := "SC"; stub_name := "South Carolina" |};
  {| stub_abbr := "SD"; stub_name := "South Dakota" |};
  {| stub_abbr := "TN"; stub_name := "Tennessee" |};
  {| stub_abbr := "UT"; stub_name := "Utah" |};
  {| stub_abbr := "VT"; stub_name := "Vermont" |};
  {| stub_abbr := "WV"; stub_name := "West Virginia" |};
  {| stub_abbr := "WI"; stub_name := "Wisconsin" |};
  {| stub_abbr := "WY"; stub_name := "Wyoming" |}
].

(** The object literal assigned for a missing state. *)
Definition stub_entry (s : StateStub) : Jurisdiction :=
  {| name := stub_name s; abbr := stub_abbr s; region := "—";
     stateNote := "Contact your local building department for current adopted codes. Data pending detailed research.";
     adopted := [
       ("IBC", adoption (Some 2018) "adopted" "Varies" ["Contact local AHJ for specific amendments"]);
       ("NEC", adoption (Some 2020) "adopted" "Varies" [])
     ];
     cities := []; counties := [] |}.

(** One turn of the [forEach]: [if (!JURISDICTIONS[s.abbr]) JURISDICTIONS[s.abbr] = {...}].
    Every value of the table is an object, so the test is a test of
    absence; the codes of the list are not names of inherited members
    ([ALL_STATES_named]), so what is tested is an own property. *)
Definition fill_state (J : jsobj Jurisdiction) (s : StateStub) : jsobj Jurisdiction :=
  match obj_get J (stub_abbr s) with
  | Some _ => J
  | None => obj_set (stub_abbr s) (stub_entry s) J
  end.

(** [stubs.forEach(...)] on the table [J]. *)
Definition fill_states (stubs : list StateStub) (J : jsobj Jurisdiction) : jsobj Jurisdiction :=
  fold_left fill_state stubs J.

(** The table after both scripts have run. *)
Definition JURISDICTIONS : jsobj Jurisdiction := fill_states ALL_STATES JURISDICTIONS_core.

(** ** Browse order of the state tree *)

Section ArraySort.
Context {A : Type}.
Variable compareFn : A -> A -> comparison.

(** Place [x] in front of the first element it does not follow. *)
Fixpoint sort_insert (x : A) (l : list A) : list A :=
  match l with
  | [] => [x]
  | y :: l' =>
      match compareFn x y with
      | Gt => y :: sort_insert x l'
      | _ => x :: l
      end
  end.

(** [l.sort(compareFn)], with the sign of the number [compareFn] returns:
    [Lt] negative, [Eq] zero, [Gt] positive.  The sort is stable, so with
    a consistent comparison function the result does not depend on the
    algorithm; it is written here as an insertion sort. *)
Definition Array_sort (l : list A) : list A := fold_right sort_insert [] l.
End ArraySort.

Section Browse.
(** [a.localeCompare(b)], by its sign.  The collation is the host's, so it
    is a parameter. *)
Variable localeCompare : string -> string -> comparison.

(** [Object.values(JURISDICTIONS).sort((a,b) => a.name.localeCompare(b.name))] *)
Definition statesSorted (J : jsobj Jurisdiction) : list Jurisdiction :=
  Array_sort (fun a b => localeCompare (name a) (name b)) (Object_values J).
End Browse.

(** ** Search autocomplete *)

Inductive MatchType : Type := STATE | CITY | COUNTY.

Record Suggestion : Type := {
  s_label : string;
  s_sub : string;
  s_type : MatchType;
  s_state : string;
  s_city : option string;
  s_county : option string
}.

(** The pair [results], [seen] that the loops of [buildSuggestions] update. *)
Definition SearchAcc : Type := (list Suggestion * list string)%type.

(** [if (!seen.has(key)) { seen.add(key); results.push(s); }] *)
Definition push_unseen (key : string) (s : Suggestion) (a : SearchAcc) : SearchAcc :=
  if Set_has (snd a) key then a else (fst a ++ [s], Set_add (snd a) key).

Definition state_key (st : Jurisdiction) : string := ("state:" ++ abbr st)%string.
Definition city_key (st : Jurisdiction) (city : string) : string :=
  ("city:" ++ abbr st ++ ":" ++ city)%string.
Definition county_key (st : Jurisdiction) (county : string) : string :=
  ("county:" ++ abbr st ++ ":" ++ county)%string.

Definition state_suggestion (st : Jurisdiction) : Suggestion :=
  {| s_label := name st; s_sub := abbr st; s_type := STATE; s_state := abbr st;
     s_city := None; s_county := None |}.
Definition city_suggestion (st : Jurisdiction) (city : string) : Suggestion :=
  {| s_label := city; s_sub := name st; s_type := CITY; s_state := abbr st;
     s_city := Some city; s_county := None |}.
Definition county_suggestion (st : Jurisdiction) (county : string) : Suggestion :=
  {| s_label := county; s_sub := name st; s_type := COUNTY; s_state := abbr st;
     s_city := None; s_county := Some county |}.

Definition state_matches (t : string) (st : Jurisdiction) : bool :=
  includes (toLowerCase (name st)) t || String.eqb (toLowerCase (abbr st)) t.
Definition local_matches (t : string) (local : string) : bool :=
  includes (toLowerCase local) t.

(** Body of the inner [forEach] over the states, for the lower-cased term [t]. *)
Definition visit_state (t : string) (a : SearchAcc) (st : Jurisdiction) : SearchAcc :=
  let a1 := if state_matches t st
            then push_unseen (state_key st) (state_suggestion st) a else a in
  let a2 := fold_left
              (fun a city =>
                 if local_matches t city
                 then push_unseen (city_key st city) (city_suggestion st city) a else a)
              (Object_keys (cities st)) a1 in
  fold_left
    (fun a county =>
       if local_matches t county
       then push_unseen (county_key st county) (county_suggestion st county) a else a)
    (Object_keys (counties st)) a2.

(** Body of [terms.forEach]. *)
Definition visit_term (J : jsobj Jurisdiction) (a : SearchAcc) (term : string) : SearchAcc :=
  fold_left (visit_state (toLowerCase term)) (Object_values J) a.

(** [query.split(',').map(p => p.trim().replace(/\s+\d{5}(-\d{4})?$/, '').trim())] *)
Definition rawParts (query : string) : list string :=
  map (fun p => trim (replace_zip (trim p))) (split "," query).

(** [[...new Set(rawParts)].filter(p => p.length >= 2)] *)
Definition search_terms (query : string) : list string :=
  filter (fun p => 2 <=? String.length p) (Set_of (rawParts query)).

Definition buildSuggestions (J : jsobj Jurisdiction) (query : string) : list Suggestion :=
  if String.length query <? 2 then []
  else
    let terms := search_terms query in
    let a := fold_left (visit_term J) terms ([], []) in
    firstn 8 (fst a).

(** ** Report renderer *)

(** [DATA_SOURCES.becp.stateUrl] *)
Definition becp_stateUrl : option (string -> string) :=
  match obj_get DATA_SOURCES "becp" with
  | Some src => stateUrl src
  | None => None
  end.

(** [DATA_SOURCES.icc_chart.codes] *)
Definition icc_chart_codes : list string :=
  match obj_get DATA_SOURCES "icc_chart" with
  | Some src => codes src
  | None => []
  end.

(** The source link of [renderCodeCard(key, code, stateAbbr)]: the value of
    [sourceUrl] when the card is written. *)
Definition cardSourceUrl (key stateAbbr : string) : option string :=
  let sourceKey := read CODE_SOURCES key in
  let sourceDef := if truthy_val sourceKey then read_at DATA_SOURCES sourceKey else undefined in
  let sourceUrl :=
    match sourceDef with
    | val src => Some (url src)
    | proto _ => None (* [sourceDef.url] is undefined *)
    | undefined => None
    end in
  (* For IECC, prefer the per-state DOE BECP page when there is a state
     abbreviation. *)
  match becp_stateUrl with
  | Some f =>
      if String.eqb key "IECC" && truthy stateAbbr then Some (f stateAbbr)
      else sourceUrl
  | None => sourceUrl
  end.

(** What a code card shows: the code key, the adoption and the source link. *)
Record CodeCard : Type := {
  card_key : string;
  card_code : CodeAdoption;
  card_sourceUrl : option string
}.

Definition renderCodeCard (key : string) (code : CodeAdoption) (stateAbbr : string) : CodeCard :=
  {| card_key := key; card_code := code; card_sourceUrl := cardSourceUrl key stateAbbr |}.

(** One row of the sources panel. *)
Record SourceRow : Type := {
  row_source : string;
  row_label : string;
  row_url : string;
  row_codes : list string
}.

(** Body of [Object.keys(adoptedCodes).forEach] in [buildSourcesPanel]. *)
Definition addCodeSources (s : list (jsval string)) (codeKey : string) : list (jsval string) :=
  let sk := read CODE_SOURCES codeKey in
  let s' := if truthy_val sk then Values_add s sk else s in
  (* IECC also draws from the DOE BECP per-state portal *)
  if String.eqb codeKey "IECC" then Values_add s' (val "becp") else s'.

(** The [Set] [neededSources] of [buildSourcesPanel]. *)
Definition neededSources (isLocal : bool) (adoptedCodes : jsobj CodeAdoption)
  : list (jsval string) :=
  let s1 := fold_left addCodeSources (Object_keys adoptedCodes) [] in
  (* ICC chart covers most I-codes *)
  let hasIccCode := existsb (arr_includes icc_chart_codes) (Object_keys adoptedCodes) in
  let s2 := if hasIccCode then Values_add s1 (val "icc_chart") else s1 in
  (* For local views (city/county), Municode is a primary source *)
  if isLocal then Values_add s2 (val "municode") else s2.

(** The row written for the element [sk] of the set; [None] is the empty
    string written when [DATA_SOURCES[sk]] is falsy. *)
Definition sourceRow (st : Jurisdiction) (adoptedCodes : jsobj CodeAdoption)
    (sk : jsval string) : result (option SourceRow) :=
  match sk with
  | val k =>
      match read DATA_SOURCES k with
      | val src =>
          let u :=
            match stateUrl src with
            | Some f =>
                if String.eqb k "becp" && truthy (abbr st) then f (abbr st) else url src
            | None => url src
            end in
          let relevantCodes := filter (arr_includes (codes src)) (Object_keys adoptedCodes) in
          Ok (Some {| row_source := k; row_label := src_label src; row_url := u;
                      row_codes := relevantCodes |})
      | proto _ => TypeError (* [src.url] is undefined: [url.replace] raises *)
      | undefined => Ok None
      end
  | _ => Ok None (* the text of an object names no entry of [DATA_SOURCES] *)
  end.

(** The sources panel: the set of sources (its size is shown in the
    header) and the rows. *)
Record SourcesPanel : Type := {
  panel_sources : list (jsval string);
  panel_rows : list (option SourceRow)
}.

Definition buildSourcesPanel (st : Jurisdiction) (isLocal : bool)
    (adoptedCodes : jsobj CodeAdoption) : result SourcesPanel :=
  let needed := neededSources isLocal adoptedCodes in
  rows <- traverse (sourceRow st adoptedCodes) needed ;;
  Ok {| panel_sources := needed; panel_rows := rows |}.

(** The values [showReport] computes and writes into the right panel. *)
Record Report : Type := {
  breadcrumb : list string;
  displayName : string;
  jType : string;
  reportRegion : string;
  adoptedCodes : jsobj CodeAdoption;
  codeCount : nat;
  amendCount : nat;
  note : option string;
  fireDistricts : list FireDistrict;
  hasMajorAmendments : bool;
  amendBanner : option nat;
  codeCards : list CodeCard;
  stateCodeCards : list CodeCard;
  allAdoptedForSources : jsobj CodeAdoption;
  footer : SourcesPanel
}.

(** [local && localName] as a condition: both present and the name not
    empty. *)
Definition isLocal (local : option LocalRecord) (localName : option string)
  : option (LocalRecord * string) :=
  match local, localName with
  | Some l, Some n => if truthy n then Some (l, n) else None
  | _, _ => None
  end.

(** [c.amendments?.length || 0] *)
Definition amendments_length (c : CodeAdoption) : nat :=
  match amendments c with
  | Some a => List.length a
  | None => 0
  end.

(** [x || d] on an optional string. *)
Definition or_default (x : option string) (d : string) : string :=
  match x with
  | Some s => if truthy s then s else d
  | None => d
  end.

Definition cards_of (o : jsobj CodeAdoption) (stateAbbr : string) : list CodeCard :=
  map (fun kv => renderCodeCard (fst kv) (snd kv) stateAbbr) (Object_entries o).

Definition showReport (state : option Jurisdiction) (local : option LocalRecord)
    (localName : option string) : result Report :=
  match state with
  | None => TypeError (* [state.name] on undefined *)
  | Some st =>
      let loc := isLocal local localName in
      let adoptedCodes :=
        match loc with Some (l, _) => l_adopted l | None => adopted st end in
      let codeCount := List.length (Object_keys adoptedCodes) in
      let amendCount :=
        fold_left (fun sum c => sum + amendments_length c) (Object_values adoptedCodes) 0 in
      let fireDistricts :=
        match loc with
        | Some (l, _) => match l_fireDistricts l with Some f => f | None => [] end
        | None => []
        end in
      let hasMajorAmendments := 3 <? amendCount in
      let allAdoptedForSources :=
        match loc with
        | Some (l, _) => spread (adopted st) (l_adopted l)
        | None => adoptedCodes
        end in
      footer <- buildSourcesPanel st
                  (match loc with Some _ => true | None => false end)
                  allAdoptedForSources ;;
      Ok {| breadcrumb :=
              match loc with
              | Some (_, n) => ["US"; name st; n]
              | None => ["US"; name st]
              end;
            displayName := match loc with Some (_, n) => n | None => name st end;
            jType :=
              match loc with
              | Some (l, _) => toUpperCase (or_default (l_type l) "municipality")
              | None => "STATE"
              end;
            reportRegion := region st;
            adoptedCodes := adoptedCodes;
            codeCount := codeCount;
            amendCount := amendCount;
            note := match loc with Some (l, _) => l_note l | None => None end;
            fireDistricts := fireDistricts;
            hasMajorAmendments := hasMajorAmendments;
            amendBanner := if hasMajorAmendments then Some amendCount else None;
            codeCards := cards_of adoptedCodes (abbr st);
            stateCodeCards :=
              match loc with
              | Some _ =>
                  if 0 <? List.length (Object_keys (adopted st))
                  then cards_of (adopted st) (abbr st) else []
              | None => []
              end;
            allAdoptedForSources := allAdoptedForSources;
            footer := footer |}
  end.

(** A value used as a condition and then as a name: present and not
    empty. *)
Definition nonempty (x : option string) : option string :=
  match x with
  | Some n => if truthy n then Some n else None
  | None => None
  end.

(** [showReport(state, null, null)] for a value [state] read from the
    table.  An inherited member has no [adopted]: [Object.keys(undefined)]
    raises. *)
Definition showReport_state (state : jsval Jurisdiction) : result Report :=
  match state with
  | val st => showReport (Some st) None None
  | proto _ => TypeError
  | undefined => showReport None None None
  end.

(** [showReport(state, local, localName)] for a state record and a value
    [local] read from one of its maps.  An inherited member is truthy and
    has no [adopted]: under a name that is not empty the scope is local
    and [Object.keys(undefined)] raises. *)
Definition showReport_local (st : Jurisdiction) (local : jsval LocalRecord)
    (localName : string) : result Report :=
  match local with
  | val l => showReport (Some st) (Some l) (Some localName)
  | proto _ =>
      if truthy localName then TypeError
      else showReport (Some st) None (Some localName)
  | undefined => showReport (Some st) None (Some localName)
  end.

(** [selectSuggestion(s)]: [state] is [JURISDICTIONS[s.state]]; reading a
    name in [state.cities] or [state.counties] raises when [state] is
    undefined or an inherited member (which has neither map). *)
Definition selectSuggestion (J : jsobj Jurisdiction) (s : Suggestion) : result Report :=
  let state := read J (s_state s) in
  match nonempty (s_city s) with
  | Some city =>
      match state with
      | val st => showReport_local st (read (cities st) city) city
      | _ => TypeError
      end
  | None =>
      match nonempty (s_county s) with
      | Some county =>
          match state with
          | val st => showReport_local st (read (counties st) county) county
          | _ => TypeError
          end
      | None => showReport_state state
      end
  end.

(** ** Specification-level notions *)

(** Sum of the amendment-list lengths over the records of a mapping. *)
Definition total_amendments (o : jsobj CodeAdoption) : nat :=
  list_sum (map amendments_length (Object_values o)).

(** A record to name a state or a place of the table in an example. *)
Definition no_state : Jurisdiction :=
  {| name := ""; abbr := ""; region := ""; stateNote := "";
     adopted := []; cities := []; counties := [] |}.
Definition no_local : LocalRecord :=
  {| l_type := None; l_note := None; l_adopted := []; l_fireDistricts := None |}.

Definition state_of (J : jsobj Jurisdiction) (code : string) : Jurisdiction :=
  match obj_get J code with Some st => st | None => no_state end.
Definition city_of (st : Jurisdiction) (city : string) : LocalRecord :=
  match obj_get (cities st) city with Some l => l | None => no_local end.
Definition county_of (st : Jurisdiction) (county : string) : LocalRecord :=
  match obj_get (counties st) county with Some l => l | None => no_local end.

(** *** Sources *)

(** The per-state page of the DOE BECP portal. *)
Definition becp_state_page (stateAbbr : string) : string :=
  ("https://www.energycodes.gov/status/states/" ++ toLowerCase stateAbbr)%string.

(** *** Keys *)

(** A key that is a name: no array index, and not the name of a member
    inherited from [Object.prototype].  Stored under such keys, the
    properties are enumerated in the order of the literal and a bracket
    read finds own properties only. *)
Definition plain_key (k : string) : bool :=
  match array_index k with
  | Some _ => false
  | None => negb (existsb (String.eqb k) Object_prototype)
  end.

Definition plain_keys {V} (o : jsobj V) : bool := forallb plain_key (Object_keys o).

(** All the maps of a store have such keys. *)
Definition plain_store (J : jsobj Jurisdiction) : bool :=
  plain_keys J &&
  forallb (fun st =>
             plain_keys (adopted st) && plain_keys (cities st) && plain_keys (counties st) &&
             forallb (fun l => plain_keys (l_adopted l))
                     (Object_values (cities st) ++ Object_values (counties st)))
          (Object_values J).

(** *** Browse order *)

(** A consistent comparison function: swapping the arguments flips the
    sign, and "not after" is transitive. *)
Definition consistent {A : Type} (cmp : A -> A -> comparison) : Prop :=
  (forall a b, cmp a b = CompOpp (cmp b a)) /\
  (forall a b c, cmp a b <> Gt -> cmp b c <> Gt -> cmp a c <> Gt).

(** [a] does not sort after [b] by display name. *)
Definition name_not_after (localeCompare : string -> string -> comparison)
    (a b : Jurisdiction) : Prop :=
  localeCompare (name a) (name b) <> Gt.

(** The states whose display name ties with [n]. *)
Definition ties_with (localeCompare : string -> string -> comparison) (n : string)
    (st : Jurisdiction) : bool :=
  match localeCompare n (name st) with
  | Eq => true
  | _ => false
  end.

(** Two states with one display name, in the two insertion orders. *)
Definition twin (code : string) : Jurisdiction :=
  {| name := "Springfield"; abbr := code; region := "Nowhere"; stateNote := "";
     adopted := []; cities := []; counties := [] |}.
Definition twins_ZA : jsobj Jurisdiction := [("ZZ", twin "ZZ"); ("AA", twin "AA")].
Definition twins_AZ : jsobj Jurisdiction := [("AA", twin "AA"); ("ZZ", twin "ZZ")].

(** *** Search: discovery order and identity of a suggestion *)

(** A match found by the loops: the key tested against [seen] and the
    suggestion pushed when the key is new. *)
Definition Candidate : Type := (string * Suggestion)%type.

(** The matches of one state for the lower-cased term [t]: its own name
    or code first, then its cities, then its counties. *)
Definition state_candidates (t : string) (st : Jurisdiction) : list Candidate :=
  (if state_matches t st then [(state_key st, state_suggestion st)] else []) ++
  map (fun city => (city_key st city, city_suggestion st city))
      (filter (local_matches t) (Object_keys (cities st))) ++
  map (fun county => (county_key st county, county_suggestion st county))
      (filter (local_matches t) (Object_keys (counties st))).

(** Discovery order: term by term, and for each term state by state in
    the insertion order of the store. *)
Definition discovery (J : jsobj Jurisdiction) (terms : list string) : list Candidate :=
  flat_map (fun term => flat_map (state_candidates (toLowerCase term)) (Object_values J))
           terms.

(** Keep a candidate only when its key has not been met before. *)
Fixpoint first_occurrences (seen : list string) (cands : list Candidate) : list Suggestion :=
  match cands with
  | [] => []
  | (key, s) :: cands' =>
      if Set_has seen key then first_occurrences seen cands'
      else s :: first_occurrences (Set_add seen key) cands'
  end.

Definition local_name (s : Suggestion) : option string :=
  match s_type s with
  | STATE => None
  | CITY => s_city s
  | COUNTY => s_county s
  end.

(** Identity of a suggestion: match kind, state code, local name if any. *)
Definition identity (s : Suggestion) : MatchType * string * option string :=
  (s_type s, s_state s, local_name s).

Definition is_state (s : Suggestion) : bool :=
  match s_type s with STATE => true | _ => false end.

(** Every state-name match stands before every city or county match. *)
Fixpoint states_first (l : list Suggestion) : bool :=
  match l with
  | [] => true
  | s :: l' =>
      if is_state s then states_first l'
      else forallb (fun s' => negb (is_state s')) l'
  end.

(** The loops, as one pass over a list of candidates. *)
Definition collect (a : SearchAcc) (cands : list Candidate) : SearchAcc :=
  fold_left (fun a ks => push_unseen (fst ks) (snd ks) a) cands a.

(** The key under which an identity is recorded in [seen]. *)
Definition key_of_identity (i : MatchType * string * option string) : string :=
  let local := match snd i with Some n => n | None => "" end in
  match fst (fst i) with
  | STATE => "state:" ++ snd (fst i)
  | CITY => "city:" ++ snd (fst i) ++ ":" ++ local
  | COUNTY => "county:" ++ snd (fst i) ++ ":" ++ local
  end%string.

Definition well_keyed (c : Candidate) : Prop :=
  fst c = key_of_identity (identity (snd c)).

(** *** Search: tokens, in the words of the specification *)

(** De-duplication by string equality, first occurrence kept. *)
Fixpoint dedup (l : list string) : list string :=
  match l with
  | [] => []
  | x :: l' => x :: filter (fun y => negb (String.eqb y x)) (dedup l')
  end.

(** Strip a trailing 5-digit (optionally +4) postal code, whatever stands
    before it. *)
Fixpoint strip_postal (s : string) : string :=
  if zip_here s then EmptyString
  else match s with
       | EmptyString => EmptyString
       | String c s' => String c (strip_postal s')
       end.

(** Strip a trailing 5-digit (optionally +4) postal code that stands
    after a whitespace character; the whitespace is left for the trim that
    follows. *)
Fixpoint strip_postal_after_space (s : string) : string :=
  match s with
  | EmptyString => EmptyString
  | String c s' =>
      if isWhiteSpace c && zip_here s' then String c EmptyString
      else String c (strip_postal_after_space s')
  end.

(** Split on commas; trim each piece, strip, trim again; de-duplicate;
    discard the tokens shorter than 2 characters. *)
Definition tokens_by (strip : string -> string) (query : string) : list string :=
  filter (fun t => negb (String.length t <? 2))
         (dedup (map (fun p => trim (strip (trim p))) (split "," query))).

Definition tokens_strict : string -> list string := tokens_by strip_postal.
Definition tokens : string -> list string := tokens_by strip_postal_after_space.

Fixpoint has_digit (s : string) : bool :=
  match s with
  | EmptyString => false
  | String c s' => isDigit c || has_digit s'
  end.

(** The names a suggestion label can be taken from. *)
Definition names_of (st : Jurisdiction) : list string :=
  name st :: Object_keys (cities st) ++ Object_keys (counties st).

Definition digit_free (J : jsobj Jurisdiction) : bool :=
  forallb (fun st => forallb (fun n => negb (has_digit n)) (names_of st))
          (Object_values J).

(** A store with a place whose name ends like a postal code. *)
Definition zip_named_store : jsobj Jurisdiction := [
  ("ZZ",
   {| name := "Zedland"; abbr := "ZZ"; region := "Nowhere"; stateNote := "";
      adopted := [];
      cities := [("Area 85001", no_local)];
      counties := [] |})
].

(** Number of characters of [s] that are not whitespace. *)
Fixpoint nonspace (s : string) : nat :=
  match s with
  | EmptyString => 0
  | String c s' => (if isWhiteSpace c then 0 else 1) + nonspace s'
  end.

(** ** The rest of the page: badges, the state tree, the search box *)

(** [s.startsWith(t)] *)
Definition startsWith (s t : string) : bool := String.prefix t s.

(** The three badges of [codeStatusBadge]. *)
Inductive StatusBadge : Type := PROPRIETARY | ADOPTED | PENDING.

Definition codeStatusBadge (code : CodeAdoption) : StatusBadge :=
  match status code with
  | Some s =>
      if String.eqb s "own-code" then PROPRIETARY
      else if String.eqb s "adopted" then ADOPTED
      else PENDING
  | None => PENDING
  end.

(** The three icons of [amendmentIcon], by their CSS class. *)
Inductive AmendIcon : Type := amend_mod | amend_add | amend_del.

Definition amendmentIcon (amend : string) : AmendIcon :=
  if startsWith (toLowerCase amend) "based on" || startsWith (toLowerCase amend) "chapter"
  then amend_mod
  else if includes (toLowerCase amend) "required" || includes (toLowerCase amend) "mandatory"
  then amend_add
  else if includes (toLowerCase amend) "prohibited" || includes (toLowerCase amend) "removed"
  then amend_del
  else amend_mod.

(** The number a code card prints after "Local Amendments":
    [code.amendments ? code.amendments.length : 0]. *)
Definition cardAmendments (code : CodeAdoption) : nat :=
  match amendments code with
  | Some a => List.length a
  | None => 0
  end.

(** A sub-item of the state tree, by its data attributes and its text. *)
Record SubItem : Type := {
  sub_state : string;
  sub_city : option string;
  sub_county : option string;
  sub_text : string
}.

(** An item of the state tree: the state row and the sub-items under it. *)
Record TreeItem : Type := {
  row_state : string;
  row_chevron : bool;
  row_name : string;
  row_badge : option string;
  row_subItems : list SubItem
}.

(** Body of [statesSorted.forEach] in [buildTree]. *)
Definition treeItem (st : Jurisdiction) : TreeItem :=
  let cityNames := Object_keys (cities st) in
  let countyNames := Object_keys (counties st) in
  let hasChildren := (0 <? List.length cityNames) || (0 <? List.length countyNames) in
  let primaryCode := nonempty (hd_error (Object_keys (adopted st))) in
  {| row_state := abbr st;
     row_chevron := hasChildren;
     row_name := name st;
     row_badge := primaryCode;
     row_subItems :=
       if hasChildren
       then map (fun city => {| sub_state := abbr st; sub_city := Some city;
                                sub_county := None; sub_text := city |}) cityNames
            ++ map (fun county => {| sub_state := abbr st; sub_city := None;
                                     sub_county := Some county; sub_text := county |})
                   countyNames
       else [] |}.

(** [buildTree()]: one item per element of [statesSorted]. *)
Definition buildTree (localeCompare : string -> string -> comparison)
    (J : jsobj Jurisdiction) : list TreeItem :=
  map treeItem (statesSorted localeCompare J).

(** Click on a state row: [showReport(JURISDICTIONS[abbr], null, null)]. *)
Definition clickStateRow (J : jsobj Jurisdiction) (item : TreeItem) : result Report :=
  showReport_state (read J (row_state item)).

(** Click on a sub-item; [None] when the handler shows nothing.  The data
    attributes are taken as they were written into the markup. *)
Definition clickSubItem (J : jsobj Jurisdiction) (i : SubItem) : option (result Report) :=
  let state := read J (sub_state i) in
  match nonempty (sub_city i) with
  | Some city =>
      Some match state with
           | val st => showReport_local st (read (cities st) city) city
           | _ => TypeError
           end
  | None =>
      match nonempty (sub_county i) with
      | Some county =>
          Some match state with
               | val st => showReport_local st (read (counties st) county) county
               | _ => TypeError
               end
      | None => None
      end
  end.

(** The search button and the Enter key:
    [if (sugg.length > 0) selectSuggestion(sugg[0])]. *)
Definition searchSubmit (J : jsobj Jurisdiction) (value : string) : option (result Report) :=
  match buildSuggestions J value with
  | [] => None
  | s :: _ => Some (selectSuggestion J s)
  end.

(** *** Notions used to state further properties *)

(** Every state of the store is filed under its own abbreviation. *)
Definition filed_by_abbr (J : jsobj Jurisdiction) : Prop :=
  Forall (fun kv => abbr (snd kv) = fst kv) J.

Fixpoint has_char (c : ascii) (s : string) : bool :=
  match s with
  | EmptyString => false
  | String c' s' => Ascii.eqb c' c || has_char c s'
  end.

(** No state abbreviation of the store holds a colon. *)
Definition colon_free (J : jsobj Jurisdiction) : bool :=
  forallb (fun st => negb (has_char ":" (abbr st))) (Object_values J).

(** The candidates of a state, whatever the term. *)
Inductive candidate_of (st : Jurisdiction) : Candidate -> Prop :=
| cand_state : candidate_of st (state_key st, state_suggestion st)
| cand_city city : candidate_of st (city_key st city, city_suggestion st city)
| cand_county county : candidate_of st (county_key st county, county_suggestion st county).

(** [t] is a run of consecutive characters of [s]. *)
Definition part_of (t s : string) : Prop :=
  exists a b, s = (a ++ t ++ b)%string.

(** One turn of the loop over the terms, for the lower-cased term [t] and
    the candidates [found t] it finds. *)
Definition visit_lowered (found : string -> list Candidate) (a : SearchAcc) (t : string)
  : SearchAcc :=
  collect a (found t).

(** ** Basic facts about objects, sets and sums *)

(** Closed statements about concrete tables are settled by evaluation. *)
Ltac by_evaluation := repeat split; vm_compute; reflexivity.

Lemma Object_keys_length {V} (o : jsobj V) :
  List.length (Object_keys o) = List.length o.
Proof. unfold Object_keys. apply length_map. Qed.

Lemma Object_values_length {V} (o : jsobj V) :
  List.length (Object_values o) = List.length o.
Proof. unfold Object_values. apply length_map. Qed.

Lemma fold_left_sum {A} (f : A -> nat) (l : list A) (n : nat) :
  fold_left (fun sum c => sum + f c) l n = n + list_sum (map f l).
Proof.
  revert n. induction l as [|x l IH]; intro n; simpl.
  - lia.
  - rewrite IH. lia.
Qed.

Lemma truthy_true (s : string) : truthy s = true <-> s <> "".
Proof.
  unfold truthy. rewrite negb_true_iff. apply String.eqb_neq.
Qed.

Lemma obj_get_app {V} (o1 o2 : jsobj V) k :
  obj_get (o1 ++ o2) k =
  match obj_get o1 k with Some v => Some v | None => obj_get o2 k end.
Proof.
  induction o1 as [|[k' v'] o1 IH]; simpl; auto.
  destruct (String.eqb k' k); auto.
Qed.

Lemma obj_get_update {V} (o : jsobj V) k v k' :
  obj_get (obj_update k v o) k'
  = if String.eqb k k' then option_map (fun _ => v) (obj_get o k) else obj_get o k'.
Proof.
  induction o as [|[k0 v0] o IH]; simpl.
  - now destruct (String.eqb k k').
  - destruct (String.eqb k0 k) eqn:E; simpl.
    + apply String.eqb_eq in E. subst k0. now destruct (String.eqb k k').
    + rewrite IH. destruct (String.eqb k k') eqn:E'; [|reflexivity].
      apply String.eqb_eq in E'. subst k'. now rewrite E.
Qed.

Lemma obj_get_insert_index_ne {V} (o : jsobj V) n k v k' :
  String.eqb k k' = false -> obj_get (obj_insert_index n k v o) k' = obj_get o k'.
Proof.
  intro E. induction o as [|[k0 v0] o IH]; simpl.
  - now rewrite E.
  - destruct (array_index k0) as [m|]; [destruct (m <? n)%N|]; simpl;
      try rewrite E; try rewrite IH; reflexivity.
Qed.

Lemma obj_get_insert_index_new {V} (o : jsobj V) n k v :
  obj_get o k = None -> obj_get (obj_insert_index n k v o) k = Some v.
Proof.
  induction o as [|[k0 v0] o IH]; simpl; intro H.
  - now rewrite String.eqb_refl.
  - destruct (String.eqb k0 k) eqn:E; [discriminate|].
    destruct (array_index k0) as [m|]; [destruct (m <? n)%N|]; simpl;
      try rewrite E; try rewrite String.eqb_refl; auto.
Qed.

Lemma obj_get_set_eq {V} (o : jsobj V) k v :
  obj_get (obj_set k v o) k = Some v.
Proof.
  unfold obj_set. destruct (obj_get o k) as [w|] eqn:E.
  - now rewrite obj_get_update, String.eqb_refl, E.
  - destruct (array_index k) as [n|].
    + now apply obj_get_insert_index_new.
    + rewrite obj_get_app, E. simpl. now rewrite String.eqb_refl.
Qed.

Lemma obj_get_set_ne {V} (o : jsobj V) k k' v :
  k <> k' -> obj_get (obj_set k v o) k' = obj_get o k'.
Proof.
  intro Hne. apply String.eqb_neq in Hne. unfold obj_set.
  destruct (obj_get o k) as [w|] eqn:E.
  - now rewrite obj_get_update, Hne.
  - destruct (array_index k) as [n|].
    + now apply obj_get_insert_index_ne.
    + rewrite obj_get_app. simpl. rewrite Hne. now destruct (obj_get o k').
Qed.

(** Setting a key that is absent and is no array index appends the
    property. *)
Lemma obj_set_absent {V} (o : jsobj V) k v :
  obj_get o k = None -> array_index k = None -> obj_set k v o = o ++ [(k, v)].
Proof. unfold obj_set. now intros -> ->. Qed.

Lemma obj_update_length {V} (o : jsobj V) k v :
  List.length (obj_update k v o) = List.length o.
Proof.
  induction o as [|[k0 v0] o IH]; simpl; [reflexivity|].
  destruct (String.eqb k0 k); simpl; auto.
Qed.

Lemma obj_insert_index_length {V} (o : jsobj V) n k v :
  List.length (obj_insert_index n k v o) = S (List.length o).
Proof.
  induction o as [|[k0 v0] o IH]; simpl; [reflexivity|].
  destruct (array_index k0) as [m|]; [destruct (m <? n)%N|]; simpl; auto.
Qed.

(** Setting a property adds at most one. *)
Lemma obj_set_length {V} (o : jsobj V) k v :
  List.length (obj_set k v o)
  = match obj_get o k with Some _ => List.length o | None => S (List.length o) end.
Proof.
  unfold obj_set. destruct (obj_get o k).
  - apply obj_update_length.
  - destruct (array_index k).
    + apply obj_insert_index_length.
    + rewrite length_app. simpl. lia.
Qed.

(** *** The bracket read *)

Lemma read_own {V} (o : jsobj V) k v : obj_get o k = Some v -> read o k = val v.
Proof. unfold read. now intros ->. Qed.

Lemma read_val {V} (o : jsobj V) k v : read o k = val v <-> obj_get o k = Some v.
Proof.
  unfold read. destruct (obj_get o k).
  - split; intro H; injection H as ->; reflexivity.
  - destruct (existsb _ _); split; discriminate.
Qed.

Lemma inherited_name (k : string) :
  existsb (String.eqb k) Object_prototype = true <-> In k Object_prototype.
Proof.
  rewrite existsb_exists. split.
  - intros (y & Hy & E). apply String.eqb_eq in E. now subst.
  - intro H. exists k. split; [exact H | apply String.eqb_refl].
Qed.

(** A read finds an inherited member exactly under a name of
    [Object.prototype] that is not the name of an own property. *)
Lemma read_proto {V} (o : jsobj V) k m :
  read o k = proto m <-> m = k /\ obj_get o k = None /\ In k Object_prototype.
Proof.
  unfold read. destruct (obj_get o k).
  - split; [discriminate | intros (_ & H & _); discriminate].
  - destruct (existsb _ _) eqn:E.
    + apply inherited_name in E. split.
      * intro H. injection H as <-. auto.
      * intros (-> & _). reflexivity.
    + split; [discriminate|]. intros (_ & _ & H). apply inherited_name in H. congruence.
Qed.

Lemma read_undefined {V} (o : jsobj V) k :
  read o k = undefined <-> obj_get o k = None /\ ~ In k Object_prototype.
Proof.
  unfold read. destruct (obj_get o k).
  - split; [discriminate | intros [H _]; discriminate].
  - destruct (existsb _ _) eqn:E.
    + apply inherited_name in E. split; [discriminate | tauto].
    + split; [|reflexivity]. intros _. split; [reflexivity|].
      intro H. apply inherited_name in H. congruence.
Qed.

Lemma obj_get_In_keys {V} (o : jsobj V) k :
  In k (Object_keys o) <-> obj_get o k <> None.
Proof.
  induction o as [|[k' v'] o IH]; simpl.
  - split; [tauto | congruence].
  - destruct (String.eqb k' k) eqn:E.
    + apply String.eqb_eq in E. split; [congruence | auto].
    + apply String.eqb_neq in E. rewrite <- IH. tauto.
Qed.

Lemma Set_has_In (s : list string) (x : string) :
  Set_has s x = true <-> In x s.
Proof.
  unfold Set_has. rewrite existsb_exists. split.
  - intros [y [Hy E]]. apply String.eqb_eq in E. now subst.
  - intro H. exists x. split; auto. apply String.eqb_refl.
Qed.

Lemma Set_has_app (s1 s2 : list string) (x : string) :
  Set_has (s1 ++ s2) x = Set_has s1 x || Set_has s2 x.
Proof. unfold Set_has. apply existsb_app. Qed.

Lemma Set_add_In (s : list string) (x y : string) :
  In y (Set_add s x) <-> In y s \/ y = x.
Proof.
  unfold Set_add. destruct (Set_has s x) eqn:E.
  - apply Set_has_In in E. split; [auto | intros [H | ->]; auto].
  - rewrite in_app_iff. simpl. intuition.
Qed.

Lemma Set_add_fresh (s : list string) (x : string) :
  Set_has s x = false -> Set_add s x = s ++ [x].
Proof. unfold Set_add. now intros ->. Qed.

(** ** The set of sources and the rows of the panel *)

Lemma same_value_eq (x y : jsval string) : same_value x y = true <-> x = y.
Proof.
  destruct x as [a|a|], y as [b|b|]; simpl;
    try (split; [discriminate | intro H; discriminate H]);
    try (rewrite String.eqb_eq; split; [now intros -> | intro H; now injection H]).
  tauto.
Qed.

Lemma Values_has_In (s : list (jsval string)) (x : jsval string) :
  Values_has s x = true <-> In x s.
Proof.
  unfold Values_has. rewrite existsb_exists. split.
  - intros [y [Hy E]]. apply same_value_eq in E. now subst.
  - intro H. exists x. split; [exact H|]. now apply same_value_eq.
Qed.

Lemma Values_add_In (s : list (jsval string)) (x y : jsval string) :
  In y (Values_add s x) <-> In y s \/ y = x.
Proof.
  unfold Values_add. destruct (Values_has s x) eqn:E.
  - apply Values_has_In in E. split; [auto | intros [H | ->]; auto].
  - rewrite in_app_iff. simpl. intuition.
Qed.

Lemma NoDup_Values_add (s : list (jsval string)) (x : jsval string) :
  NoDup s -> NoDup (Values_add s x).
Proof.
  intro H. unfold Values_add. destruct (Values_has s x) eqn:E; [exact H|].
  apply NoDup_app; [exact H | repeat constructor; intros [] |].
  intros y Hy [<- | []]. apply Values_has_In in Hy. congruence.
Qed.

Lemma addCodeSources_In (s : list (jsval string)) (k : string) (x : jsval string) :
  In x (addCodeSources s k) <->
  In x s \/ (x = read CODE_SOURCES k /\ truthy_val x = true) \/
  (k = "IECC" /\ x = val "becp").
Proof.
  unfold addCodeSources. cbv zeta.
  assert (H : In x (if truthy_val (read CODE_SOURCES k)
                    then Values_add s (read CODE_SOURCES k) else s)
              <-> In x s \/ (x = read CODE_SOURCES k /\ truthy_val x = true)).
  { destruct (truthy_val (read CODE_SOURCES k)) eqn:E.
    - rewrite Values_add_In. split; [intros [H | ->]; auto | intros [H | [H _]]; auto].
    - split; [auto|]. intros [H | [-> H]]; [exact H | congruence]. }
  destruct (String.eqb k "IECC") eqn:E.
  - apply String.eqb_eq in E. rewrite Values_add_In, H. tauto.
  - apply String.eqb_neq in E. rewrite H. tauto.
Qed.

Lemma fold_addCodeSources_In (ks : list string) (s : list (jsval string)) (x : jsval string) :
  In x (fold_left addCodeSources ks s) <->
  In x s \/
  exists k, In k ks /\
            ((x = read CODE_SOURCES k /\ truthy_val x = true) \/
             (k = "IECC" /\ x = val "becp")).
Proof.
  revert s. induction ks as [|k ks IH]; intro s; simpl.
  - split; [auto|]. intros [H | (k & [] & _)]. exact H.
  - rewrite IH, addCodeSources_In. split.
    + intros [[H | H] | (k' & Hk' & H)]; [auto | | ].
      * right. exists k. auto.
      * right. exists k'. auto.
    + intros [H | (k' & [<- | Hk'] & H)]; [auto | auto |].
      right. exists k'. auto.
Qed.

(** The elements of the set of sources. *)
Lemma neededSources_elem (b : bool) (o : jsobj CodeAdoption) (x : jsval string) :
  In x (neededSources b o) <->
  (exists k, In k (Object_keys o) /\ x = read CODE_SOURCES k /\ truthy_val x = true) \/
  (x = val "becp" /\ In "IECC" (Object_keys o)) \/
  (x = val "icc_chart" /\ exists k, In k (Object_keys o) /\ In k icc_chart_codes) \/
  (x = val "municode" /\ b = true).
Proof.
  unfold neededSources. cbv zeta.
  set (s1 := fold_left addCodeSources (Object_keys o) []).
  assert (H1 : In x s1 <->
               (exists k, In k (Object_keys o) /\ x = read CODE_SOURCES k /\
                          truthy_val x = true)
               \/ (x = val "becp" /\ In "IECC" (Object_keys o))).
  { unfold s1. rewrite fold_addCodeSources_In. split.
    - intros [[] | (k & Hk & [H | [-> ->]])]; [left; exists k; auto | right; auto].
    - intros [(k & Hk & H) | [-> H]]; right; [exists k; auto | exists "IECC"; auto]. }
  assert (Hicc : existsb (arr_includes icc_chart_codes) (Object_keys o) = true <->
                 exists k, In k (Object_keys o) /\ In k icc_chart_codes).
  { rewrite existsb_exists. split; intros (k & Hk & H); exists k; split; auto.
    - unfold arr_includes in H. apply existsb_exists in H. destruct H as (y & Hy & E).
      apply String.eqb_eq in E. now subst.
    - unfold arr_includes. apply existsb_exists. exists k. split; [exact H|].
      apply String.eqb_refl. }
  assert (H2 : In x (if existsb (arr_includes icc_chart_codes) (Object_keys o)
                     then Values_add s1 (val "icc_chart") else s1) <->
               In x s1 \/
               (x = val "icc_chart" /\
                exists k, In k (Object_keys o) /\ In k icc_chart_codes)).
  { destruct (existsb _ _).
    - rewrite Values_add_In. pose proof (proj1 Hicc eq_refl). tauto.
    - split; [auto|]. intros [H | [_ H]]; [exact H|]. apply Hicc in H. discriminate. }
  destruct b.
  - rewrite Values_add_In, H2, H1. tauto.
  - rewrite H2, H1. split; [tauto|]. intros [H | [H | [H | [_ H]]]]; auto. discriminate.
Qed.

(** The strings of the set of sources. *)
Lemma neededSources_In (b : bool) (o : jsobj CodeAdoption) (sk : string) :
  In (val sk) (neededSources b o) <->
  (exists k, In k (Object_keys o) /\ obj_get CODE_SOURCES k = Some sk /\ sk <> "") \/
  (sk = "becp" /\ In "IECC" (Object_keys o)) \/
  (sk = "icc_chart" /\ exists k, In k (Object_keys o) /\ In k icc_chart_codes) \/
  (sk = "municode" /\ b = true).
Proof.
  rewrite neededSources_elem. split.
  - intros [(k & Hk & Hr & Ht) | [[H Hi] | [[H Hi] | [H Hb]]]].
    + left. exists k. split; [exact Hk|]. symmetry in Hr. apply read_val in Hr.
      split; [exact Hr|]. now apply truthy_true.
    + injection H as ->. auto.
    + injection H as ->. auto.
    + injection H as ->. auto.
  - intros [(k & Hk & Hr & Ht) | [[-> Hi] | [[-> Hi] | [-> Hb]]]]; auto.
    left. exists k. split; [exact Hk|]. apply read_own in Hr.
    split; [now symmetry|]. now apply truthy_true.
Qed.

(** No code book of [CODE_SOURCES] is filed under the name of an inherited
    member. *)
Lemma CODE_SOURCES_own (k : string) :
  In k Object_prototype -> obj_get CODE_SOURCES k = None.
Proof.
  assert (Hall : forallb (fun k => match obj_get CODE_SOURCES k with
                                   | None => true
                                   | Some _ => false
                                   end) Object_prototype = true)
    by (vm_compute; reflexivity).
  rewrite forallb_forall in Hall. intro H. specialize (Hall _ H).
  now destruct (obj_get CODE_SOURCES k).
Qed.

(** The objects of the set of sources: the inherited members found under
    the code keys shown. *)
Lemma neededSources_proto (b : bool) (o : jsobj CodeAdoption) (m : string) :
  In (proto m) (neededSources b o) <-> In m (Object_keys o) /\ In m Object_prototype.
Proof.
  rewrite neededSources_elem. split.
  - intros [(k & Hk & Hr & _) | [[H _] | [[H _] | [H _]]]]; try discriminate.
    symmetry in Hr. apply read_proto in Hr. destruct Hr as (-> & _ & Hp). auto.
  - intros [Hk Hp]. left. exists m. split; [exact Hk|]. split; [|reflexivity].
    symmetry. apply read_proto. auto using CODE_SOURCES_own.
Qed.

Lemma neededSources_defined (b : bool) (o : jsobj CodeAdoption) :
  ~ In undefined (neededSources b o).
Proof.
  rewrite neededSources_elem.
  intros [(k & _ & _ & H) | [[H _] | [[H _] | [H _]]]]; discriminate.
Qed.

Lemma NoDup_addCodeSources (s : list (jsval string)) (k : string) :
  NoDup s -> NoDup (addCodeSources s k).
Proof.
  intro H. unfold addCodeSources. cbv zeta.
  assert (H' : NoDup (if truthy_val (read CODE_SOURCES k)
                      then Values_add s (read CODE_SOURCES k) else s)).
  { destruct (truthy_val _); [now apply NoDup_Values_add | exact H]. }
  destruct (String.eqb k "IECC"); [now apply NoDup_Values_add | exact H'].
Qed.

Lemma neededSources_NoDup (b : bool) (o : jsobj CodeAdoption) : NoDup (neededSources b o).
Proof.
  unfold neededSources. cbv zeta.
  assert (H1 : NoDup (fold_left addCodeSources (Object_keys o) [])).
  { generalize (NoDup_nil (jsval string)). generalize (@nil (jsval string)).
    induction (Object_keys o) as [|k ks IH]; intros s Hs; simpl; [exact Hs|].
    apply IH. now apply NoDup_addCodeSources. }
  assert (H2 : NoDup (if existsb (arr_includes icc_chart_codes) (Object_keys o)
                      then Values_add (fold_left addCodeSources (Object_keys o) [])
                                      (val "icc_chart")
                      else fold_left addCodeSources (Object_keys o) [])).
  { destruct (existsb _ _); [now apply NoDup_Values_add | exact H1]. }
  destruct b; [now apply NoDup_Values_add | exact H2].
Qed.


Lemma neededSources_becp (isLocal : bool) (o : jsobj CodeAdoption) :
  In "IECC" (Object_keys o) -> In (val "becp") (neededSources isLocal o).
Proof. intro H. apply neededSources_In. auto. Qed.

Lemma obj_get_In_values {V} (o : jsobj V) k v :
  obj_get o k = Some v -> In v (Object_values o).
Proof.
  unfold Object_values. induction o as [|[k0 v0] o IH]; simpl; [discriminate|].
  destruct (String.eqb k0 k); [intro H; injection H as ->; now left | auto].
Qed.

(** Every source a code book points to is in the catalogue, and has no
    per-state URL. *)
Lemma CODE_SOURCES_known (k sk : string) :
  obj_get CODE_SOURCES k = Some sk ->
  exists src, obj_get DATA_SOURCES sk = Some src /\ stateUrl src = None.
Proof.
  intro H. apply obj_get_In_values in H.
  assert (Hall : forallb (fun sk => match obj_get DATA_SOURCES sk with
                                    | Some src => match stateUrl src with
                                                  | None => true
                                                  | Some _ => false
                                                  end
                                    | None => false
                                    end) (Object_values CODE_SOURCES) = true)
    by (vm_compute; reflexivity).
  rewrite forallb_forall in Hall. specialize (Hall _ H).
  destruct (obj_get DATA_SOURCES sk) as [src|]; [|discriminate].
  exists src. split; [reflexivity|]. destruct (stateUrl src); [discriminate | reflexivity].
Qed.

(** The row of a source of the catalogue. *)
Lemma sourceRow_known (st : Jurisdiction) (o : jsobj CodeAdoption) sk src :
  obj_get DATA_SOURCES sk = Some src ->
  exists row, sourceRow st o (val sk) = Ok (Some row) /\ row_source row = sk /\
              row_url row = match stateUrl src with
                            | Some f => if String.eqb sk "becp" && truthy (abbr st)
                                        then f (abbr st) else url src
                            | None => url src
                            end.
Proof.
  intro H. unfold sourceRow. rewrite (read_own _ _ _ H).
  eexists. split; [reflexivity|]. split; reflexivity.
Qed.

Lemma sourceRow_source (st : Jurisdiction) (o : jsobj CodeAdoption) x row :
  sourceRow st o x = Ok (Some row) -> x = val (row_source row).
Proof.
  unfold sourceRow. destruct x as [sk|m|]; try discriminate.
  destruct (read DATA_SOURCES sk); try discriminate.
  intro H. injection H as <-. reflexivity.
Qed.

(** Every string of the set of sources has its row; an object in the set
    has none. *)
Lemma sourceRow_listed (st : Jurisdiction) (b : bool) (o : jsobj CodeAdoption) x :
  In x (neededSources b o) ->
  match x with
  | val sk => exists row, sourceRow st o x = Ok (Some row) /\ row_source row = sk
  | _ => sourceRow st o x = Ok None
  end.
Proof.
  intro H. destruct x as [sk|m|]; [|reflexivity|reflexivity].
  apply neededSources_In in H.
  assert (Hknown : forall src, obj_get DATA_SOURCES sk = Some src ->
                     exists row, sourceRow st o (val sk) = Ok (Some row) /\
                                 row_source row = sk).
  { intros src Hsrc. destruct (sourceRow_known st o sk src Hsrc) as (row & Hr & Hs & _).
    eauto. }
  destruct H as [(k & _ & Hk & _) | [[-> _] | [[-> _] | [-> _]]]].
  - destruct (CODE_SOURCES_known _ _ Hk) as (src & Hsrc & _). eauto.
  - eapply Hknown. vm_compute. reflexivity.
  - eapply Hknown. vm_compute. reflexivity.
  - eapply Hknown. vm_compute. reflexivity.
Qed.

Lemma traverse_Forall2 {A B} (f : A -> result B) (l : list A) (ys : list B) :
  traverse f l = Ok ys <-> Forall2 (fun x y => f x = Ok y) l ys.
Proof.
  revert ys. induction l as [|x l IH]; intro ys; simpl.
  - split.
    + intro H. injection H as <-. constructor.
    + intro H. inversion H. reflexivity.
  - split.
    + destruct (f x) as [y|] eqn:E; [|discriminate]. simpl.
      destruct (traverse f l) as [ys'|]; [|discriminate]. simpl.
      intro H. injection H as <-. constructor; [exact E | now apply IH].
    + intro H. inversion H as [|? y ? ys' Hy Hys]; subst. rewrite Hy. simpl.
      apply IH in Hys. rewrite Hys. reflexivity.
Qed.

Lemma traverse_total {A B} (f : A -> result B) (l : list A) :
  (forall x, In x l -> exists y, f x = Ok y) -> exists ys, traverse f l = Ok ys.
Proof.
  induction l as [|x l IH]; intro H; simpl.
  - eauto.
  - destruct (H x (or_introl eq_refl)) as [y Hy]. rewrite Hy. simpl.
    destruct IH as [ys Hys]; [intros z Hz; apply H; now right|].
    rewrite Hys. simpl. eauto.
Qed.

Lemma Forall2_In_l {A B} (R : A -> B -> Prop) (l : list A) (l' : list B) x :
  Forall2 R l l' -> In x l -> exists y, In y l' /\ R x y.
Proof.
  induction 1 as [|a b l l' Hab _ IH]; intro Hin; [contradiction|].
  destruct Hin as [<- | Hin].
  - exists b. split; [now left | exact Hab].
  - destruct (IH Hin) as (y & Hy & Hr). exists y. split; [now right | exact Hr].
Qed.

Lemma Forall2_In_r {A B} (R : A -> B -> Prop) (l : list A) (l' : list B) y :
  Forall2 R l l' -> In y l' -> exists x, In x l /\ R x y.
Proof.
  induction 1 as [|a b l l' Hab _ IH]; intro Hin; [contradiction|].
  destruct Hin as [<- | Hin].
  - exists a. split; [now left | exact Hab].
  - destruct (IH Hin) as (x & Hx & Hr). exists x. split; [now right | exact Hr].
Qed.

(** Building the panel never raises: the set holds the sources, and there
    is one row (or empty string) per element of the set, in order. *)
Lemma buildSourcesPanel_ok (st : Jurisdiction) (b : bool) (o : jsobj CodeAdoption) :
  exists p, buildSourcesPanel st b o = Ok p /\
            panel_sources p = neededSources b o /\
            Forall2 (fun x row => sourceRow st o x = Ok row)
                    (neededSources b o) (panel_rows p).
Proof.
  unfold buildSourcesPanel. cbv zeta.
  destruct (traverse_total (sourceRow st o) (neededSources b o)) as [rows Hrows].
  - intros x Hx. pose proof (sourceRow_listed st b o x Hx) as H.
    destruct x as [sk|m|]; [destruct H as (row & H & _)|..]; eauto.
  - rewrite Hrows. simpl. eexists. split; [reflexivity|]. split; [reflexivity|].
    simpl. now apply traverse_Forall2.
Qed.

Lemma buildSourcesPanel_inv (st : Jurisdiction) (b : bool) (o : jsobj CodeAdoption) p :
  buildSourcesPanel st b o = Ok p ->
  panel_sources p = neededSources b o /\
  Forall2 (fun x row => sourceRow st o x = Ok row) (neededSources b o) (panel_rows p).
Proof.
  intro H. destruct (buildSourcesPanel_ok st b o) as (p' & Hp' & Hs & Hr).
  rewrite H in Hp'. injection Hp' as <-. auto.
Qed.

Lemma panel_row_of (st : Jurisdiction) (b : bool) (o : jsobj CodeAdoption) p x row :
  buildSourcesPanel st b o = Ok p ->
  In x (neededSources b o) -> sourceRow st o x = Ok (Some row) ->
  In (Some row) (panel_rows p).
Proof.
  intros Hp Hin Hrow. apply buildSourcesPanel_inv in Hp. destruct Hp as [_ Hall].
  destruct (Forall2_In_l _ _ _ _ Hall Hin) as (y & Hy & Hr).
  rewrite Hrow in Hr. injection Hr as <-. exact Hy.
Qed.

(** ** The report composer *)

(** The steps of [showReport] for a state record. *)
Ltac showReport_steps H :=
  unfold showReport in H; cbv zeta in H;
  match type of H with
  | context [buildSourcesPanel ?st ?b ?o] =>
      let p := fresh "p" in
      let Hp := fresh "Hp" in
      destruct (buildSourcesPanel st b o) as [p|] eqn:Hp;
      cbn [bind] in H; [injection H as <- | discriminate H]
  end.

(** [showReport] produces a report for every state record. *)
Lemma showReport_total (st : Jurisdiction) local localName :
  exists r, showReport (Some st) local localName = Ok r.
Proof.
  unfold showReport. cbv zeta.
  match goal with
  | |- context [buildSourcesPanel ?s ?b ?o] =>
      destruct (buildSourcesPanel_ok s b o) as (p & -> & _)
  end.
  cbn [bind]. eexists. reflexivity.
Qed.

(** The counts of a report are those of its own [adoptedCodes]. *)
Lemma showReport_counts (st : Jurisdiction) local localName r :
  showReport (Some st) local localName = Ok r ->
  codeCount r = List.length (adoptedCodes r) /\
  amendCount r = total_amendments (adoptedCodes r) /\
  hasMajorAmendments r = (3 <? amendCount r) /\
  amendBanner r = (if hasMajorAmendments r then Some (amendCount r) else None).
Proof.
  intro H. showReport_steps H. simpl.
  rewrite Object_keys_length, fold_left_sum. unfold total_amendments.
  repeat split; reflexivity.
Qed.

Lemma showReport_state_scope (st : Jurisdiction) r :
  showReport (Some st) None None = Ok r -> adoptedCodes r = adopted st.
Proof. intro H. showReport_steps H. reflexivity. Qed.

Lemma showReport_local_scope (st : Jurisdiction) l n r :
  n <> "" ->
  showReport (Some st) (Some l) (Some n) = Ok r -> adoptedCodes r = l_adopted l.
Proof.
  intros Hn H. apply truthy_true in Hn. unfold showReport, isLocal in H. rewrite Hn in H.
  showReport_steps H. reflexivity.
Qed.

(** C1.  For a state-level scope the report's adopted-codes count is the
    number of entries of the state's mapping and its amendment count is the
    sum of the amendment-list lengths over that mapping; for a local scope
    (a local record under its name, which is not the empty string) the same
    holds with the local record's mapping. *)
Theorem C1_counts_of_active_scope (st : Jurisdiction) :
  (exists r, showReport (Some st) None None = Ok r /\
             codeCount r = List.length (adopted st) /\
             amendCount r = total_amendments (adopted st)) /\
  (forall l n, n <> "" ->
     exists r, showReport (Some st) (Some l) (Some n) = Ok r /\
               codeCount r = List.length (l_adopted l) /\
               amendCount r = total_amendments (l_adopted l)).
Proof.
  split.
  - destruct (showReport_total st None None) as [r Hr].
    exists r. split; [exact Hr|].
    destruct (showReport_counts _ _ _ _ Hr) as (Hc & Ha & _).
    rewrite (showReport_state_scope _ _ Hr) in Hc, Ha. auto.
  - intros l n Hn.
    destruct (showReport_total st (Some l) (Some n)) as [r Hr].
    exists r. split; [exact Hr|].
    destruct (showReport_counts _ _ _ _ Hr) as (Hc & Ha & _).
    rewrite (showReport_local_scope _ _ _ _ Hn Hr) in Hc, Ha. auto.
Qed.

Lemma C1_counts_of_active_scope_witness :
  exists r,
    showReport (Some (state_of JURISDICTIONS "AZ"))
               (Some (city_of (state_of JURISDICTIONS "AZ") "Phoenix"))
               (Some "Phoenix") = Ok r /\
    codeCount r = 7 /\ amendCount r = 13.
Proof.
  destruct (proj2 (C1_counts_of_active_scope (state_of JURISDICTIONS "AZ"))
                  (city_of (state_of JURISDICTIONS "AZ") "Phoenix") "Phoenix")
    as (r & Hr & Hc & Ha).
  - discriminate.
  - exists r. split; [exact Hr|]. rewrite Hc, Ha. split; vm_compute; reflexivity.
Defined.

(** C4.  For every scope the "has major amendments" flag of the report is
    true exactly when the total amendment count of the active mapping is
    strictly greater than 3; a count of exactly 3 gives false. *)
Theorem C4_major_amendments_threshold (st : Jurisdiction) local localName :
  exists r,
    showReport (Some st) local localName = Ok r /\
    amendCount r = total_amendments (adoptedCodes r) /\
    (hasMajorAmendments r = true <-> 3 < amendCount r) /\
    (amendCount r = 3 -> hasMajorAmendments r = false) /\
    (amendBanner r <> None <-> 3 < amendCount r).
Proof.
  destruct (showReport_total st local localName) as [r Hr].
  exists r. split; [exact Hr|].
  destruct (showReport_counts _ _ _ _ Hr) as (_ & Ha & Hm & Hb).
  split; [exact Ha|]. rewrite Hb, Hm.
  split; [apply Nat.ltb_lt|]. split.
  - intros ->. reflexivity.
  - destruct (3 <? amendCount r) eqn:E.
    + apply Nat.ltb_lt in E. split; [auto | discriminate].
    + apply Nat.ltb_ge in E. split; [congruence | lia].
Qed.

(** Alabama has exactly three state-level amendments on record: no
    banner.  Phoenix has thirteen. *)
Lemma C4_major_amendments_threshold_witness :
  (exists r, showReport (Some (state_of JURISDICTIONS "AL")) None None = Ok r /\
             amendCount r = 3 /\ hasMajorAmendments r = false) /\
  (exists r, showReport (Some (state_of JURISDICTIONS "AZ"))
                        (Some (city_of (state_of JURISDICTIONS "AZ") "Phoenix"))
                        (Some "Phoenix") = Ok r /\
             amendCount r = 13 /\ hasMajorAmendments r = true).
Proof.
  split.
  - destruct (C4_major_amendments_threshold (state_of JURISDICTIONS "AL") None None)
      as (r & Hr & Ha & _ & H3 & _).
    assert (E : amendCount r = 3).
    { rewrite Ha, (showReport_state_scope _ _ Hr). vm_compute. reflexivity. }
    exists r. split; [exact Hr|]. split; [exact E | exact (H3 E)].
  - destruct (C4_major_amendments_threshold (state_of JURISDICTIONS "AZ")
                (Some (city_of (state_of JURISDICTIONS "AZ") "Phoenix")) (Some "Phoenix"))
      as (r & Hr & Ha & Hgt & _).
    assert (E : amendCount r = 13).
    { assert (Hn : "Phoenix" <> "") by discriminate.
      rewrite Ha, (showReport_local_scope _ _ _ _ Hn Hr).
      vm_compute. reflexivity. }
    exists r. split; [exact Hr|]. split; [exact E|]. apply Hgt. rewrite E. lia.
Defined.

(** ** Unknown scopes *)

Lemma nonempty_Some (n : string) : n <> "" -> nonempty (Some n) = Some n.
Proof. intro H. apply truthy_true in H. unfold nonempty. now rewrite H. Qed.

Lemma showReport_undefined_local (st : Jurisdiction) (n : option string) :
  showReport (Some st) None n = showReport (Some st) None None.
Proof. reflexivity. Qed.

(** C2 (as amended).  A request for a state code that is not in the store
    produces no report: it raises a [TypeError], which differs from every
    report, also from the report of a state without any code book, which
    shows a count of 0.  A request for a local name that is not in a known
    state's city (or county) map signals no such absence either: under the
    name of a member every object inherits from [Object.prototype] it
    raises a [TypeError], and under every other name it produces the
    state-level report of that state. *)
Theorem C2_unknown_scope (J : jsobj Jurisdiction) (s : Suggestion) :
  (obj_get J (s_state s) = None -> selectSuggestion J s = TypeError) /\
  (forall st city,
     obj_get J (s_state s) = Some st -> s_city s = Some city -> city <> "" ->
     obj_get (cities st) city = None ->
     (~ In city Object_prototype ->
      selectSuggestion J s = showReport (Some st) None None) /\
     (In city Object_prototype -> selectSuggestion J s = TypeError)) /\
  (forall st county,
     obj_get J (s_state s) = Some st -> nonempty (s_city s) = None ->
     s_county s = Some county -> county <> "" ->
     obj_get (counties st) county = None ->
     (~ In county Object_prototype ->
      selectSuggestion J s = showReport (Some st) None None) /\
     (In county Object_prototype -> selectSuggestion J s = TypeError)) /\
  (forall r : Report, TypeError <> Ok r) /\
  (forall st, exists r, showReport (Some st) None None = Ok r /\
                        codeCount r = List.length (adopted st)).
Proof.
  split; [|split; [|split; [|split]]].
  - intro H. unfold selectSuggestion, read. rewrite H.
    destruct (nonempty (s_city s)); [now destruct (existsb _ _)|].
    destruct (nonempty (s_county s)); now destruct (existsb _ _).
  - intros st city Hst Hcity Hc Hnone. unfold selectSuggestion.
    rewrite (read_own _ _ _ Hst), Hcity, (nonempty_Some _ Hc). split; intro Hp.
    + rewrite (proj2 (read_undefined (cities st) city) (conj Hnone Hp)).
      apply showReport_undefined_local.
    + rewrite (proj2 (read_proto (cities st) city city) (conj eq_refl (conj Hnone Hp))).
      unfold showReport_local. apply truthy_true in Hc. now rewrite Hc.
  - intros st county Hst Hcity Hcounty Hc Hnone. unfold selectSuggestion.
    rewrite (read_own _ _ _ Hst), Hcity, Hcounty, (nonempty_Some _ Hc). split; intro Hp.
    + rewrite (proj2 (read_undefined (counties st) county) (conj Hnone Hp)).
      apply showReport_undefined_local.
    + rewrite (proj2 (read_proto (counties st) county county)
                 (conj eq_refl (conj Hnone Hp))).
      unfold showReport_local. apply truthy_true in Hc. now rewrite Hc.
  - discriminate.
  - intro st. destruct (showReport_total st None None) as [r Hr].
    exists r. split; [exact Hr|].
    destruct (showReport_counts _ _ _ _ Hr) as (Hc & _).
    now rewrite (showReport_state_scope _ _ Hr) in Hc.
Qed.

Lemma C2_unknown_scope_witness :
  selectSuggestion JURISDICTIONS
    {| s_label := "Atlantis"; s_sub := "XX"; s_type := STATE; s_state := "XX";
       s_city := None; s_county := None |} = TypeError /\
  selectSuggestion JURISDICTIONS
    {| s_label := "Nowhere"; s_sub := "Arizona"; s_type := CITY; s_state := "AZ";
       s_city := Some "Nowhere"; s_county := None |}
  = showReport (Some (state_of JURISDICTIONS "AZ")) None None /\
  selectSuggestion JURISDICTIONS
    {| s_label := "constructor"; s_sub := "Arizona"; s_type := CITY; s_state := "AZ";
       s_city := Some "constructor"; s_county := None |} = TypeError.
Proof.
  split; [|split].
  - apply (proj1 (C2_unknown_scope JURISDICTIONS _)). vm_compute. reflexivity.
  - apply (proj1 (proj2 (C2_unknown_scope JURISDICTIONS _))) with (city := "Nowhere").
    + vm_compute. reflexivity.
    + reflexivity.
    + discriminate.
    + vm_compute. reflexivity.
    + vm_compute. intuition discriminate.
  - apply (proj1 (proj2 (C2_unknown_scope JURISDICTIONS _)))
      with (st := state_of JURISDICTIONS "AZ") (city := "constructor").
    + vm_compute. reflexivity.
    + reflexivity.
    + discriminate.
    + vm_compute. reflexivity.
    + vm_compute. left. reflexivity.
Defined.

(** C2 fails as stated: asking for the city "Nowhere" of Arizona, which
    the store does not have, produces a report, that of the state of
    Arizona with its two code books. *)
Lemma C2_unknown_local_counterexample :
  obj_get (cities (state_of JURISDICTIONS "AZ")) "Nowhere" = None /\
  rmap displayName
    (selectSuggestion JURISDICTIONS
       {| s_label := "Nowhere"; s_sub := "Arizona"; s_type := CITY; s_state := "AZ";
          s_city := Some "Nowhere"; s_county := None |}) = Ok "Arizona" /\
  rmap codeCount
    (selectSuggestion JURISDICTIONS
       {| s_label := "Nowhere"; s_sub := "Arizona"; s_type := CITY; s_state := "AZ";
          s_city := Some "Nowhere"; s_county := None |}) = Ok 2.
Proof. by_evaluation. Qed.

(** ** Search: the cap on the result list *)

(** C3.  For every input string the suggestion list has at most 8 entries. *)
Theorem C3_at_most_eight (J : jsobj Jurisdiction) (query : string) :
  List.length (buildSuggestions J query) <= 8.
Proof.
  unfold buildSuggestions.
  destruct (String.length query <? 2).
  - simpl. lia.
  - apply firstn_le_length.
Qed.

(** ** The fallback pass *)

(** A code that is no array index is filed behind the entries of the
    table. *)
Lemma fill_state_extends (J : jsobj Jurisdiction) (s : StateStub) :
  array_index (stub_abbr s) = None ->
  fill_state J s = J \/
  (obj_get J (stub_abbr s) = None /\
   fill_state J s = J ++ [(stub_abbr s, stub_entry s)]).
Proof.
  intro Hi. unfold fill_state. destruct (obj_get J (stub_abbr s)) eqn:E.
  - now left.
  - right. split; [reflexivity|]. now apply obj_set_absent.
Qed.

Lemma fill_state_keeps (J : jsobj Jurisdiction) (s : StateStub) k v :
  obj_get J k = Some v -> obj_get (fill_state J s) k = Some v.
Proof.
  intro H. unfold fill_state. destruct (obj_get J (stub_abbr s)) eqn:E; [exact H|].
  rewrite obj_get_set_ne; [exact H | congruence].
Qed.

Lemma fill_states_keeps (stubs : list StateStub) (J : jsobj Jurisdiction) k v :
  obj_get J k = Some v -> obj_get (fill_states stubs J) k = Some v.
Proof.
  unfold fill_states. revert J.
  induction stubs as [|s stubs IH]; intros J H; simpl; auto.
  apply IH. now apply fill_state_keeps.
Qed.

(** The pass only appends, and only stubs of codes that were absent. *)
Lemma fill_states_appends (stubs : list StateStub) (J : jsobj Jurisdiction) :
  Forall (fun s => array_index (stub_abbr s) = None) stubs ->
  exists added,
    fill_states stubs J = J ++ added /\
    Forall (fun kv => exists s, In s stubs /\ kv = (stub_abbr s, stub_entry s) /\
                                obj_get J (stub_abbr s) = None) added.
Proof.
  unfold fill_states. revert J.
  induction stubs as [|s stubs IH]; intros J Hidx; simpl.
  - exists []. split; [now rewrite app_nil_r | constructor].
  - inversion Hidx as [|? ? Hs Hidx']; subst.
    destruct (IH (fill_state J s) Hidx') as (added & Heq & Hall).
    destruct (fill_state_extends J s Hs) as [E | [Hnone E]]; rewrite E in *.
    + exists added. split; [exact Heq|].
      eapply Forall_impl; [|exact Hall].
      intros kv (s' & Hin & Hkv & Hn). exists s'. auto.
    + exists ((stub_abbr s, stub_entry s) :: added). split.
      * rewrite Heq, <- app_assoc. reflexivity.
      * constructor.
        -- exists s. auto.
        -- eapply Forall_impl; [|exact Hall].
           intros kv (s' & Hin & Hkv & Hn). exists s'. repeat split; auto.
           rewrite obj_get_app in Hn.
           destruct (obj_get J (stub_abbr s')); [discriminate | reflexivity].
Qed.

Lemma fill_states_adds (stubs : list StateStub) (J : jsobj Jurisdiction) s :
  NoDup (map stub_abbr stubs) -> In s stubs ->
  obj_get J (stub_abbr s) = None ->
  obj_get (fill_states stubs J) (stub_abbr s) = Some (stub_entry s).
Proof.
  unfold fill_states. revert J.
  induction stubs as [|s0 stubs IH]; intros J Hnd Hin Hnone; simpl in *.
  - contradiction.
  - inversion Hnd as [|? ? Hnotin Hnd']; subst.
    destruct Hin as [-> | Hin].
    + apply fill_states_keeps. unfold fill_state. rewrite Hnone.
      apply obj_get_set_eq.
    + apply IH; auto.
      assert (Hne : stub_abbr s0 <> stub_abbr s).
      { intro E. apply Hnotin. rewrite E. now apply in_map. }
      unfold fill_state. destruct (obj_get J (stub_abbr s0)); auto.
      now rewrite obj_get_set_ne.
Qed.

Lemma fill_states_absent (stubs : list StateStub) (J : jsobj Jurisdiction) k :
  obj_get J k = None -> (forall s, In s stubs -> stub_abbr s <> k) ->
  obj_get (fill_states stubs J) k = None.
Proof.
  unfold fill_states. revert J.
  induction stubs as [|s0 stubs IH]; intros J Hnone Hne; simpl in *; auto.
  apply IH; [|intros s Hs; apply Hne; auto].
  unfold fill_state. destruct (obj_get J (stub_abbr s0)); auto.
  rewrite obj_get_set_ne; auto.
Qed.

Lemma plain_key_spec (k : string) :
  plain_key k = true <-> array_index k = None /\ ~ In k Object_prototype.
Proof.
  unfold plain_key. destruct (array_index k).
  - split; [discriminate | intros [H _]; discriminate].
  - rewrite negb_true_iff. split.
    + intro H. split; [reflexivity|]. intro Hp. apply inherited_name in Hp. congruence.
    + intros [_ H]. destruct (existsb _ _) eqn:E; [|reflexivity].
      apply inherited_name in E. contradiction.
Qed.

(** The codes of the list are neither array indices nor names of inherited
    members: on them the bracket read is the read of an own property. *)
Lemma ALL_STATES_named :
  Forall (fun s => array_index (stub_abbr s) = None) ALL_STATES /\
  forall (J : jsobj Jurisdiction) s, In s ALL_STATES ->
    read J (stub_abbr s)
    = match obj_get J (stub_abbr s) with Some v => val v | None => undefined end.
Proof.
  assert (H : forallb (fun s => plain_key (stub_abbr s)) ALL_STATES = true)
    by (vm_compute; reflexivity).
  rewrite forallb_forall in H. split.
  - apply Forall_forall. intros s Hs. now apply plain_key_spec, H.
  - intros J s Hs. apply H, plain_key_spec in Hs. destruct Hs as [_ Hp].
    unfold read. destruct (obj_get J (stub_abbr s)); [reflexivity|].
    destruct (existsb _ _) eqn:E; [|reflexivity].
    apply inherited_name in E. contradiction.
Qed.

Lemma ALL_STATES_NoDup : NoDup (map stub_abbr ALL_STATES).
Proof.
  assert (E : nodup string_dec (map stub_abbr ALL_STATES) = map stub_abbr ALL_STATES)
    by (vm_compute; reflexivity).
  rewrite <- E. apply NoDup_nodup.
Qed.

(** C10.  The fallback pass adds the minimal entry (generic note, IBC 2018
    and NEC 2020, no cities and no counties) for a state of its list only
    when the table has no entry under that code, and every entry that was
    in the table before is still there, unchanged and at the same place. *)
Theorem C10_fallback_never_overwrites (J : jsobj Jurisdiction) :
  (forall k v, obj_get J k = Some v ->
               obj_get (fill_states ALL_STATES J) k = Some v) /\
  (exists added,
     fill_states ALL_STATES J = J ++ added /\
     Forall (fun kv => exists s, In s ALL_STATES /\
                                 kv = (stub_abbr s, stub_entry s) /\
                                 obj_get J (stub_abbr s) = None) added) /\
  (forall s, In s ALL_STATES -> obj_get J (stub_abbr s) = None ->
             obj_get (fill_states ALL_STATES J) (stub_abbr s) = Some (stub_entry s)) /\
  (forall k, obj_get J k = None -> (forall s, In s ALL_STATES -> stub_abbr s <> k) ->
             obj_get (fill_states ALL_STATES J) k = None) /\
  (forall s, name (stub_entry s) = stub_name s /\ abbr (stub_entry s) = stub_abbr s /\
             map (fun kv => (fst kv, year (snd kv))) (adopted (stub_entry s))
               = [("IBC", Some 2018); ("NEC", Some 2020)] /\
             cities (stub_entry s) = [] /\ counties (stub_entry s) = []).
Proof.
  split; [|split; [|split; [|split]]].
  - intros k v. apply fill_states_keeps.
  - apply fill_states_appends. exact (proj1 ALL_STATES_named).
  - intros s Hin. apply fill_states_adds; auto. apply ALL_STATES_NoDup.
  - intro k. apply fill_states_absent.
  - intro s. repeat split; reflexivity.
Qed.

Lemma C10_fallback_never_overwrites_witness :
  obj_get JURISDICTIONS "AZ" = obj_get JURISDICTIONS_core "AZ" /\
  obj_get JURISDICTIONS "WY"
    = Some (stub_entry {| stub_abbr := "WY"; stub_name := "Wyoming" |}).
Proof.
  unfold JURISDICTIONS. split.
  - destruct (obj_get JURISDICTIONS_core "AZ") as [v|] eqn:E.
    + apply (proj1 (C10_fallback_never_overwrites JURISDICTIONS_core)). exact E.
    + vm_compute in E. discriminate.
  - apply (proj1 (proj2 (proj2 (C10_fallback_never_overwrites JURISDICTIONS_core)))
             {| stub_abbr := "WY"; stub_name := "Wyoming" |}).
    + vm_compute. repeat (try (left; reflexivity); right).
    + vm_compute. reflexivity.
Defined.

(** ** Strings: trimming, splitting, the zip pattern *)

Lemma nonspace_le_length (s : string) : nonspace s <= String.length s.
Proof.
  induction s as [|c s IH]; simpl; [lia|].
  destruct (isWhiteSpace c); lia.
Qed.

Lemma nonspace_trimStart (s : string) : nonspace (trimStart s) = nonspace s.
Proof.
  induction s as [|c s IH]; simpl; [reflexivity|].
  destruct (isWhiteSpace c) eqn:E; simpl; [exact IH | now rewrite E].
Qed.

Lemma nonspace_trimEnd (s : string) : nonspace (trimEnd s) = nonspace s.
Proof.
  induction s as [|c s IH]; simpl; [reflexivity|].
  destruct (trimEnd s) as [|c' r] eqn:E.
  - simpl in IH. rewrite <- IH.
    destruct (isWhiteSpace c) eqn:Ec; simpl; rewrite ?Ec; reflexivity.
  - rewrite <- IH. reflexivity.
Qed.

Lemma nonspace_trim (s : string) : nonspace (trim s) = nonspace s.
Proof. unfold trim. now rewrite nonspace_trimEnd, nonspace_trimStart. Qed.

Lemma trimEnd_blank (s : string) : nonspace s = 0 -> trimEnd s = "".
Proof.
  induction s as [|c s IH]; simpl; [reflexivity|].
  destruct (isWhiteSpace c) eqn:E; simpl; intro H; [|discriminate].
  now rewrite (IH H).
Qed.

Lemma trimStart_head (s : string) :
  trimStart s = "" \/
  exists c r, trimStart s = String c r /\ isWhiteSpace c = false.
Proof.
  induction s as [|c s IH]; simpl; [now left|].
  destruct (isWhiteSpace c) eqn:E; [exact IH|].
  right. exists c, s. auto.
Qed.

(** A string with at most one character that is not whitespace trims to
    at most one character. *)
Lemma trim_short (s : string) : nonspace s <= 1 -> String.length (trim s) <= 1.
Proof.
  intro H. unfold trim. rewrite <- nonspace_trimStart in H.
  destruct (trimStart_head s) as [E | (c & r & E & Hc)]; rewrite E in *; simpl; [lia|].
  simpl in H. rewrite Hc in H.
  rewrite trimEnd_blank by lia. rewrite Hc. simpl. lia.
Qed.

Lemma split_not_nil (sep : ascii) (s : string) : split sep s <> [].
Proof.
  destruct s as [|c s]; simpl; [discriminate|].
  destruct (Ascii.eqb c sep); [discriminate|].
  destruct (split sep s); discriminate.
Qed.

Lemma nonspace_split (sep : ascii) (s p : string) :
  In p (split sep s) -> nonspace p <= nonspace s.
Proof.
  revert p. induction s as [|c s IH]; simpl; intros p Hin.
  - destruct Hin as [<- | []]. simpl. lia.
  - destruct (Ascii.eqb c sep).
    + destruct Hin as [<- | Hin]; simpl; [lia|].
      specialize (IH p Hin). lia.
    + destruct (split sep s) as [|p0 ps] eqn:E.
      * destruct Hin as [<- | []]. simpl. lia.
      * destruct Hin as [<- | Hin].
        -- simpl. specialize (IH p0 (or_introl eq_refl)). lia.
        -- specialize (IH p (or_intror Hin)). lia.
Qed.

Lemma replace_zip_unfold (s : string) :
  replace_zip s =
  if zip_re_here s then ""
  else match s with
       | EmptyString => EmptyString
       | String c s' => String c (replace_zip s')
       end.
Proof. destruct s; reflexivity. Qed.

Lemma nonspace_replace_zip (s : string) : nonspace (replace_zip s) <= nonspace s.
Proof.
  induction s as [|c s IH]; rewrite replace_zip_unfold.
  - simpl. lia.
  - destruct (zip_re_here (String c s)); simpl; lia.
Qed.

(** ** Search: short input *)

Lemma Set_of_subset_aux (l acc : list string) x :
  In x (fold_left Set_add l acc) -> In x acc \/ In x l.
Proof.
  revert acc. induction l as [|y l IH]; simpl; intros acc H; [auto|].
  destruct (IH _ H) as [H1 | H1]; [|auto].
  apply Set_add_In in H1. destruct H1 as [H1 | ->]; auto.
Qed.

Lemma Set_of_subset (l : list string) x : In x (Set_of l) -> In x l.
Proof.
  unfold Set_of. intro H. destruct (Set_of_subset_aux _ _ _ H) as [[] | H']; auto.
Qed.

Lemma filter_none {A} (f : A -> bool) (l : list A) :
  (forall x, In x l -> f x = false) -> filter f l = [].
Proof.
  induction l as [|x l IH]; simpl; intro H; [reflexivity|].
  rewrite (H x (or_introl eq_refl)). apply IH. intros y Hy. apply H. auto.
Qed.

(** Every piece of a query that trims to less than 2 characters gives a
    token shorter than 2 characters. *)
Lemma rawParts_short (query : string) p :
  String.length (trim query) < 2 -> In p (rawParts query) -> String.length p < 2.
Proof.
  intros Hq Hin. unfold rawParts in Hin. apply in_map_iff in Hin.
  destruct Hin as (piece & <- & Hpiece).
  assert (Hn : nonspace query <= 1).
  { rewrite <- nonspace_trim. pose proof (nonspace_le_length (trim query)). lia. }
  apply nonspace_split in Hpiece.
  assert (String.length (trim (replace_zip (trim piece))) <= 1); [|lia].
  apply trim_short.
  pose proof (nonspace_replace_zip (trim piece)) as H1.
  rewrite nonspace_trim in H1. lia.
Qed.

(** C6.  For every input string that is shorter than 2 characters after
    trimming whitespace the search returns the empty list. *)
Theorem C6_short_query_no_suggestions (J : jsobj Jurisdiction) (query : string) :
  String.length (trim query) < 2 -> buildSuggestions J query = [].
Proof.
  intro Hq. unfold buildSuggestions.
  destruct (String.length query <? 2); [reflexivity|].
  assert (E : search_terms query = []).
  { unfold search_terms. apply filter_none. intros p Hp.
    apply Set_of_subset in Hp. apply (rawParts_short _ _ Hq) in Hp.
    apply Nat.leb_gt. lia. }
  rewrite E. reflexivity.
Qed.

Lemma C6_short_query_no_suggestions_witness :
  String.length (trim "  a  ") < 2 /\ buildSuggestions JURISDICTIONS "  a  " = [].
Proof.
  assert (H : String.length (trim "  a  ") < 2) by (vm_compute; lia).
  split; [exact H|]. exact (C6_short_query_no_suggestions JURISDICTIONS "  a  " H).
Defined.

(** ** Search: discovery order and duplicates *)

Lemma collect_app (a : SearchAcc) (l1 l2 : list Candidate) :
  collect a (l1 ++ l2) = collect (collect a l1) l2.
Proof. unfold collect. apply fold_left_app. Qed.

(** A loop over names that pushes the matching ones. *)
Lemma fold_matching {X} (p : X -> bool) (kf : X -> string) (sf : X -> Suggestion)
    (xs : list X) (a : SearchAcc) :
  fold_left (fun a x => if p x then push_unseen (kf x) (sf x) a else a) xs a
  = collect a (map (fun x => (kf x, sf x)) (filter p xs)).
Proof.
  revert a. induction xs as [|x xs IH]; intro a; simpl; [reflexivity|].
  rewrite IH. destruct (p x); reflexivity.
Qed.

Lemma visit_state_collect (t : string) (a : SearchAcc) (st : Jurisdiction) :
  visit_state t a st = collect a (state_candidates t st).
Proof.
  unfold visit_state, state_candidates.
  rewrite !collect_app, !fold_matching.
  destruct (state_matches t st); reflexivity.
Qed.

Lemma visit_states_collect (t : string) (sts : list Jurisdiction) (a : SearchAcc) :
  fold_left (visit_state t) sts a = collect a (flat_map (state_candidates t) sts).
Proof.
  revert a. induction sts as [|st sts IH]; intro a; simpl; [reflexivity|].
  rewrite IH, collect_app, visit_state_collect. reflexivity.
Qed.

Lemma visit_terms_collect (J : jsobj Jurisdiction) (terms : list string) (a : SearchAcc) :
  fold_left (visit_term J) terms a = collect a (discovery J terms).
Proof.
  revert a. induction terms as [|term terms IH]; intro a; simpl; [reflexivity|].
  rewrite IH. unfold visit_term. rewrite visit_states_collect.
  unfold discovery. simpl. rewrite collect_app. reflexivity.
Qed.

Lemma collect_first_occurrences (cands : list Candidate) (res : list Suggestion)
    (seen : list string) :
  fst (collect (res, seen) cands) = res ++ first_occurrences seen cands.
Proof.
  revert res seen. induction cands as [|[key s] cands IH]; intros res seen.
  - simpl. now rewrite app_nil_r.
  - change (collect (res, seen) ((key, s) :: cands))
      with (collect (push_unseen key s (res, seen)) cands).
    unfold push_unseen. cbn [fst snd first_occurrences].
    destruct (Set_has seen key).
    + apply IH.
    + rewrite IH, <- app_assoc. reflexivity.
Qed.

(** The result list is the head of the first occurrences, in discovery
    order. *)
Lemma buildSuggestions_discovery (J : jsobj Jurisdiction) (query : string) :
  2 <= String.length query ->
  buildSuggestions J query =
  firstn 8 (first_occurrences [] (discovery J (search_terms query))).
Proof.
  intro H. unfold buildSuggestions.
  apply Nat.ltb_ge in H. rewrite H.
  rewrite visit_terms_collect, collect_first_occurrences. reflexivity.
Qed.

Lemma state_candidates_well_keyed (t : string) (st : Jurisdiction) :
  Forall well_keyed (state_candidates t st).
Proof.
  unfold state_candidates. rewrite !Forall_app. repeat split.
  - destruct (state_matches t st); repeat constructor.
  - apply Forall_forall. intros c Hc. apply in_map_iff in Hc.
    destruct Hc as (x & <- & _). reflexivity.
  - apply Forall_forall. intros c Hc. apply in_map_iff in Hc.
    destruct Hc as (x & <- & _). reflexivity.
Qed.

Lemma discovery_well_keyed (J : jsobj Jurisdiction) (terms : list string) :
  Forall well_keyed (discovery J terms).
Proof.
  unfold discovery. apply Forall_forall. intros c Hc.
  apply in_flat_map in Hc. destruct Hc as (term & _ & Hc).
  apply in_flat_map in Hc. destruct Hc as (st & _ & Hc).
  pose proof (state_candidates_well_keyed (toLowerCase term) st) as H.
  rewrite Forall_forall in H. now apply H.
Qed.

(** The kept suggestions have pairwise different keys, none of them in
    [seen]. *)
Lemma first_occurrences_keys (cands : list Candidate) (seen : list string) :
  Forall well_keyed cands ->
  NoDup (map (fun s => key_of_identity (identity s)) (first_occurrences seen cands)) /\
  (forall s, In s (first_occurrences seen cands) ->
             Set_has seen (key_of_identity (identity s)) = false).
Proof.
  revert seen. induction cands as [|[key s] cands IH]; intros seen Hwk; simpl.
  - split; [constructor | contradiction].
  - inversion Hwk as [|? ? Hk Hwk']; subst. unfold well_keyed in Hk. simpl in Hk.
    destruct (Set_has seen key) eqn:E.
    + now apply IH.
    + rewrite (Set_add_fresh _ _ E).
      destruct (IH (seen ++ [key]) Hwk') as [Hnd Hfresh]. split.
      * simpl. constructor; [|exact Hnd].
        intro Hin. apply in_map_iff in Hin. destruct Hin as (s' & Hs' & Hin).
        specialize (Hfresh s' Hin). rewrite Set_has_app, Hs', <- Hk in Hfresh.
        apply orb_false_elim in Hfresh. destruct Hfresh as [_ Hf].
        unfold Set_has in Hf. simpl in Hf. rewrite String.eqb_refl in Hf. discriminate.
      * intros s' [<- | Hin].
        -- now rewrite <- Hk.
        -- specialize (Hfresh s' Hin). rewrite Set_has_app in Hfresh.
           now apply orb_false_elim in Hfresh.
Qed.

Lemma In_firstn {A} (n : nat) (l : list A) x : In x (firstn n l) -> In x l.
Proof.
  intro H. rewrite <- (firstn_skipn n l). apply in_or_app. now left.
Qed.

Lemma NoDup_firstn {A} (n : nat) (l : list A) : NoDup l -> NoDup (firstn n l).
Proof.
  intro H. rewrite <- (firstn_skipn n l) in H. now apply NoDup_app_remove_r in H.
Qed.

Lemma buildSuggestions_NoDup (J : jsobj Jurisdiction) (query : string) :
  NoDup (map identity (buildSuggestions J query)).
Proof.
  destruct (le_lt_dec 2 (String.length query)) as [H | H].
  - rewrite (buildSuggestions_discovery J query H), <- firstn_map.
    apply NoDup_firstn.
    destruct (first_occurrences_keys _ [] (discovery_well_keyed J (search_terms query)))
      as [Hnd _].
    rewrite <- map_map in Hnd. now apply NoDup_map_inv in Hnd.
  - unfold buildSuggestions. apply Nat.ltb_lt in H. rewrite H. constructor.
Qed.

(** C5 (as amended).  For every query no two suggestions have the same
    identity (match kind, state code, local name if any); the result is
    the first 8 of the first occurrences in discovery order; discovery
    goes term by term and, for each term, state by state in the insertion
    order of the store, each state giving its own name match first, then
    its matching cities, then its matching counties.  So a state-name match
    stands before the city and county matches of that state only. *)
Theorem C5_discovery_order_no_duplicates (J : jsobj Jurisdiction) (query : string) :
  NoDup (map identity (buildSuggestions J query)) /\
  (2 <= String.length query ->
   buildSuggestions J query =
   firstn 8 (first_occurrences []
     (flat_map
        (fun term =>
           flat_map
             (fun st =>
                (if state_matches (toLowerCase term) st
                 then [(state_key st, state_suggestion st)] else []) ++
                map (fun city => (city_key st city, city_suggestion st city))
                    (filter (local_matches (toLowerCase term)) (Object_keys (cities st))) ++
                map (fun county => (county_key st county, county_suggestion st county))
                    (filter (local_matches (toLowerCase term)) (Object_keys (counties st))))
             (Object_values J))
        (search_terms query)))).
Proof.
  split.
  - apply buildSuggestions_NoDup.
  - apply buildSuggestions_discovery.
Qed.

Lemma C5_discovery_order_no_duplicates_witness :
  2 <= String.length "or" /\
  map (fun s => (s_type s, s_label s)) (buildSuggestions JURISDICTIONS "or")
  = [(CITY, "Anchorage"); (STATE, "California"); (STATE, "Colorado"); (STATE, "Florida");
     (CITY, "Orlando"); (STATE, "New York"); (CITY, "New York City"); (STATE, "Oregon")].
Proof.
  assert (H : 2 <= String.length "or") by (vm_compute; lia).
  split; [exact H|].
  rewrite (proj2 (C5_discovery_order_no_duplicates JURISDICTIONS "or") H).
  vm_compute. reflexivity.
Defined.

(** C5 fails as stated: for the query "or" the city of Anchorage (Alaska
    is the second state of the table) is listed before the states of
    California, Colorado, Florida, New York and Oregon. *)
Lemma C5_states_not_first_counterexample :
  map (fun s => (s_type s, s_label s)) (buildSuggestions JURISDICTIONS "or")
  = [(CITY, "Anchorage"); (STATE, "California"); (STATE, "Colorado"); (STATE, "Florida");
     (CITY, "Orlando"); (STATE, "New York"); (CITY, "New York City"); (STATE, "Oregon")] /\
  states_first (buildSuggestions JURISDICTIONS "or") = false.
Proof. by_evaluation. Qed.

(** ** Search: tokens *)

Lemma trimEnd_cons (c : ascii) (s : string) :
  trimEnd (String c s) =
  match trimEnd s with
  | EmptyString => if isWhiteSpace c then EmptyString else String c EmptyString
  | r => String c r
  end.
Proof. reflexivity. Qed.

(** Trimming the two ends in either order gives the same string. *)
Lemma trimEnd_trimStart (s : string) : trimEnd (trimStart s) = trimStart (trimEnd s).
Proof.
  induction s as [|c s IH]; [reflexivity|].
  cbn [trimStart]. destruct (isWhiteSpace c) eqn:E.
  - rewrite IH, trimEnd_cons. destruct (trimEnd s) as [|c' r].
    + rewrite E. reflexivity.
    + cbn [trimStart]. rewrite E. reflexivity.
  - rewrite trimEnd_cons. destruct (trimEnd s) as [|c' r]; rewrite ?E;
      cbn [trimStart]; rewrite E; reflexivity.
Qed.

Lemma zip_re_here_replace (s : string) : zip_re_here s = true -> replace_zip s = "".
Proof. intro H. rewrite replace_zip_unfold, H. reflexivity. Qed.

(** The pattern cuts the whitespace in front of the postal code as well;
    up to the trim that follows, that is cutting the postal code alone. *)
Lemma trimEnd_replace_zip (s : string) :
  trimEnd (replace_zip s) = trimEnd (strip_postal_after_space s).
Proof.
  induction s as [|c s IH]; [reflexivity|].
  rewrite replace_zip_unfold. cbn [strip_postal_after_space zip_re_here].
  destruct (isWhiteSpace c) eqn:Ec; cbn [andb].
  - destruct (zip_here s) eqn:Ez; cbn [orb].
    + rewrite trimEnd_cons. cbn [trimEnd]. rewrite Ec. reflexivity.
    + destruct (zip_re_here s) eqn:Er.
      * rewrite trimEnd_cons, <- IH, (zip_re_here_replace s Er).
        cbn [trimEnd]. rewrite Ec. reflexivity.
      * rewrite !trimEnd_cons, IH. reflexivity.
  - rewrite !trimEnd_cons, IH. reflexivity.
Qed.

Lemma trim_replace_zip (s : string) :
  trim (replace_zip s) = trim (strip_postal_after_space s).
Proof.
  unfold trim. now rewrite !trimEnd_trimStart, trimEnd_replace_zip.
Qed.

Lemma filter_filter_fresh (acc : list string) (x : string) (l : list string) :
  filter (fun y => negb (Set_has (acc ++ [x]) y)) l
  = filter (fun y => negb (Set_has acc y)) (filter (fun y => negb (String.eqb y x)) l).
Proof.
  induction l as [|y l IH]; simpl; [reflexivity|].
  rewrite Set_has_app. unfold Set_has at 2. simpl. rewrite orb_false_r.
  destruct (String.eqb y x) eqn:E; simpl.
  - rewrite orb_true_r. simpl. exact IH.
  - rewrite orb_false_r. destruct (Set_has acc y); simpl; now rewrite IH.
Qed.

Lemma filter_has_drop (acc : list string) (x : string) (l : list string) :
  Set_has acc x = true ->
  filter (fun y => negb (Set_has acc y)) (filter (fun y => negb (String.eqb y x)) l)
  = filter (fun y => negb (Set_has acc y)) l.
Proof.
  intro H. induction l as [|y l IH]; simpl; [reflexivity|].
  destruct (String.eqb y x) eqn:E; simpl.
  - apply String.eqb_eq in E. subst y. rewrite H. simpl. exact IH.
  - now rewrite IH.
Qed.

Lemma Set_of_dedup_aux (l acc : list string) :
  fold_left Set_add l acc = acc ++ filter (fun y => negb (Set_has acc y)) (dedup l).
Proof.
  revert acc. induction l as [|x l IH]; intro acc; simpl.
  - now rewrite app_nil_r.
  - rewrite IH. unfold Set_add. destruct (Set_has acc x) eqn:E; simpl.
    + now rewrite filter_has_drop.
    + rewrite <- app_assoc. simpl. now rewrite filter_filter_fresh.
Qed.

(** Spreading a [Set] built from an array gives the array without its
    repeated elements. *)
Lemma Set_of_dedup (l : list string) : Set_of l = dedup l.
Proof.
  unfold Set_of. rewrite Set_of_dedup_aux. simpl.
  induction (dedup l) as [|y d IH]; simpl; [reflexivity|]. now rewrite IH.
Qed.

Lemma search_terms_tokens (query : string) : search_terms query = tokens query.
Proof.
  unfold search_terms, tokens, tokens_by, rawParts.
  rewrite Set_of_dedup.
  rewrite (map_ext _ (fun p => trim (strip_postal_after_space (trim p))))
    by (intro p; apply trim_replace_zip).
  apply filter_ext. intro t. apply Nat.leb_antisym.
Qed.

(** *** Labels *)

Lemma first_occurrences_subset (cands : list Candidate) (seen : list string) s :
  In s (first_occurrences seen cands) -> In s (map snd cands).
Proof.
  revert seen. induction cands as [|[key s0] cands IH]; intro seen; simpl; [auto|].
  destruct (Set_has seen key).
  - intro H. right. eauto.
  - intros [<- | H]; [now left | right; eauto].
Qed.

Lemma state_candidates_label (t : string) (st : Jurisdiction) c :
  In c (state_candidates t st) -> In (s_label (snd c)) (names_of st).
Proof.
  unfold state_candidates, names_of. rewrite !in_app_iff. intros [H | [H | H]].
  - destruct (state_matches t st); [|contradiction].
    destruct H as [<- | []]. now left.
  - apply in_map_iff in H. destruct H as (x & <- & Hx). apply filter_In in Hx.
    right. apply in_or_app. left. apply Hx.
  - apply in_map_iff in H. destruct H as (x & <- & Hx). apply filter_In in Hx.
    right. apply in_or_app. right. apply Hx.
Qed.

(** Every label is the name of a state of the store or of one of its
    cities or counties. *)
Lemma buildSuggestions_label (J : jsobj Jurisdiction) (query : string) r :
  In r (buildSuggestions J query) ->
  exists st, In st (Object_values J) /\ In (s_label r) (names_of st).
Proof.
  destruct (le_lt_dec 2 (String.length query)) as [H | H].
  - rewrite (buildSuggestions_discovery J query H). intro Hin.
    apply In_firstn in Hin. apply first_occurrences_subset in Hin.
    apply in_map_iff in Hin. destruct Hin as (c & <- & Hc).
    unfold discovery in Hc. apply in_flat_map in Hc. destruct Hc as (term & _ & Hc).
    apply in_flat_map in Hc. destruct Hc as (st & Hst & Hc).
    exists st. split; [exact Hst|]. eapply state_candidates_label; eauto.
  - unfold buildSuggestions. apply Nat.ltb_lt in H. rewrite H. contradiction.
Qed.

Lemma digit_free_label (J : jsobj Jurisdiction) (query : string) r :
  digit_free J = true -> In r (buildSuggestions J query) -> has_digit (s_label r) = false.
Proof.
  intros Hdf Hin. destruct (buildSuggestions_label _ _ _ Hin) as (st & Hst & Hn).
  unfold digit_free in Hdf. rewrite forallb_forall in Hdf.
  specialize (Hdf st Hst). rewrite forallb_forall in Hdf.
  specialize (Hdf _ Hn). now apply negb_true_iff in Hdf.
Qed.

Lemma prefix_has_digit (s z : string) :
  String.prefix z s = true -> has_digit z = true -> has_digit s = true.
Proof.
  revert z. induction s as [|b s IH]; intros [|a z]; simpl; try discriminate.
  destruct (ascii_dec a b) as [-> | _]; [|discriminate].
  intros Hp Hd. apply orb_true_iff in Hd. apply orb_true_iff.
  destruct Hd as [Hd | Hd]; [now left | right; eauto].
Qed.

Lemma includes_has_digit (s z : string) :
  includes s z = true -> has_digit z = true -> has_digit s = true.
Proof.
  induction s as [|b s IH]; intros Hi Hd; cbn [includes] in Hi;
    apply orb_true_iff in Hi; destruct Hi as [Hi | Hi].
  - eapply prefix_has_digit; eauto.
  - discriminate.
  - eapply prefix_has_digit; eauto.
  - cbn [has_digit]. apply orb_true_iff. right. auto.
Qed.

Lemma zip_here_has_digit (s : string) : zip_here s = true -> has_digit s = true.
Proof.
  unfold zip_here. destruct s as [|c s]; simpl; [discriminate|].
  destruct (isDigit c); [reflexivity | discriminate].
Qed.

Lemma zip_re_here_has_digit (s : string) : zip_re_here s = true -> has_digit s = true.
Proof.
  induction s as [|c s IH]; simpl; [discriminate|].
  intro H. apply andb_true_iff in H. destruct H as [_ H].
  apply orb_true_iff in H. apply orb_true_iff. right.
  destruct H as [H | H]; [now apply zip_here_has_digit | auto].
Qed.

Lemma append_inv_head (a z z' : string) :
  (a ++ z)%string = (a ++ z')%string -> z = z'.
Proof.
  induction a as [|c a IH]; simpl; intro H; [exact H|].
  injection H as H. auto.
Qed.

(** What the pattern cuts off is empty or a match of the pattern. *)
Lemma replace_zip_cut (s : string) :
  exists z, s = (replace_zip s ++ z)%string /\ (z = "" \/ zip_re_here z = true).
Proof.
  induction s as [|c s IH]; rewrite replace_zip_unfold.
  - exists "". split; [reflexivity | now left].
  - destruct (zip_re_here (String c s)) eqn:E.
    + exists (String c s). split; [reflexivity | now right].
    + destruct IH as (z & Hz & Hz'). exists z. split; [|exact Hz'].
      simpl. now rewrite <- Hz.
Qed.

Lemma stripped_has_digit (s z : string) :
  s = (replace_zip s ++ z)%string -> z <> "" -> has_digit z = true.
Proof.
  intros Hs Hz. destruct (replace_zip_cut s) as (z0 & Hz0 & Hcase).
  rewrite Hz0 in Hs at 1. apply append_inv_head in Hs. subst z0.
  destruct Hcase as [-> | H]; [contradiction | now apply zip_re_here_has_digit].
Qed.

(** C7 (as amended).  For every input string the search terms are
    obtained by splitting on commas, trimming each piece, stripping a
    trailing 5-digit (optionally +4) postal code that stands after
    whitespace, trimming again, de-duplicating by string equality and
    discarding the tokens shorter than 2 characters.  And on a store none
    of whose state, city or county names holds a digit, what was stripped
    from a piece occurs in no returned label. *)
Theorem C7_tokens (query : string) :
  search_terms query = tokens query /\
  (forall (J : jsobj Jurisdiction) piece z r,
     digit_free J = true ->
     In piece (split "," query) ->
     trim piece = (replace_zip (trim piece) ++ z)%string -> z <> "" ->
     In r (buildSuggestions J query) ->
     includes (s_label r) z = false).
Proof.
  split; [apply search_terms_tokens|].
  intros J piece z r Hdf _ Hcut Hz Hin.
  pose proof (stripped_has_digit _ _ Hcut Hz) as Hd.
  pose proof (digit_free_label _ _ _ Hdf Hin) as Hl.
  destruct (includes (s_label r) z) eqn:E; [|reflexivity].
  rewrite (includes_has_digit _ _ E Hd) in Hl. discriminate.
Qed.

Lemma C7_tokens_witness :
  search_terms "123 Main St, Phoenix, AZ 85001" = ["123 Main St"; "Phoenix"; "AZ"] /\
  includes "Phoenix" " 85001" = false.
Proof.
  split.
  - rewrite (proj1 (C7_tokens "123 Main St, Phoenix, AZ 85001")). vm_compute. reflexivity.
  - apply (proj2 (C7_tokens "123 Main St, Phoenix, AZ 85001")
             JURISDICTIONS " AZ 85001" " 85001"
             (city_suggestion (state_of JURISDICTIONS "AZ") "Phoenix")).
    + vm_compute. reflexivity.
    + vm_compute. right. right. left. reflexivity.
    + vm_compute. reflexivity.
    + discriminate.
    + vm_compute. left. reflexivity.
Defined.

(** C7 fails as stated: a piece that is a postal code with nothing in
    front of it is kept as a search term, where stripping a trailing
    postal code would leave nothing.  And a store may have a place whose
    name ends like a postal code: the stripped suffix is then in the
    label. *)
Lemma C7_bare_zip_counterexample :
  search_terms "Phoenix,85001" = ["Phoenix"; "85001"] /\
  tokens_strict "Phoenix,85001" = ["Phoenix"] /\
  search_terms "Area 85001" = ["Area"] /\
  map s_label (buildSuggestions zip_named_store "Area 85001") = ["Area 85001"] /\
  includes "Area 85001" " 85001" = true.
Proof. by_evaluation. Qed.

(** ** Browse order of the states *)

Section SortFacts.
Context {A : Type}.
Variable cmp : A -> A -> comparison.
Hypothesis cmp_consistent : consistent cmp.

Lemma sort_insert_perm (x : A) (l : list A) :
  Permutation (x :: l) (sort_insert cmp x l).
Proof.
  induction l as [|y l IH]; simpl; [reflexivity|].
  destruct (cmp x y); try reflexivity.
  rewrite perm_swap. now constructor.
Qed.

Lemma Array_sort_perm (l : list A) : Permutation l (Array_sort cmp l).
Proof.
  induction l as [|x l IH]; simpl; [reflexivity|].
  rewrite <- sort_insert_perm. now constructor.
Qed.

Lemma sort_insert_sorted (x : A) (l : list A) :
  StronglySorted (fun a b => cmp a b <> Gt) l ->
  StronglySorted (fun a b => cmp a b <> Gt) (sort_insert cmp x l).
Proof.
  destruct cmp_consistent as [Hanti Htrans].
  induction l as [|y l IH]; intro Hs; simpl.
  - repeat constructor.
  - apply StronglySorted_inv in Hs. destruct Hs as [Hs Hy].
    assert (Hkeep : cmp x y <> Gt ->
                    StronglySorted (fun a b => cmp a b <> Gt) (x :: y :: l)).
    { intro Hxy. constructor; [now constructor|].
      constructor; [exact Hxy|].
      eapply Forall_impl; [|exact Hy]. intros z Hz. now apply (Htrans x y z). }
    destruct (cmp x y) eqn:E.
    + apply Hkeep. discriminate.
    + apply Hkeep. discriminate.
    + constructor; [now apply IH|].
      apply (Permutation_Forall (sort_insert_perm x l)).
      constructor; [|exact Hy].
      rewrite Hanti, E. discriminate.
Qed.

Lemma Array_sort_sorted (l : list A) :
  StronglySorted (fun a b => cmp a b <> Gt) (Array_sort cmp l).
Proof.
  induction l as [|x l IH]; simpl; [constructor|].
  now apply sort_insert_sorted.
Qed.

(** Elements that tie with each other keep their order. *)
Lemma sort_insert_filter (p : A -> bool) (x : A) (l : list A) :
  (forall a b, p a = true -> p b = true -> cmp a b <> Gt) ->
  filter p (sort_insert cmp x l) = filter p (x :: l).
Proof.
  intro Hp. induction l as [|y l IH]; [reflexivity|].
  cbn [sort_insert]. destruct (cmp x y) eqn:E; try reflexivity.
  cbn [filter] in *. rewrite IH.
  destruct (p x) eqn:Ex; [|reflexivity].
  destruct (p y) eqn:Ey; [|reflexivity].
  exfalso. now apply (Hp x y Ex Ey).
Qed.

Lemma Array_sort_filter (p : A -> bool) (l : list A) :
  (forall a b, p a = true -> p b = true -> cmp a b <> Gt) ->
  filter p (Array_sort cmp l) = filter p l.
Proof.
  intro Hp. induction l as [|x l IH]; [reflexivity|].
  cbn [Array_sort fold_right]. rewrite (sort_insert_filter p x _ Hp).
  cbn [filter]. fold (Array_sort cmp l). now rewrite IH.
Qed.

End SortFacts.

Lemma consistent_by_name (localeCompare : string -> string -> comparison) :
  consistent localeCompare ->
  consistent (fun a b : Jurisdiction => localeCompare (name a) (name b)).
Proof.
  intros [Hanti Htrans]. split.
  - intros a b. apply Hanti.
  - intros a b c. apply Htrans.
Qed.

Lemma ties_with_not_after (localeCompare : string -> string -> comparison) n a b :
  consistent localeCompare ->
  ties_with localeCompare n a = true -> ties_with localeCompare n b = true ->
  localeCompare (name a) (name b) <> Gt.
Proof.
  intros [Hanti Htrans] Ha Hb. unfold ties_with in *.
  apply (Htrans _ n).
  - rewrite Hanti. destruct (localeCompare n (name a)); discriminate.
  - destruct (localeCompare n (name b)); discriminate.
Qed.

(** The comparison of strings by character codes is consistent. *)
Lemma String_compare_consistent : consistent String.compare.
Proof.
  split.
  - apply String_as_OT.cmp_antisym.
  - intros a b c Hab Hbc.
    destruct (String.compare a b) eqn:E1; [| |congruence].
    + apply String_as_OT.cmp_eq in E1. now subst.
    + destruct (String.compare b c) eqn:E2; [| |congruence].
      * apply String_as_OT.cmp_eq in E2. subst. rewrite E1. discriminate.
      * apply String_as_OT.cmp_lt in E1, E2.
        pose proof (String_as_OT.lt_trans _ _ _ E1 E2) as H.
        apply String_as_OT.cmp_lt in H. unfold String_as_OT.cmp in H.
        rewrite H. discriminate.
Qed.

(** C8 (as amended).  With a consistent locale comparison, the browse
    sequence holds the states of the store, each once, in ascending order
    of display name; states whose display names tie keep the insertion
    order of the store (there is no tie-break by state code); and the
    sequence is a function of the store, so building it again on the same
    store gives the same sequence. *)
Theorem C8_browse_order (localeCompare : string -> string -> comparison)
    (J : jsobj Jurisdiction) :
  consistent localeCompare ->
  Permutation (Object_values J) (statesSorted localeCompare J) /\
  StronglySorted (name_not_after localeCompare) (statesSorted localeCompare J) /\
  (forall n, filter (ties_with localeCompare n) (statesSorted localeCompare J)
             = filter (ties_with localeCompare n) (Object_values J)) /\
  (forall J', J' = J -> statesSorted localeCompare J' = statesSorted localeCompare J).
Proof.
  intro Hc. pose proof (consistent_by_name _ Hc) as Hc'.
  unfold statesSorted. repeat split.
  - apply Array_sort_perm.
  - apply (Array_sort_sorted _ Hc').
  - intro n. apply Array_sort_filter.
    intros a b. now apply ties_with_not_after.
  - now intros J' ->.
Qed.

Lemma C8_browse_order_witness :
  consistent String.compare /\
  map abbr (statesSorted String.compare JURISDICTIONS_core)
  = ["AL"; "AK"; "AZ"; "CA"; "CO"; "FL"; "GA"; "HI"; "ID"; "IL"; "MA"; "MN";
     "NY"; "OH"; "OR"; "PA"; "TX"; "VA"; "WA"] /\
  StronglySorted (name_not_after String.compare)
    (statesSorted String.compare JURISDICTIONS_core).
Proof.
  split; [exact String_compare_consistent|].
  split; [vm_compute; reflexivity|].
  exact (proj1 (proj2 (C8_browse_order String.compare JURISDICTIONS_core
                         String_compare_consistent))).
Defined.

(** C8 fails as stated: two states with the same display name come out in
    the insertion order of the store, [ZZ] before [AA] when [ZZ] was
    defined first, so the tie is not broken by state code. *)
Lemma C8_tie_counterexample :
  String.compare (name (twin "ZZ")) (name (twin "AA")) = Eq /\
  String.compare "AA" "ZZ" = Lt /\
  map abbr (statesSorted String.compare twins_ZA) = ["ZZ"; "AA"] /\
  map abbr (statesSorted String.compare twins_AZ) = ["AA"; "ZZ"].
Proof. by_evaluation. Qed.

(** ** Source attribution *)

Lemma obj_set_keys {V} (o : jsobj V) k v k' :
  In k' (Object_keys (obj_set k v o)) <-> k' = k \/ In k' (Object_keys o).
Proof.
  rewrite !obj_get_In_keys. destruct (String.eqb k k') eqn:E.
  - apply String.eqb_eq in E. subst k'. rewrite obj_get_set_eq.
    split; [auto | discriminate].
  - apply String.eqb_neq in E. rewrite obj_get_set_ne by exact E.
    split; [auto | intros [H | H]; [congruence | exact H]].
Qed.

(** The keys of [{ ...a, ...b }] are the keys of [a] and the keys of [b]. *)
Lemma spread_keys {V} (a b : jsobj V) k :
  In k (Object_keys (spread a b)) <-> In k (Object_keys a) \/ In k (Object_keys b).
Proof.
  unfold spread. revert a. induction b as [|[k0 v0] b IH]; intro a; simpl.
  - intuition.
  - rewrite IH, obj_set_keys. simpl. intuition.
Qed.

Lemma becp_stateUrl_eq : becp_stateUrl = Some becp_state_page.
Proof. reflexivity. Qed.



Lemma sourceRow_becp (st : Jurisdiction) (o : jsobj CodeAdoption) :
  abbr st <> "" ->
  exists row, sourceRow st o (val "becp") = Ok (Some row) /\
              row_source row = "becp" /\ row_url row = becp_state_page (abbr st).
Proof.
  intro H. apply truthy_true in H.
  destruct (obj_get DATA_SOURCES "becp") as [src|] eqn:E;
    [|vm_compute in E; discriminate].
  destruct (sourceRow_known st o "becp" src E) as (row & Hrow & Hs & Hu).
  exists row. split; [exact Hrow|]. split; [exact Hs|]. rewrite Hu.
  vm_compute in E. injection E as <-. cbn [stateUrl]. rewrite H. reflexivity.
Qed.


Lemma showReport_local_sources (st : Jurisdiction) l n r :
  n <> "" -> showReport (Some st) (Some l) (Some n) = Ok r ->
  allAdoptedForSources r = spread (adopted st) (l_adopted l) /\
  buildSourcesPanel st true (spread (adopted st) (l_adopted l)) = Ok (footer r) /\
  codeCards r = cards_of (l_adopted l) (abbr st) /\
  (stateCodeCards r = cards_of (adopted st) (abbr st) \/ stateCodeCards r = []).
Proof.
  intros Hn H. apply truthy_true in Hn. unfold showReport, isLocal in H. rewrite Hn in H.
  showReport_steps H. simpl.
  repeat split. destruct (0 <? _); auto.
Qed.



(** ** The dataset *)

(** Every state is filed under its own abbreviation, and no code is used
    twice. *)
Lemma JURISDICTIONS_keys :
  forallb (fun kv => String.eqb (fst kv) (abbr (snd kv))) JURISDICTIONS = true /\
  NoDup (Object_keys JURISDICTIONS) /\
  List.length JURISDICTIONS = 50.
Proof.
  split; [by_evaluation|]. split; [|by_evaluation].
  assert (E : nodup string_dec (Object_keys JURISDICTIONS) = Object_keys JURISDICTIONS)
    by (vm_compute; reflexivity).
  rewrite <- E. apply NoDup_nodup.
Qed.

(** The fallback pass leaves the nineteen detailed states in front. *)
Lemma JURISDICTIONS_core_first : firstn 19 JURISDICTIONS = JURISDICTIONS_core.
Proof. by_evaluation. Qed.

(** No key of the dataset is an array index or the name of an inherited
    member. *)
Lemma JURISDICTIONS_plain :
  plain_store JURISDICTIONS = true /\
  plain_keys CODE_SOURCES = true /\ plain_keys DATA_SOURCES = true.
Proof. by_evaluation. Qed.

(** No state, city or county name of the dataset holds a digit. *)
Lemma JURISDICTIONS_digit_free : digit_free JURISDICTIONS = true.
Proof. by_evaluation. Qed.

(** The state code alone finds the state. *)
Example search_AZ :
  buildSuggestions JURISDICTIONS "AZ" = [state_suggestion (state_of JURISDICTIONS "AZ")].
Proof. by_evaluation. Qed.

(** A pasted postal address finds the city and the state; the street is a
    term that matches nothing and the zip code is no term at all. *)
Example search_address :
  search_terms "123 Main St, Phoenix, AZ 85001" = ["123 Main St"; "Phoenix"; "AZ"] /\
  map (fun s => (s_type s, s_label s, s_state s))
      (buildSuggestions JURISDICTIONS "123 Main St, Phoenix, AZ 85001")
  = [(CITY, "Phoenix", "AZ"); (STATE, "Arizona", "AZ")].
Proof. by_evaluation. Qed.

(** The report of Phoenix shows the city's own IBC entry; the state of
    Arizona has none. *)
Example report_Phoenix :
  rmap (fun r => (displayName r, jType r, codeCount r, amendCount r,
                  List.length (fireDistricts r), List.length (stateCodeCards r)))
       (selectSuggestion JURISDICTIONS
          (city_suggestion (state_of JURISDICTIONS "AZ") "Phoenix"))
  = Ok ("Phoenix", "CITY", 7, 13, 1, 2) /\
  obj_get (adopted (state_of JURISDICTIONS "AZ")) "IBC" = None.
Proof. by_evaluation. Qed.

(** ** Search: what a suggestion is *)

Lemma discovery_In (J : jsobj Jurisdiction) (terms : list string) c :
  In c (discovery J terms) <->
  exists term st, In term terms /\ In st (Object_values J) /\
                  In c (state_candidates (toLowerCase term) st).
Proof.
  unfold discovery. rewrite in_flat_map. split.
  - intros (term & Ht & Hc). apply in_flat_map in Hc. destruct Hc as (st & Hst & Hc).
    exists term, st. auto.
  - intros (term & st & Ht & Hst & Hc). exists term. split; [exact Ht|].
    apply in_flat_map. exists st. auto.
Qed.

Lemma state_candidates_In (t : string) (st : Jurisdiction) c :
  In c (state_candidates t st) <->
  (state_matches t st = true /\ c = (state_key st, state_suggestion st)) \/
  (exists city, In city (Object_keys (cities st)) /\ local_matches t city = true /\
                c = (city_key st city, city_suggestion st city)) \/
  (exists county, In county (Object_keys (counties st)) /\ local_matches t county = true /\
                  c = (county_key st county, county_suggestion st county)).
Proof.
  unfold state_candidates. rewrite !in_app_iff, !in_map_iff. split.
  - intros [H | [H | H]].
    + left. destruct (state_matches t st); [|contradiction].
      destruct H as [<- | []]. auto.
    + right. left. destruct H as (x & <- & Hx). apply filter_In in Hx.
      exists x. tauto.
    + right. right. destruct H as (x & <- & Hx). apply filter_In in Hx.
      exists x. tauto.
  - intros [[Hm ->] | [(x & Hin & Hm & ->) | (x & Hin & Hm & ->)]].
    + left. rewrite Hm. now left.
    + right. left. exists x. split; [reflexivity|]. apply filter_In. auto.
    + right. right. exists x. split; [reflexivity|]. apply filter_In. auto.
Qed.

Lemma buildSuggestions_In (J : jsobj Jurisdiction) (query : string) s :
  In s (buildSuggestions J query) ->
  exists c, In c (discovery J (search_terms query)) /\ s = snd c.
Proof.
  destruct (le_lt_dec 2 (String.length query)) as [H | H].
  - rewrite (buildSuggestions_discovery J query H). intro Hin.
    apply In_firstn in Hin. apply first_occurrences_subset in Hin.
    apply in_map_iff in Hin. destruct Hin as (c & <- & Hc). eauto.
  - unfold buildSuggestions. apply Nat.ltb_lt in H. rewrite H. contradiction.
Qed.

(** X1.  Every suggestion is a state of the store whose name holds a
    search term (or whose code is the term), or a city or county of such a
    state whose name holds a term; the comparison is made on lower-cased
    text. *)
Theorem search_sound (J : jsobj Jurisdiction) (query : string) (s : Suggestion) :
  In s (buildSuggestions J query) ->
  exists term st,
    In term (search_terms query) /\ In st (Object_values J) /\
    ((s = state_suggestion st /\
      (includes (toLowerCase (name st)) (toLowerCase term) = true \/
       toLowerCase (abbr st) = toLowerCase term)) \/
     (exists city, In city (Object_keys (cities st)) /\
                   includes (toLowerCase city) (toLowerCase term) = true /\
                   s = city_suggestion st city) \/
     (exists county, In county (Object_keys (counties st)) /\
                     includes (toLowerCase county) (toLowerCase term) = true /\
                     s = county_suggestion st county)).
Proof.
  intro Hin. destruct (buildSuggestions_In _ _ _ Hin) as (c & Hc & ->).
  apply discovery_In in Hc. destruct Hc as (term & st & Ht & Hst & Hc).
  exists term, st. split; [exact Ht|]. split; [exact Hst|].
  apply state_candidates_In in Hc.
  destruct Hc as [[Hm ->] | [(x & Hx & Hm & ->) | (x & Hx & Hm & ->)]].
  - left. split; [reflexivity|]. unfold state_matches in Hm.
    apply orb_true_iff in Hm. destruct Hm as [Hm | Hm]; [now left | right].
    now apply String.eqb_eq in Hm.
  - right. left. exists x. auto.
  - right. right. exists x. auto.
Qed.

Lemma search_sound_witness :
  exists term st,
    In term (search_terms "Denver, CO") /\ In st (Object_values JURISDICTIONS) /\
    ((city_suggestion (state_of JURISDICTIONS "CO") "Denver" = state_suggestion st /\
      (includes (toLowerCase (name st)) (toLowerCase term) = true \/
       toLowerCase (abbr st) = toLowerCase term)) \/
     (exists city, In city (Object_keys (cities st)) /\
                   includes (toLowerCase city) (toLowerCase term) = true /\
                   city_suggestion (state_of JURISDICTIONS "CO") "Denver"
                   = city_suggestion st city) \/
     (exists county, In county (Object_keys (counties st)) /\
                     includes (toLowerCase county) (toLowerCase term) = true /\
                     city_suggestion (state_of JURISDICTIONS "CO") "Denver"
                     = county_suggestion st county)).
Proof.
  apply (search_sound JURISDICTIONS "Denver, CO").
  vm_compute. left. reflexivity.
Defined.

(** ** Search, then select *)

Lemma smap_length (f : ascii -> ascii) (s : string) :
  String.length (smap f s) = String.length s.
Proof. induction s as [|c s IH]; simpl; [reflexivity | now rewrite IH]. Qed.

Lemma prefix_length (t s : string) :
  String.prefix t s = true -> String.length t <= String.length s.
Proof.
  revert t. induction s as [|b s IH]; intros [|a t]; simpl; try discriminate; try lia.
  destruct (ascii_dec a b); [|discriminate]. intro H. specialize (IH _ H). lia.
Qed.

Lemma includes_length (s t : string) :
  includes s t = true -> String.length t <= String.length s.
Proof.
  induction s as [|b s IH]; intro H; cbn [includes] in H;
    apply orb_true_iff in H; destruct H as [H | H].
  - now apply prefix_length.
  - discriminate.
  - now apply prefix_length.
  - specialize (IH H). simpl. lia.
Qed.

Lemma search_terms_long (query t : string) :
  In t (search_terms query) -> 2 <= String.length t.
Proof.
  unfold search_terms. intro H. apply filter_In in H. destruct H as [_ H].
  now apply Nat.leb_le in H.
Qed.

(** A name that holds a search term is not empty. *)
Lemma local_matches_named (query term x : string) :
  In term (search_terms query) -> local_matches (toLowerCase term) x = true -> x <> "".
Proof.
  intros Ht Hm. apply search_terms_long in Ht. unfold local_matches in Hm.
  apply includes_length in Hm. unfold toLowerCase in Hm. rewrite !smap_length in Hm.
  intros ->. simpl in Hm. lia.
Qed.

Lemma obj_get_In {V} (o : jsobj V) k v :
  NoDup (Object_keys o) -> In (k, v) o -> obj_get o k = Some v.
Proof.
  unfold Object_keys. induction o as [|[k0 v0] o IH]; simpl; intros Hnd Hin; [contradiction|].
  inversion Hnd as [|? ? Hnotin Hnd']; subst.
  destruct Hin as [E | Hin].
  - injection E as -> ->. now rewrite String.eqb_refl.
  - destruct (String.eqb k0 k) eqn:E.
    + apply String.eqb_eq in E. subst k0. exfalso. apply Hnotin.
      change k with (fst (k, v)). now apply in_map.
    + now apply IH.
Qed.

(** In a store filed by abbreviation, the abbreviation of a state finds
    that state. *)
Lemma filed_lookup (J : jsobj Jurisdiction) (st : Jurisdiction) :
  NoDup (Object_keys J) -> filed_by_abbr J -> In st (Object_values J) ->
  obj_get J (abbr st) = Some st.
Proof.
  intros Hnd Hf Hin. unfold Object_values in Hin. apply in_map_iff in Hin.
  destruct Hin as ([k v] & <- & Hin). simpl.
  unfold filed_by_abbr in Hf. rewrite Forall_forall in Hf.
  specialize (Hf _ Hin). simpl in Hf. rewrite Hf. now apply obj_get_In.
Qed.

Lemma obj_get_of_key {V} (o : jsobj V) k :
  In k (Object_keys o) -> exists v, obj_get o k = Some v.
Proof.
  intro H. apply obj_get_In_keys in H. destruct (obj_get o k) as [v|]; [eauto | congruence].
Qed.

Lemma report_of_local (st : Jurisdiction) l n :
  n <> "" ->
  exists r, showReport (Some st) (Some l) (Some n) = Ok r /\
            displayName r = n /\ adoptedCodes r = l_adopted l /\
            breadcrumb r = ["US"; name st; n].
Proof.
  intro Hn. destruct (showReport_total st (Some l) (Some n)) as [r Hr].
  exists r. split; [exact Hr|].
  apply truthy_true in Hn. unfold showReport, isLocal in Hr. rewrite Hn in Hr.
  showReport_steps Hr. simpl. auto.
Qed.

Lemma report_of_state (st : Jurisdiction) :
  exists r, showReport (Some st) None None = Ok r /\
            displayName r = name st /\ adoptedCodes r = adopted st /\
            breadcrumb r = ["US"; name st].
Proof.
  destruct (showReport_total st None None) as [r Hr].
  exists r. split; [exact Hr|]. showReport_steps Hr. simpl. auto.
Qed.

(** The selection of a state, and of a place that its maps hold. *)
Lemma selectSuggestion_state (J : jsobj Jurisdiction) (s : Suggestion) st :
  obj_get J (s_state s) = Some st -> nonempty (s_city s) = None ->
  nonempty (s_county s) = None ->
  selectSuggestion J s = showReport (Some st) None None.
Proof.
  intros Hst Hc Hk. unfold selectSuggestion. now rewrite (read_own _ _ _ Hst), Hc, Hk.
Qed.

Lemma selectSuggestion_city (J : jsobj Jurisdiction) (s : Suggestion) st city l :
  obj_get J (s_state s) = Some st -> nonempty (s_city s) = Some city ->
  obj_get (cities st) city = Some l ->
  selectSuggestion J s = showReport (Some st) (Some l) (Some city).
Proof.
  intros Hst Hc Hl. unfold selectSuggestion.
  now rewrite (read_own _ _ _ Hst), Hc, (read_own _ _ _ Hl).
Qed.

Lemma selectSuggestion_county (J : jsobj Jurisdiction) (s : Suggestion) st county l :
  obj_get J (s_state s) = Some st -> nonempty (s_city s) = None ->
  nonempty (s_county s) = Some county ->
  obj_get (counties st) county = Some l ->
  selectSuggestion J s = showReport (Some st) (Some l) (Some county).
Proof.
  intros Hst Hc Hk Hl. unfold selectSuggestion.
  now rewrite (read_own _ _ _ Hst), Hc, Hk, (read_own _ _ _ Hl).
Qed.

(** A suggestion of the search resolves to the report of what it stands
    for. *)
Lemma suggestion_selects (J : jsobj Jurisdiction) (query : string) (s : Suggestion) :
  NoDup (Object_keys J) -> filed_by_abbr J ->
  In s (buildSuggestions J query) ->
  exists st r,
    obj_get J (s_state s) = Some st /\
    selectSuggestion J s = Ok r /\
    displayName r = s_label s /\
    match s_type s with
    | STATE => adoptedCodes r = adopted st /\ breadcrumb r = ["US"; name st]
    | CITY =>
        exists l, obj_get (cities st) (s_label s) = Some l /\
                  adoptedCodes r = l_adopted l /\
                  breadcrumb r = ["US"; name st; s_label s]
    | COUNTY =>
        exists l, obj_get (counties st) (s_label s) = Some l /\
                  adoptedCodes r = l_adopted l /\
                  breadcrumb r = ["US"; name st; s_label s]
    end.
Proof.
  intros Hnd Hf Hin. destruct (buildSuggestions_In _ _ _ Hin) as (c & Hc & ->).
  apply discovery_In in Hc. destruct Hc as (term & st & Ht & Hst & Hc).
  pose proof (filed_lookup _ _ Hnd Hf Hst) as Hget.
  exists st. apply state_candidates_In in Hc.
  destruct Hc as [[Hm ->] | [(x & Hx & Hm & ->) | (x & Hx & Hm & ->)]];
    cbn [snd s_state s_city s_county s_label s_type
      state_suggestion city_suggestion county_suggestion].
  - destruct (report_of_state st) as (r & Hr & Hd & Ha & Hb).
    exists r. split; [exact Hget|]. split; [|auto].
    rewrite <- Hr. now apply selectSuggestion_state.
  - pose proof (local_matches_named _ _ _ Ht Hm) as Hne.
    destruct (obj_get_of_key _ _ Hx) as [l Hl].
    destruct (report_of_local st l x Hne) as (r & Hr & Hd & Ha & Hb).
    exists r. split; [exact Hget|]. split; [|split; [exact Hd | exists l; auto]].
    rewrite <- Hr. apply selectSuggestion_city; [exact Hget | | exact Hl].
    now apply nonempty_Some.
  - pose proof (local_matches_named _ _ _ Ht Hm) as Hne.
    destruct (obj_get_of_key _ _ Hx) as [l Hl].
    destruct (report_of_local st l x Hne) as (r & Hr & Hd & Ha & Hb).
    exists r. split; [exact Hget|]. split; [|split; [exact Hd | exists l; auto]].
    rewrite <- Hr. apply selectSuggestion_county; [exact Hget | reflexivity | | exact Hl].
    now apply nonempty_Some.
Qed.

(** X2.  In a store where every state is filed under its own abbreviation,
    every suggestion the search returns can be selected: no error is
    raised, the report is titled with the label of the suggestion, and it
    shows the code books of the state, city or county the suggestion
    stands for. *)
Theorem search_then_select (J : jsobj Jurisdiction) (query : string) (s : Suggestion) :
  NoDup (Object_keys J) -> filed_by_abbr J ->
  In s (buildSuggestions J query) ->
  exists st r,
    obj_get J (s_state s) = Some st /\
    selectSuggestion J s = Ok r /\
    displayName r = s_label s /\
    match s_type s with
    | STATE => adoptedCodes r = adopted st /\ breadcrumb r = ["US"; name st]
    | CITY =>
        exists l, obj_get (cities st) (s_label s) = Some l /\
                  adoptedCodes r = l_adopted l /\
                  breadcrumb r = ["US"; name st; s_label s]
    | COUNTY =>
        exists l, obj_get (counties st) (s_label s) = Some l /\
                  adoptedCodes r = l_adopted l /\
                  breadcrumb r = ["US"; name st; s_label s]
    end.
Proof. apply suggestion_selects. Qed.

Lemma JURISDICTIONS_filed : NoDup (Object_keys JURISDICTIONS) /\ filed_by_abbr JURISDICTIONS.
Proof.
  split; [apply JURISDICTIONS_keys|].
  unfold filed_by_abbr. apply Forall_forall. intros kv Hin.
  pose proof (proj1 JURISDICTIONS_keys) as H. rewrite forallb_forall in H.
  specialize (H kv Hin). apply String.eqb_eq in H. symmetry. exact H.
Qed.

Lemma search_then_select_witness :
  exists st r,
    obj_get JURISDICTIONS "AZ" = Some st /\
    selectSuggestion JURISDICTIONS (city_suggestion (state_of JURISDICTIONS "AZ") "Phoenix")
    = Ok r /\
    displayName r = "Phoenix".
Proof.
  destruct (search_then_select JURISDICTIONS "Phoenix, AZ"
              (city_suggestion (state_of JURISDICTIONS "AZ") "Phoenix")
              (proj1 JURISDICTIONS_filed) (proj2 JURISDICTIONS_filed))
    as (st & r & Hst & Hr & Hd & _).
  - vm_compute. left. reflexivity.
  - exists st, r. auto.
Defined.

(** X3.  In such a store, pressing Enter or the search button never raises:
    nothing happens when there is no suggestion, and otherwise the report
    of the first suggestion is shown. *)
Theorem searchSubmit_safe (J : jsobj Jurisdiction) (value : string) :
  NoDup (Object_keys J) -> filed_by_abbr J ->
  (searchSubmit J value = None /\ buildSuggestions J value = []) \/
  (exists s r, hd_error (buildSuggestions J value) = Some s /\
               searchSubmit J value = Some (Ok r) /\ displayName r = s_label s).
Proof.
  intros Hnd Hf. unfold searchSubmit.
  destruct (buildSuggestions J value) as [|s rest] eqn:E; [now left | right].
  destruct (suggestion_selects J value s Hnd Hf) as (st & r & _ & Hr & Hd & _).
  { rewrite E. now left. }
  exists s, r. rewrite Hr. auto.
Qed.

Lemma searchSubmit_safe_witness :
  (searchSubmit JURISDICTIONS "Phoenix" = None /\ buildSuggestions JURISDICTIONS "Phoenix" = []) \/
  (exists s r, hd_error (buildSuggestions JURISDICTIONS "Phoenix") = Some s /\
               searchSubmit JURISDICTIONS "Phoenix" = Some (Ok r) /\ displayName r = s_label s).
Proof.
  exact (searchSubmit_safe JURISDICTIONS "Phoenix"
           (proj1 JURISDICTIONS_filed) (proj2 JURISDICTIONS_filed)).
Defined.

(** ** Search: nothing is lost below the cap *)

Lemma firstn_short {A} (n : nat) (l : list A) :
  List.length (firstn n l) < n -> firstn n l = l.
Proof.
  intro H. rewrite length_firstn in H. apply firstn_all2. lia.
Qed.

Lemma trimStart_length (s : string) : String.length (trimStart s) <= String.length s.
Proof.
  induction s as [|c s IH]; simpl; [lia|]. destruct (isWhiteSpace c); simpl; lia.
Qed.

Lemma trimEnd_length (s : string) : String.length (trimEnd s) <= String.length s.
Proof.
  induction s as [|c s IH]; [simpl; lia|]. rewrite trimEnd_cons.
  destruct (trimEnd s) as [|c' r]; [destruct (isWhiteSpace c)|]; simpl in *; lia.
Qed.

Lemma trim_length (s : string) : String.length (trim s) <= String.length s.
Proof.
  unfold trim. pose proof (trimEnd_length (trimStart s)). pose proof (trimStart_length s). lia.
Qed.

Lemma search_terms_of_short (query : string) :
  String.length query < 2 -> search_terms query = [].
Proof.
  intro H. unfold search_terms. apply filter_none. intros p Hp.
  apply Set_of_subset in Hp.
  assert (Hq : String.length (trim query) < 2) by (pose proof (trim_length query); lia).
  apply (rawParts_short _ _ Hq) in Hp. apply Nat.leb_gt. lia.
Qed.

(** A candidate is kept, or a candidate with the same key was kept or
    seen before it. *)
Lemma first_occurrences_complete (cands : list Candidate) (seen : list string) c :
  In c cands ->
  Set_has seen (fst c) = true \/
  exists c', In c' cands /\ fst c' = fst c /\ In (snd c') (first_occurrences seen cands).
Proof.
  revert seen. induction cands as [|[k s] cands IH]; intros seen Hin; [contradiction|].
  cbn [first_occurrences]. destruct (Set_has seen k) eqn:E.
  - destruct Hin as [<- | Hin]; [now left|].
    destruct (IH seen Hin) as [H | (c' & Hc' & Hk & Hr)]; [now left | right].
    exists c'. split; [now right | auto].
  - destruct Hin as [<- | Hin].
    + right. exists (k, s). split; [now left|]. split; [reflexivity | now left].
    + destruct (IH (Set_add seen k) Hin) as [H | (c' & Hc' & Hk & Hr)].
      * rewrite (Set_add_fresh _ _ E), Set_has_app in H.
        apply orb_true_iff in H. destruct H as [H | H]; [now left | right].
        apply Set_has_In in H. destruct H as [H | []].
        exists (k, s). split; [now left|]. split; [exact H | now left].
      * right. exists c'. split; [now right|]. split; [exact Hk | now right].
Qed.

Lemma before_colon (a a' n n' : string) :
  has_char ":" a = false -> has_char ":" a' = false ->
  (a ++ ":" ++ n)%string = (a' ++ ":" ++ n')%string -> a = a' /\ n = n'.
Proof.
  revert a'. induction a as [|c a IH]; intros [|c' a']; simpl; intros Ha Ha' E.
  - injection E as E. split; [reflexivity | exact E].
  - injection E as E1 E2. subst c'. rewrite Ascii.eqb_refl in Ha'. discriminate.
  - injection E as E1 E2. subst c. rewrite Ascii.eqb_refl in Ha. discriminate.
  - injection E as E1 E2. subst c'.
    apply orb_false_elim in Ha. apply orb_false_elim in Ha'.
    destruct (IH a' (proj2 Ha) (proj2 Ha') E2) as [E3 E4].
    split; [now rewrite E3 | exact E4].
Qed.

(** With state codes free of colons, candidates with the same key have
    the same identity. *)
Lemma same_key_same_identity (st st' : Jurisdiction) c c' :
  has_char ":" (abbr st) = false -> has_char ":" (abbr st') = false ->
  candidate_of st c -> candidate_of st' c' -> fst c = fst c' ->
  identity (snd c) = identity (snd c').
Proof.
  intros Ha Ha' Hc Hc'.
  destruct Hc; destruct Hc'; unfold state_key, city_key, county_key, identity, local_name;
    simpl; intro E; try discriminate.
  - injection E as E. now rewrite E.
  - injection E as E. apply before_colon in E; auto. destruct E as [-> ->]. reflexivity.
  - injection E as E. apply before_colon in E; auto. destruct E as [-> ->]. reflexivity.
Qed.

Lemma discovery_candidate_of (J : jsobj Jurisdiction) (terms : list string) c :
  In c (discovery J terms) ->
  exists st, In st (Object_values J) /\ candidate_of st c.
Proof.
  intro H. apply discovery_In in H. destruct H as (term & st & _ & Hst & Hc).
  exists st. split; [exact Hst|]. apply state_candidates_In in Hc.
  destruct Hc as [[_ ->] | [(x & _ & _ & ->) | (x & _ & _ & ->)]]; constructor.
Qed.

Lemma colon_free_abbr (J : jsobj Jurisdiction) (st : Jurisdiction) :
  colon_free J = true -> In st (Object_values J) -> has_char ":" (abbr st) = false.
Proof.
  unfold colon_free. rewrite forallb_forall. intros H Hin.
  specialize (H st Hin). now apply negb_true_iff in H.
Qed.

Lemma search_keeps_candidate (J : jsobj Jurisdiction) (query : string) c :
  colon_free J = true -> List.length (buildSuggestions J query) < 8 ->
  In c (discovery J (search_terms query)) ->
  exists r, In r (buildSuggestions J query) /\ identity r = identity (snd c).
Proof.
  intros Hcf Hlen Hc.
  destruct (le_lt_dec 2 (String.length query)) as [H | H].
  - rewrite (buildSuggestions_discovery J query H) in *.
    rewrite (firstn_short _ _ Hlen).
    destruct (first_occurrences_complete _ [] _ Hc) as [Hs | (c' & Hc' & Hk & Hr)];
      [discriminate|].
    exists (snd c'). split; [exact Hr|].
    destruct (discovery_candidate_of _ _ _ Hc) as (st & Hst & Hof).
    destruct (discovery_candidate_of _ _ _ Hc') as (st' & Hst' & Hof').
    apply (same_key_same_identity st' st); auto; now apply (colon_free_abbr J).
  - rewrite (search_terms_of_short _ H) in Hc. contradiction.
Qed.

(** X4.  When the search returns fewer than 8 suggestions, no match is
    missing: for every search term, every state of the store whose name or
    code matches it, and every city or county whose name matches it, is on
    the list (state codes being free of colons). *)
Theorem search_complete_below_cap (J : jsobj Jurisdiction) (query : string) :
  colon_free J = true -> List.length (buildSuggestions J query) < 8 ->
  forall term st,
    In term (search_terms query) -> In st (Object_values J) ->
    (state_matches (toLowerCase term) st = true ->
     exists r, In r (buildSuggestions J query) /\ identity r = (STATE, abbr st, None)) /\
    (forall city,
       In city (Object_keys (cities st)) -> local_matches (toLowerCase term) city = true ->
       exists r, In r (buildSuggestions J query) /\ identity r = (CITY, abbr st, Some city)) /\
    (forall county,
       In county (Object_keys (counties st)) ->
       local_matches (toLowerCase term) county = true ->
       exists r, In r (buildSuggestions J query) /\
                 identity r = (COUNTY, abbr st, Some county)).
Proof.
  intros Hcf Hlen term st Ht Hst.
  assert (Hkeep : forall c, In c (state_candidates (toLowerCase term) st) ->
            exists r, In r (buildSuggestions J query) /\ identity r = identity (snd c)).
  { intros c Hc. apply search_keeps_candidate; auto.
    apply discovery_In. exists term, st. auto. }
  split; [|split].
  - intro Hm. apply (Hkeep (state_key st, state_suggestion st)).
    apply state_candidates_In. left. auto.
  - intros city Hin Hm. apply (Hkeep (city_key st city, city_suggestion st city)).
    apply state_candidates_In. right. left. exists city. auto.
  - intros county Hin Hm.
    apply (Hkeep (county_key st county, county_suggestion st county)).
    apply state_candidates_In. right. right. exists county. auto.
Qed.

Lemma search_complete_below_cap_witness :
  exists r, In r (buildSuggestions JURISDICTIONS "york") /\
            identity r = (CITY, "NY", Some "New York City").
Proof.
  assert (Hcf : colon_free JURISDICTIONS = true) by (vm_compute; reflexivity).
  assert (Hlen : List.length (buildSuggestions JURISDICTIONS "york") < 8)
    by (vm_compute; lia).
  assert (Ht : In "york" (search_terms "york")) by (vm_compute; left; reflexivity).
  assert (Hst : In (state_of JURISDICTIONS "NY") (Object_values JURISDICTIONS)).
  { apply (obj_get_In_values JURISDICTIONS "NY"). vm_compute. reflexivity. }
  destruct (search_complete_below_cap JURISDICTIONS "york" Hcf Hlen "york"
              (state_of JURISDICTIONS "NY") Ht Hst) as (_ & Hcity & _).
  apply (Hcity "New York City").
  - vm_compute. left. reflexivity.
  - vm_compute. reflexivity.
Defined.

(** ** Search: the terms *)

Lemma dedup_In (l : list string) x : In x (dedup l) <-> In x l.
Proof.
  induction l as [|y l IH]; simpl; [tauto|].
  rewrite filter_In, IH. split.
  - intros [H | [H _]]; auto.
  - intros [H | H]; [now left|].
    destruct (String.eqb x y) eqn:E.
    + apply String.eqb_eq in E. left. now symmetry.
    + right. split; [exact H | reflexivity].
Qed.

Lemma NoDup_dedup (l : list string) : NoDup (dedup l).
Proof.
  induction l as [|x l IH]; simpl; constructor.
  - intro H. apply filter_In in H. destruct H as [_ H].
    rewrite String.eqb_refl in H. discriminate.
  - now apply NoDup_filter.
Qed.

Lemma trimStart_idem (s : string) : trimStart (trimStart s) = trimStart s.
Proof.
  induction s as [|c s IH]; simpl; [reflexivity|].
  destruct (isWhiteSpace c) eqn:E; [exact IH | simpl; now rewrite E].
Qed.

Lemma trimEnd_idem (s : string) : trimEnd (trimEnd s) = trimEnd s.
Proof.
  induction s as [|c s IH]; [reflexivity|]. rewrite trimEnd_cons.
  destruct (trimEnd s) as [|c' r] eqn:E.
  - destruct (isWhiteSpace c) eqn:Ec; [reflexivity|].
    rewrite trimEnd_cons. cbn [trimEnd]. now rewrite Ec.
  - rewrite trimEnd_cons, IH. reflexivity.
Qed.

(** Trimming a trimmed string changes nothing. *)
Lemma trim_idem (s : string) : trim (trim s) = trim s.
Proof.
  unfold trim. rewrite <- (trimEnd_trimStart (trimStart s)).
  rewrite trimStart_idem. apply trimEnd_idem.
Qed.

Lemma append_assoc (a b c : string) : ((a ++ b) ++ c)%string = (a ++ b ++ c)%string.
Proof. induction a as [|x a IH]; simpl; [reflexivity | now rewrite IH]. Qed.

Lemma append_nil_r (a : string) : (a ++ "")%string = a.
Proof. induction a as [|x a IH]; simpl; [reflexivity | now rewrite IH]. Qed.

Lemma part_of_refl (s : string) : part_of s s.
Proof. exists "", "". simpl. now rewrite append_nil_r. Qed.

Lemma part_of_trans (t u s : string) : part_of t u -> part_of u s -> part_of t s.
Proof.
  intros (a & b & ->) (a' & b' & ->). exists (a' ++ a)%string, (b ++ b')%string.
  now rewrite !append_assoc.
Qed.

Lemma part_of_cons (c : ascii) (t s : string) : part_of t s -> part_of t (String c s).
Proof. intros (a & b & ->). exists (String c a), b. reflexivity. Qed.

Lemma trimStart_part (s : string) : part_of (trimStart s) s.
Proof.
  induction s as [|c s IH]; simpl; [apply part_of_refl|].
  destruct (isWhiteSpace c); [now apply part_of_cons | apply part_of_refl].
Qed.

Lemma prefix_part (p z s : string) : s = (p ++ z)%string -> part_of p s.
Proof. intros ->. exists "", z. reflexivity. Qed.

Lemma trimEnd_cut (s : string) : exists z, s = (trimEnd s ++ z)%string.
Proof.
  induction s as [|c s IH]; [now exists ""|]. rewrite trimEnd_cons.
  destruct IH as [z Hz]. destruct (trimEnd s) as [|c' r].
  - destruct (isWhiteSpace c).
    + now exists (String c s).
    + exists s. reflexivity.
  - exists z. simpl in *. now rewrite <- Hz.
Qed.

Lemma trim_part (s : string) : part_of (trim s) s.
Proof.
  unfold trim. apply part_of_trans with (trimStart s); [|apply trimStart_part].
  destruct (trimEnd_cut (trimStart s)) as [z Hz]. now apply prefix_part with z.
Qed.

Lemma replace_zip_part (s : string) : part_of (replace_zip s) s.
Proof. destruct (replace_zip_cut s) as (z & Hz & _). now apply prefix_part with z. Qed.

Lemma split_part (sep : ascii) (s p : string) : In p (split sep s) -> part_of p s.
Proof.
  revert p. induction s as [|c s IH]; simpl; intros p Hin.
  - destruct Hin as [<- | []]. apply part_of_refl.
  - destruct (Ascii.eqb c sep).
    + destruct Hin as [<- | Hin]; [now exists "", (String c s) | now apply part_of_cons, IH].
    + destruct (split sep s) as [|p0 ps] eqn:E.
      * destruct Hin as [<- | []]. exists "", s. reflexivity.
      * destruct Hin as [<- | Hin]; [|apply part_of_cons, IH; now right].
        destruct (IH p0 (or_introl eq_refl)) as (a & b & Hab).
        (* the first piece starts the string *)
        assert (Hstart : exists b', s = (p0 ++ b')%string).
        { clear - E. revert p0 ps E. induction s as [|d s IHs]; simpl; intros p0 ps E.
          - injection E as <- _. now exists "".
          - destruct (Ascii.eqb d sep).
            + injection E as <- _. now exists (String d s).
            + destruct (split sep s) as [|q0 qs] eqn:E'.
              * injection E as <- _. exists s. reflexivity.
              * injection E as <- _. destruct (IHs q0 qs eq_refl) as [b' ->].
                now exists b'. }
        destruct Hstart as [b' ->]. exists "", b'. reflexivity.
Qed.

Lemma has_char_app (c : ascii) (a b : string) :
  has_char c (a ++ b)%string = has_char c a || has_char c b.
Proof.
  induction a as [|x a IH]; simpl; [reflexivity|]. now rewrite IH, orb_assoc.
Qed.

Lemma has_char_part (c : ascii) (t s : string) :
  part_of t s -> has_char c s = false -> has_char c t = false.
Proof.
  intros (a & b & ->). rewrite !has_char_app. intro H.
  apply orb_false_elim in H. destruct H as [_ H].
  now apply orb_false_elim in H.
Qed.

Lemma split_no_sep (sep : ascii) (s p : string) :
  In p (split sep s) -> has_char sep p = false.
Proof.
  revert p. induction s as [|c s IH]; simpl; intros p Hin.
  - now destruct Hin as [<- | []].
  - destruct (Ascii.eqb c sep) eqn:Ec.
    + destruct Hin as [<- | Hin]; [reflexivity | auto].
    + destruct (split sep s) as [|p0 ps] eqn:E.
      * destruct Hin as [<- | []]. simpl. now rewrite Ec.
      * destruct Hin as [<- | Hin]; [|apply IH; now right].
        simpl. rewrite Ec. apply IH. now left.
Qed.

(** X5.  The search terms of a query are pairwise different, have at least
    2 characters, have no whitespace at either end, hold no comma, and each
    is a run of consecutive characters of the query. *)
Theorem search_terms_shape (query : string) :
  NoDup (search_terms query) /\
  (forall t, In t (search_terms query) ->
     2 <= String.length t /\ trim t = t /\ has_char "," t = false /\ part_of t query).
Proof.
  split.
  - unfold search_terms. rewrite Set_of_dedup. apply NoDup_filter, NoDup_dedup.
  - intros t Ht. split; [now apply search_terms_long in Ht|].
    unfold search_terms in Ht. apply filter_In in Ht. destruct Ht as [Ht _].
    apply Set_of_subset in Ht. unfold rawParts in Ht. apply in_map_iff in Ht.
    destruct Ht as (p & <- & Hp).
    assert (Hpart : part_of (trim (replace_zip (trim p))) p).
    { eapply part_of_trans; [apply trim_part|].
      eapply part_of_trans; [apply replace_zip_part | apply trim_part]. }
    split; [apply trim_idem|]. split.
    + eapply has_char_part; [exact Hpart | now apply split_no_sep with query].
    + eapply part_of_trans; [exact Hpart | now apply split_part with ","%char].
Qed.

Lemma search_terms_shape_witness :
  2 <= String.length "Phoenix" /\ trim "Phoenix" = "Phoenix" /\
  has_char "," "Phoenix" = false /\ part_of "Phoenix" "123 Main St, Phoenix, AZ 85001".
Proof.
  apply (proj2 (search_terms_shape "123 Main St, Phoenix, AZ 85001")).
  vm_compute. right. left. reflexivity.
Defined.

(** ** Search: upper and lower case *)

Ltac by_cases_on_char c :=
  destruct c as [[] [] [] [] [] [] [] []]; reflexivity.

Lemma lower_idem (c : ascii) : lower (lower c) = lower c.
Proof. by_cases_on_char c. Qed.

Lemma isWhiteSpace_lower (c : ascii) : isWhiteSpace (lower c) = isWhiteSpace c.
Proof. by_cases_on_char c. Qed.

Lemma isDigit_lower (c : ascii) : isDigit (lower c) = isDigit c.
Proof. by_cases_on_char c. Qed.

Lemma comma_lower (c : ascii) : Ascii.eqb (lower c) "," = Ascii.eqb c ",".
Proof. by_cases_on_char c. Qed.

Lemma hyphen_lower (c : ascii) : Ascii.eqb (lower c) "-" = Ascii.eqb c "-".
Proof. by_cases_on_char c. Qed.

Lemma toLowerCase_idem (s : string) : toLowerCase (toLowerCase s) = toLowerCase s.
Proof.
  unfold toLowerCase. induction s as [|c s IH]; simpl; [reflexivity|].
  now rewrite lower_idem, IH.
Qed.

Lemma toLowerCase_length (s : string) : String.length (toLowerCase s) = String.length s.
Proof. apply smap_length. Qed.

Lemma split_lower (s : string) :
  split "," (toLowerCase s) = map toLowerCase (split "," s).
Proof.
  unfold toLowerCase. induction s as [|c s IH]; simpl; [reflexivity|].
  rewrite comma_lower, IH. destruct (Ascii.eqb c ","); [reflexivity|].
  destruct (split "," s); reflexivity.
Qed.

Lemma trimStart_lower (s : string) : trimStart (toLowerCase s) = toLowerCase (trimStart s).
Proof.
  unfold toLowerCase. induction s as [|c s IH]; simpl; [reflexivity|].
  rewrite isWhiteSpace_lower. destruct (isWhiteSpace c); [exact IH | reflexivity].
Qed.

Lemma trimEnd_lower (s : string) : trimEnd (toLowerCase s) = toLowerCase (trimEnd s).
Proof.
  unfold toLowerCase. induction s as [|c s IH]; [reflexivity|].
  cbn [smap]. rewrite !trimEnd_cons, IH, isWhiteSpace_lower.
  destruct (trimEnd s); [destruct (isWhiteSpace c)|]; reflexivity.
Qed.

Lemma trim_lower (s : string) : trim (toLowerCase s) = toLowerCase (trim s).
Proof. unfold trim. now rewrite trimStart_lower, trimEnd_lower. Qed.

Lemma digits_lower (n : nat) (s : string) :
  digits n (toLowerCase s) = option_map toLowerCase (digits n s).
Proof.
  unfold toLowerCase. revert s. induction n as [|n IH]; intro s; [reflexivity|].
  destruct s as [|c s]; simpl; [reflexivity|].
  rewrite isDigit_lower. destruct (isDigit c); [apply IH | reflexivity].
Qed.

Lemma zip_here_lower (s : string) : zip_here (toLowerCase s) = zip_here s.
Proof.
  unfold zip_here. rewrite digits_lower.
  destruct (digits 5 s) as [[|c r]|]; cbn [option_map]; try reflexivity.
  change (toLowerCase (String c r)) with (String (lower c) (toLowerCase r)).
  cbv beta iota. rewrite hyphen_lower, digits_lower.
  destruct (digits 4 r) as [[|c' r']|]; reflexivity.
Qed.

Lemma zip_re_here_lower (s : string) : zip_re_here (toLowerCase s) = zip_re_here s.
Proof.
  induction s as [|c s IH]; [reflexivity|].
  change (toLowerCase (String c s)) with (String (lower c) (toLowerCase s)).
  cbn [zip_re_here]. now rewrite isWhiteSpace_lower, zip_here_lower, IH.
Qed.

Lemma replace_zip_lower (s : string) :
  replace_zip (toLowerCase s) = toLowerCase (replace_zip s).
Proof.
  induction s as [|c s IH]; [reflexivity|].
  rewrite (replace_zip_unfold (String c s)), replace_zip_unfold, zip_re_here_lower.
  destruct (zip_re_here (String c s)); [reflexivity|].
  change (toLowerCase (String c s)) with (String (lower c) (toLowerCase s)).
  cbv beta iota. rewrite IH. reflexivity.
Qed.

Lemma rawParts_lower (query : string) :
  rawParts (toLowerCase query) = map toLowerCase (rawParts query).
Proof.
  unfold rawParts. rewrite split_lower, !map_map. apply map_ext. intro p.
  now rewrite trim_lower, replace_zip_lower, trim_lower.
Qed.

(** *** Lists without their repeated elements *)

Lemma filter_comm {A} (p q : A -> bool) (l : list A) :
  filter p (filter q l) = filter q (filter p l).
Proof.
  induction l as [|x l IH]; simpl; [reflexivity|].
  destruct (p x) eqn:Ep, (q x) eqn:Eq; simpl; rewrite ?Ep, ?Eq, IH; reflexivity.
Qed.

Lemma filter_all {A} (p : A -> bool) (l : list A) :
  (forall x, In x l -> p x = true) -> filter p l = l.
Proof.
  induction l as [|x l IH]; simpl; intro H; [reflexivity|].
  rewrite (H x (or_introl eq_refl)), IH; auto.
Qed.

Lemma filter_dedup (p : string -> bool) (l : list string) :
  filter p (dedup l) = dedup (filter p l).
Proof.
  induction l as [|x l IH]; simpl; [reflexivity|].
  destruct (p x) eqn:E; simpl.
  - now rewrite filter_comm, IH.
  - rewrite filter_comm, IH. apply filter_all. intros y Hy.
    apply dedup_In, filter_In in Hy. destruct Hy as [_ Hy].
    destruct (String.eqb y x) eqn:Eyx; [|reflexivity].
    apply String.eqb_eq in Eyx. subst y. congruence.
Qed.

Lemma filter_map_dropped (g : string -> string) (q : string -> bool) (y : string)
    (l : list string) :
  (forall m, In m l -> q m = false -> g m = y) ->
  filter (fun z => negb (String.eqb z y)) (map g (filter q l))
  = filter (fun z => negb (String.eqb z y)) (map g l).
Proof.
  induction l as [|m l IH]; simpl; intro H; [reflexivity|].
  destruct (q m) eqn:E; simpl.
  - rewrite IH; auto.
  - rewrite (H m (or_introl eq_refl) E), String.eqb_refl. simpl. apply IH. auto.
Qed.

Lemma dedup_map_dedup (g : string -> string) (l : list string) :
  dedup (map g (dedup l)) = dedup (map g l).
Proof.
  induction l as [|x l IH]; simpl; [reflexivity|]. f_equal.
  rewrite (filter_dedup _ (map g (filter _ (dedup l)))), (filter_dedup _ (map g l)).
  rewrite filter_map_dropped.
  - rewrite <- !filter_dedup, IH. reflexivity.
  - intros m _ Hm. apply negb_false_iff, String.eqb_eq in Hm. now subst.
Qed.

(** *** A repeated term finds nothing new *)

Lemma collect_seen (cands : list Candidate) (a : SearchAcc) :
  (forall c, In c cands -> Set_has (snd a) (fst c) = true) -> collect a cands = a.
Proof.
  revert a. induction cands as [|[k s] cands IH]; intros a H; [reflexivity|].
  change (collect a ((k, s) :: cands)) with (collect (push_unseen k s a) cands).
  pose proof (H (k, s) (or_introl eq_refl)) as Hk. simpl in Hk.
  unfold push_unseen. rewrite Hk.
  apply IH. intros c Hc. apply H. now right.
Qed.

Lemma push_unseen_keeps (k : string) (s : Suggestion) (a : SearchAcc) x :
  Set_has (snd a) x = true -> Set_has (snd (push_unseen k s a)) x = true.
Proof.
  intro H. unfold push_unseen. destruct (Set_has (snd a) k) eqn:E; [exact H|].
  simpl. apply Set_has_In, Set_add_In. left. now apply Set_has_In.
Qed.

Lemma push_unseen_marks (k : string) (s : Suggestion) (a : SearchAcc) :
  Set_has (snd (push_unseen k s a)) k = true.
Proof.
  unfold push_unseen. destruct (Set_has (snd a) k) eqn:E; [exact E|].
  simpl. apply Set_has_In, Set_add_In. now right.
Qed.

Lemma collect_keeps (cands : list Candidate) (a : SearchAcc) x :
  Set_has (snd a) x = true -> Set_has (snd (collect a cands)) x = true.
Proof.
  revert a. induction cands as [|[k s] cands IH]; intros a H; [exact H|].
  change (collect a ((k, s) :: cands)) with (collect (push_unseen k s a) cands).
  apply IH. now apply push_unseen_keeps.
Qed.

Lemma collect_marks (cands : list Candidate) (a : SearchAcc) c :
  In c cands -> Set_has (snd (collect a cands)) (fst c) = true.
Proof.
  revert a. induction cands as [|[k s] cands IH]; intros a Hin; [contradiction|].
  change (collect a ((k, s) :: cands)) with (collect (push_unseen k s a) cands).
  destruct Hin as [<- | Hin]; [|now apply IH].
  apply collect_keeps. apply push_unseen_marks.
Qed.

Section Repeats.
Variable found : string -> list Candidate.

Lemma visit_repeats (terms done : list string) (a : SearchAcc) :
  (forall t c, In t done -> In c (found t) -> Set_has (snd a) (fst c) = true) ->
  fold_left (visit_lowered found) terms a
  = fold_left (visit_lowered found) (filter (fun t => negb (Set_has done t)) (dedup terms)) a.
Proof.
  revert done a. induction terms as [|x terms IH]; intros done a Hdone; [reflexivity|].
  cbn [fold_left dedup filter]. destruct (Set_has done x) eqn:E; cbn [negb].
  - rewrite filter_has_drop by exact E.
    assert (Hx : visit_lowered found a x = a).
    { apply collect_seen. intros c Hc. apply (Hdone x c); auto. now apply Set_has_In. }
    rewrite Hx. now apply IH.
  - cbn [fold_left]. rewrite <- filter_filter_fresh. apply IH.
    intros t c Ht Hc. apply in_app_or in Ht. destruct Ht as [Ht | [<- | []]].
    + apply collect_keeps. now apply (Hdone t c).
    + now apply collect_marks.
Qed.

Lemma visit_dedup (terms : list string) (a : SearchAcc) :
  fold_left (visit_lowered found) terms a = fold_left (visit_lowered found) (dedup terms) a.
Proof.
  rewrite (visit_repeats terms [] a) by (intros t c []).
  now rewrite filter_all.
Qed.

End Repeats.

Lemma visit_terms_lowered (J : jsobj Jurisdiction) (terms : list string) (a : SearchAcc) :
  fold_left (visit_term J) terms a
  = fold_left (visit_lowered (fun t => flat_map (state_candidates t) (Object_values J)))
              (map toLowerCase terms) a.
Proof.
  revert a. induction terms as [|x terms IH]; intro a; simpl; [reflexivity|].
  rewrite IH. unfold visit_term, visit_lowered. now rewrite visit_states_collect.
Qed.

Lemma filter_map_length (f : string -> string) (l : list string) :
  (forall s, String.length (f s) = String.length s) ->
  filter (fun p => 2 <=? String.length p) (map f l)
  = map f (filter (fun p => 2 <=? String.length p) l).
Proof.
  intro H. induction l as [|x l IH]; [reflexivity|].
  cbn [filter map]. rewrite H, IH. destruct (2 <=? String.length x); reflexivity.
Qed.

Lemma lowered_terms (query : string) :
  dedup (map toLowerCase (search_terms (toLowerCase query)))
  = dedup (map toLowerCase (search_terms query)).
Proof.
  unfold search_terms. rewrite !Set_of_dedup, rawParts_lower, !filter_dedup.
  rewrite !dedup_map_dedup, (filter_map_length toLowerCase) by apply toLowerCase_length.
  rewrite map_map. f_equal. apply map_ext. intro s. apply toLowerCase_idem.
Qed.

Lemma buildSuggestions_lower (J : jsobj Jurisdiction) (query : string) :
  buildSuggestions J (toLowerCase query) = buildSuggestions J query.
Proof.
  unfold buildSuggestions. rewrite toLowerCase_length.
  destruct (String.length query <? 2); [reflexivity|].
  rewrite !visit_terms_lowered.
  rewrite (visit_dedup _ (map toLowerCase (search_terms (toLowerCase query)))).
  rewrite (visit_dedup _ (map toLowerCase (search_terms query))).
  now rewrite lowered_terms.
Qed.

(** X6.  The search does not look at the case of letters: two queries that
    differ only in upper and lower case give the same suggestions. *)
Theorem search_ignores_case (J : jsobj Jurisdiction) (q1 q2 : string) :
  toLowerCase q1 = toLowerCase q2 -> buildSuggestions J q1 = buildSuggestions J q2.
Proof.
  intro H. rewrite <- (buildSuggestions_lower J q1), <- (buildSuggestions_lower J q2).
  now rewrite H.
Qed.

Lemma search_ignores_case_witness :
  buildSuggestions JURISDICTIONS "PHOENIX, az" = buildSuggestions JURISDICTIONS "Phoenix, AZ".
Proof.
  apply search_ignores_case. vm_compute. reflexivity.
Defined.

(** ** The sources panel *)

(** X7.  A source is listed in the sources panel exactly when it is the
    source of one of the code books shown, or it is the BECP portal and IECC
    is shown, or it is the ICC chart and one of the codes of the chart is
    shown, or it is Municode and the view is local.  Besides these strings
    the set holds one object for every code key shown that is the name of
    a member inherited from [Object.prototype], and nothing else. *)
Theorem neededSources_spec (b : bool) (o : jsobj CodeAdoption) (sk : string) :
  (In (val sk) (neededSources b o) <->
   (exists k, In k (Object_keys o) /\ obj_get CODE_SOURCES k = Some sk /\ sk <> "") \/
   (sk = "becp" /\ In "IECC" (Object_keys o)) \/
   (sk = "icc_chart" /\ exists k, In k (Object_keys o) /\ In k icc_chart_codes) \/
   (sk = "municode" /\ b = true)) /\
  (forall m, In (proto m) (neededSources b o) <->
             In m (Object_keys o) /\ In m Object_prototype) /\
  ~ In undefined (neededSources b o).
Proof.
  split; [apply neededSources_In|].
  split; [intro m; apply neededSources_proto | apply neededSources_defined].
Qed.

Lemma neededSources_spec_witness :
  In (val "nec_nfpa")
     (neededSources false [("NEC", adoption (Some 2020) "adopted" "Varies" [])]).
Proof.
  apply (proj2 (proj1 (neededSources_spec false _ "nec_nfpa"))).
  left. exists "NEC". split; [now left|]. split; [reflexivity | discriminate].
Defined.

(** X8.  Building the sources panel never raises.  The panel lists no
    source twice and has one entry per element of its set, in the same
    order: the row of the source for a string, and the empty string for an
    object.  When no code key shown is the name of an inherited member, the
    set holds strings only and every one has its row: the number in the
    header is the number of rows shown.  A code key that is such a name
    adds one to the number in the header and no row. *)
Theorem sources_panel_rows (st : Jurisdiction) (b : bool) (o : jsobj CodeAdoption) :
  exists p,
    buildSourcesPanel st b o = Ok p /\
    NoDup (panel_sources p) /\
    Forall2 (fun x row => match x with
                          | val sk => option_map row_source row = Some sk
                          | _ => row = None
                          end) (panel_sources p) (panel_rows p) /\
    ((forall k, In k (Object_keys o) -> ~ In k Object_prototype) ->
     map (option_map (fun row => val (row_source row))) (panel_rows p)
     = map Some (panel_sources p)) /\
    (forall m, In m (Object_keys o) -> In m Object_prototype ->
               In (proto m) (panel_sources p) /\ In None (panel_rows p)).
Proof.
  destruct (buildSourcesPanel_ok st b o) as (p & Hp & Hs & Hrows).
  exists p. split; [exact Hp|]. rewrite Hs.
  split; [apply neededSources_NoDup|].
  split; [|split].
  - assert (Hin : forall x, In x (neededSources b o) -> In x (neededSources b o)) by auto.
    revert Hin Hrows. generalize (panel_rows p). generalize (neededSources b o) at 1 3 4.
    intros l rows Hin Hrows.
    induction Hrows as [|x row l rows Hx _ IH]; constructor.
    + pose proof (sourceRow_listed st b o x (Hin x (or_introl eq_refl))) as H.
      destruct x as [sk|m|].
      * destruct H as (row' & Hr & Hk). rewrite Hx in Hr. injection Hr as ->.
        simpl. now rewrite Hk.
      * rewrite Hx in H. now injection H.
      * rewrite Hx in H. now injection H.
    + apply IH. intros y Hy. apply Hin. now right.
  - intro Hown.
    assert (Hin : forall x, In x (neededSources b o) -> In x (neededSources b o)) by auto.
    revert Hin Hrows. generalize (panel_rows p). generalize (neededSources b o) at 1 3 4.
    intros l rows Hin Hrows.
    induction Hrows as [|x row l rows Hx _ IH]; [reflexivity|].
    simpl. f_equal.
    + pose proof (Hin x (or_introl eq_refl)) as Hxin.
      pose proof (sourceRow_listed st b o x Hxin) as H.
      destruct x as [sk|m|].
      * destruct H as (row' & Hr & Hk). rewrite Hx in Hr. injection Hr as ->.
        simpl. now rewrite Hk.
      * apply neededSources_proto in Hxin. destruct Hxin as [Hk Hm].
        now apply Hown in Hk.
      * now apply neededSources_defined in Hxin.
    + apply IH. intros y Hy. apply Hin. now right.
  - intros m Hk Hm.
    assert (Hl : In (proto m) (neededSources b o)) by (apply neededSources_proto; auto).
    split; [exact Hl|].
    destruct (Forall2_In_l _ _ _ _ Hrows Hl) as (row & Hrow & Hr).
    simpl in Hr. injection Hr as <-. exact Hrow.
Qed.

Lemma sources_panel_rows_witness :
  exists p,
    buildSourcesPanel (state_of JURISDICTIONS "AZ") false
      [("IBC", adoption (Some 2018) "adopted" "Varies" []);
       ("constructor", adoption (Some 2018) "adopted" "Varies" [])] = Ok p /\
    In (proto "constructor") (panel_sources p) /\ In None (panel_rows p).
Proof.
  destruct (sources_panel_rows (state_of JURISDICTIONS "AZ") false
              [("IBC", adoption (Some 2018) "adopted" "Varies" []);
               ("constructor", adoption (Some 2018) "adopted" "Varies" [])])
    as (p & Hp & _ & _ & _ & H).
  exists p. split; [exact Hp|]. apply H.
  - right. left. reflexivity.
  - left. reflexivity.
Defined.

(** ** The report: cards, inherited section, sources *)

(** The parts of a report, by the scope [showReport] decides on. *)
Lemma showReport_parts (st : Jurisdiction) local localName r :
  showReport (Some st) local localName = Ok r ->
  codeCards r = cards_of (adoptedCodes r) (abbr st) /\
  buildSourcesPanel st
    (match isLocal local localName with Some _ => true | None => false end)
    (allAdoptedForSources r) = Ok (footer r) /\
  match isLocal local localName with
  | Some (l, n) =>
      adoptedCodes r = l_adopted l /\
      allAdoptedForSources r = spread (adopted st) (l_adopted l) /\
      stateCodeCards r = cards_of (adopted st) (abbr st) /\
      displayName r = n /\ note r = l_note l /\
      fireDistricts r = match l_fireDistricts l with Some f => f | None => [] end
  | None =>
      adoptedCodes r = adopted st /\
      allAdoptedForSources r = adopted st /\
      stateCodeCards r = [] /\
      displayName r = name st /\ note r = None /\ fireDistricts r = [] /\
      jType r = "STATE" /\ breadcrumb r = ["US"; name st]
  end.
Proof.
  intro H. showReport_steps H. cbn [codeCards footer adoptedCodes
    allAdoptedForSources stateCodeCards displayName note fireDistricts jType breadcrumb].
  split; [reflexivity|]. split; [exact Hp|].
  destruct (isLocal local localName) as [[l n]|]; [|repeat split].
  repeat split.
  destruct (adopted st); reflexivity.
Qed.

Lemma cards_of_keys (o : jsobj CodeAdoption) (a : string) :
  map card_key (cards_of o a) = Object_keys o.
Proof. unfold cards_of, Object_entries, Object_keys. now rewrite map_map. Qed.

Lemma cards_of_In (o : jsobj CodeAdoption) (a : string) card :
  In card (cards_of o a) ->
  In (card_key card) (Object_keys o) /\ card_sourceUrl card = cardSourceUrl (card_key card) a.
Proof.
  unfold cards_of, Object_entries. intro H. apply in_map_iff in H.
  destruct H as ([k v] & <- & Hin). split; [|reflexivity].
  apply (in_map fst) in Hin. exact Hin.
Qed.

(** X9.  A report has one card per code book of the mapping it shows, in
    the order of the mapping, and its two counts are the number of cards
    and the sum of the amendment counts printed on them.  A local report
    also has a card for every code book of the state, the ones the local
    record has itself included; a state-level report has none. *)
Theorem report_cards (st : Jurisdiction) local localName r :
  showReport (Some st) local localName = Ok r ->
  map card_key (codeCards r) = Object_keys (adoptedCodes r) /\
  map card_code (codeCards r) = Object_values (adoptedCodes r) /\
  codeCount r = List.length (codeCards r) /\
  amendCount r = list_sum (map (fun c => cardAmendments (card_code c)) (codeCards r)) /\
  map card_key (stateCodeCards r)
  = match isLocal local localName with
    | Some _ => Object_keys (adopted st)
    | None => []
    end.
Proof.
  intro Hr. destruct (showReport_parts _ _ _ _ Hr) as (Hcards & _ & Hscope).
  destruct (showReport_counts _ _ _ _ Hr) as (Hc & Ha & _).
  rewrite Hcards, cards_of_keys. split; [reflexivity|].
  assert (Hcodes : map card_code (cards_of (adoptedCodes r) (abbr st))
                   = Object_values (adoptedCodes r)).
  { unfold cards_of, Object_entries, Object_values. now rewrite map_map. }
  split; [exact Hcodes|]. split.
  - unfold cards_of, Object_entries. now rewrite length_map.
  - split.
    + rewrite Ha. unfold total_amendments. rewrite <- Hcodes, map_map. reflexivity.
    + destruct (isLocal local localName) as [[l n]|].
      * destruct Hscope as (_ & _ & -> & _). apply cards_of_keys.
      * destruct Hscope as (_ & _ & -> & _). reflexivity.
Qed.

Lemma report_cards_witness :
  exists r,
    showReport (Some (state_of JURISDICTIONS "AZ"))
               (Some (city_of (state_of JURISDICTIONS "AZ") "Phoenix")) (Some "Phoenix")
    = Ok r /\
    map card_key (codeCards r) = ["IBC"; "IRC"; "IFC"; "NEC"; "IECC"; "IMC"; "IPC"] /\
    map card_key (stateCodeCards r) = ["IFC"; "NEC"].
Proof.
  destruct (showReport_total (state_of JURISDICTIONS "AZ")
              (Some (city_of (state_of JURISDICTIONS "AZ") "Phoenix")) (Some "Phoenix"))
    as [r Hr].
  destruct (report_cards _ _ _ _ Hr) as (Hk & _ & _ & _ & Hs).
  assert (Hn : "Phoenix" <> "") by discriminate.
  exists r. split; [exact Hr|]. split.
  - rewrite Hk, (showReport_local_scope _ _ _ _ Hn Hr). vm_compute. reflexivity.
  - rewrite Hs. vm_compute. reflexivity.
Defined.

Lemma CODE_SOURCES_values (k sk : string) :
  obj_get CODE_SOURCES k = Some sk -> sk <> "municode" /\ sk <> "becp".
Proof.
  intro H. apply obj_get_In_values in H.
  assert (Hall : forallb (fun sk => negb (String.eqb sk "municode")
                                    && negb (String.eqb sk "becp"))
                         (Object_values CODE_SOURCES) = true)
    by (vm_compute; reflexivity).
  rewrite forallb_forall in Hall. specialize (Hall _ H).
  apply andb_true_iff in Hall. destruct Hall as [H1 H2].
  apply negb_true_iff in H1, H2. split; now apply String.eqb_neq.
Qed.

(** X10.  Municode is listed exactly in the reports of a local scope; and a
    state-level report has no fire district, no local note and no inherited
    section, and is titled with the state. *)
Theorem state_report_has_nothing_local (st : Jurisdiction) local localName r :
  showReport (Some st) local localName = Ok r ->
  (In (val "municode") (panel_sources (footer r)) <-> isLocal local localName <> None) /\
  (isLocal local localName = None ->
   fireDistricts r = [] /\ note r = None /\ stateCodeCards r = [] /\
   jType r = "STATE" /\ displayName r = name st /\ breadcrumb r = ["US"; name st] /\
   adoptedCodes r = adopted st).
Proof.
  intro Hr. destruct (showReport_parts _ _ _ _ Hr) as (_ & Hfoot & Hscope).
  rewrite (proj1 (buildSourcesPanel_inv _ _ _ _ Hfoot)). split.
  - rewrite neededSources_In. destruct (isLocal local localName) as [p|].
    + split; [discriminate | auto].
    + split; [|congruence].
      intros [(k & _ & Hk & _) | [[H _] | [[H _] | [_ H]]]]; try discriminate.
      apply CODE_SOURCES_values in Hk. destruct Hk as [Hk _]. congruence.
  - intro Hnone. rewrite Hnone in Hscope.
    destruct Hscope as (H1 & _ & H3 & H4 & H5 & H6 & H7 & H8). auto 10.
Qed.

Lemma state_report_has_nothing_local_witness :
  exists r,
    showReport (Some (state_of JURISDICTIONS "TX")) None None = Ok r /\
    ~ In (val "municode") (panel_sources (footer r)) /\ fireDistricts r = [].
Proof.
  destruct (showReport_total (state_of JURISDICTIONS "TX") None None) as [r Hr].
  destruct (state_report_has_nothing_local _ _ _ _ Hr) as (Hm & Hs).
  exists r. split; [exact Hr|]. split.
  - intro H. apply Hm in H. apply H. reflexivity.
  - apply Hs. reflexivity.
Defined.

Lemma cardSourceUrl_cases (k a u : string) :
  cardSourceUrl k a = Some u ->
  (k = "IECC" /\ a <> "" /\ u = becp_state_page a) \/
  (exists sk src, obj_get CODE_SOURCES k = Some sk /\ sk <> "" /\
                  obj_get DATA_SOURCES sk = Some src /\ u = url src).
Proof.
  unfold cardSourceUrl. cbv zeta. rewrite becp_stateUrl_eq.
  destruct (String.eqb k "IECC" && truthy a) eqn:E.
  - apply andb_true_iff in E. destruct E as [E1 E2].
    apply String.eqb_eq in E1. apply truthy_true in E2.
    intro H. injection H as <-. left. auto.
  - destruct (read CODE_SOURCES k) as [sk|m|] eqn:Ek; cbn [truthy_val read_at];
      [|discriminate|discriminate].
    destruct (truthy sk) eqn:Et; [|discriminate].
    destruct (read DATA_SOURCES sk) as [src|m|] eqn:Es; [|discriminate|discriminate].
    intro H. injection H as <-. right. exists sk, src.
    apply truthy_true in Et. apply read_val in Ek, Es. auto.
Qed.

(** X11.  Every link on a code card of a report, in the adopted section or
    in the inherited one, opens the URL of one of the rows of the sources
    panel of that report. *)
Theorem card_links_in_panel (st : Jurisdiction) local localName r card u :
  showReport (Some st) local localName = Ok r ->
  In card (codeCards r ++ stateCodeCards r) ->
  card_sourceUrl card = Some u ->
  exists row, In (Some row) (panel_rows (footer r)) /\ row_url row = u.
Proof.
  intros Hr Hin Hu.
  destruct (showReport_parts _ _ _ _ Hr) as (Hcards & Hfoot & Hscope).
  assert (Hkey : In (card_key card) (Object_keys (allAdoptedForSources r)) /\
                 card_sourceUrl card = cardSourceUrl (card_key card) (abbr st)).
  { apply in_app_or in Hin. rewrite Hcards in Hin.
    destruct (isLocal local localName) as [[l n]|].
    - destruct Hscope as (Ha & Hall & Hs & _). rewrite Ha, Hs in Hin. rewrite Hall.
      destruct Hin as [Hin | Hin]; apply cards_of_In in Hin; destruct Hin as [Hk Hl];
        (split; [apply spread_keys; auto | exact Hl]).
    - destruct Hscope as (Ha & Hall & Hs & _). rewrite Ha, Hs in Hin. rewrite Hall.
      destruct Hin as [Hin | []]. now apply cards_of_In in Hin. }
  destruct Hkey as [Hk Hl]. rewrite Hl in Hu.
  set (b := match isLocal local localName with Some _ => true | None => false end) in *.
  set (o := allAdoptedForSources r) in *.
  apply cardSourceUrl_cases in Hu.
  destruct Hu as [(Hiecc & Ha & ->) | (sk & src & Hsk & Hne & Hsrc & ->)].
  - rewrite Hiecc in Hk.
    destruct (sourceRow_becp st o Ha) as (row & Hrow & _ & Hurl).
    exists row. split; [|exact Hurl].
    apply (panel_row_of st b o (footer r) (val "becp")); [exact Hfoot | | exact Hrow].
    now apply neededSources_becp.
  - destruct (CODE_SOURCES_known _ _ Hsk) as (src' & Hsrc' & Hplain).
    assert (src' = src) by congruence. subst src'.
    destruct (sourceRow_known st o sk src Hsrc) as (row & Hrow & _ & Hurl).
    rewrite Hplain in Hurl.
    exists row. split; [|exact Hurl].
    apply (panel_row_of st b o (footer r) (val sk)); [exact Hfoot | | exact Hrow].
    apply neededSources_In. left. exists (card_key card). auto.
Qed.

Lemma card_links_in_panel_witness :
  exists r row,
    showReport (Some (state_of JURISDICTIONS "AZ"))
               (Some (city_of (state_of JURISDICTIONS "AZ") "Phoenix")) (Some "Phoenix")
    = Ok r /\
    In (Some row) (panel_rows (footer r)) /\
    row_url row = "https://www.energycodes.gov/status/states/az".
Proof.
  destruct (showReport_total (state_of JURISDICTIONS "AZ")
              (Some (city_of (state_of JURISDICTIONS "AZ") "Phoenix")) (Some "Phoenix"))
    as [r Hr].
  destruct (showReport_parts _ _ _ _ Hr) as (Hcards & _ & _).
  assert (Hn : "Phoenix" <> "") by discriminate.
  pose proof (showReport_local_scope _ _ _ _ Hn Hr) as Ha.
  destruct (card_links_in_panel _ _ _ r
              (renderCodeCard "IECC"
                 (adoption (Some 2018) "adopted" "2020-07-01"
                    ["CZ 2B: Cool roof requirements for low-slope roofs";
                     "Mechanical: evaporative cooling compliance pathway"]) "AZ")
              "https://www.energycodes.gov/status/states/az" Hr)
    as (row & Hrow & Hurl).
  - apply in_or_app. left. rewrite Hcards, Ha. vm_compute.
    do 4 right. left. reflexivity.
  - vm_compute. reflexivity.
  - exists r, row. auto.
Defined.

(** ** Merging the state's and the local record's code books *)

Lemma obj_update_keys {V} (o : jsobj V) k v :
  Object_keys (obj_update k v o) = Object_keys o.
Proof.
  unfold Object_keys. induction o as [|[k0 v0] o IH]; simpl; [reflexivity|].
  destruct (String.eqb k0 k); simpl; [reflexivity | now rewrite IH].
Qed.

(** A key that is no array index is added to the keys as to a [Set]. *)
Lemma obj_set_keys_named {V} (o : jsobj V) k v :
  array_index k = None -> Object_keys (obj_set k v o) = Set_add (Object_keys o) k.
Proof.
  intro Hi. unfold obj_set, Set_add. rewrite Hi.
  destruct (obj_get o k) as [w|] eqn:E.
  - assert (H : Set_has (Object_keys o) k = true).
    { apply Set_has_In, obj_get_In_keys. congruence. }
    rewrite H. apply obj_update_keys.
  - assert (H : Set_has (Object_keys o) k = false).
    { destruct (Set_has (Object_keys o) k) eqn:E'; [|reflexivity].
      apply Set_has_In, obj_get_In_keys in E'. congruence. }
    rewrite H. unfold Object_keys. now rewrite map_app.
Qed.

Lemma spread_keys_named {V} (a b : jsobj V) :
  Forall (fun k => array_index k = None) (Object_keys b) ->
  Object_keys (spread a b) = fold_left Set_add (Object_keys b) (Object_keys a).
Proof.
  unfold spread. revert a. induction b as [|[k v] b IH]; intros a Hb; simpl; [reflexivity|].
  unfold Object_keys in Hb. simpl in Hb. inversion Hb as [|? ? Hk Hb']; subst.
  rewrite IH by exact Hb'. simpl. now rewrite obj_set_keys_named.
Qed.

Lemma dedup_NoDup (l : list string) : NoDup l -> dedup l = l.
Proof.
  induction 1 as [|x l Hx _ IH]; simpl; [reflexivity|].
  rewrite IH. f_equal. apply filter_all. intros y Hy.
  apply negb_true_iff, String.eqb_neq. congruence.
Qed.

Lemma spread_get {V} (a b : jsobj V) k :
  NoDup (Object_keys b) ->
  obj_get (spread a b) k = match obj_get b k with Some v => Some v | None => obj_get a k end.
Proof.
  unfold spread. revert a. induction b as [|[k0 v0] b IH]; intros a Hnd; simpl; [reflexivity|].
  unfold Object_keys in Hnd. simpl in Hnd. inversion Hnd as [|? ? Hnotin Hnd']; subst.
  rewrite IH by exact Hnd'. destruct (String.eqb k0 k) eqn:E.
  - apply String.eqb_eq in E. subst k0.
    destruct (obj_get b k) eqn:Eb.
    + exfalso. apply Hnotin. apply (obj_get_In_keys b k). congruence.
    + apply obj_get_set_eq.
  - apply String.eqb_neq in E. now rewrite obj_get_set_ne.
Qed.

(** A new key that is an array index does not go last: it is enumerated
    before the keys that are names. *)
Example spread_index_key :
  Object_keys (spread [("IBC", 2018); ("NEC", 2020)] [("5", 5); ("IRC", 2021); ("10", 10)])
  = ["5"; "10"; "IBC"; "NEC"; "IRC"].
Proof. by_evaluation. Qed.

(** X12.  In the report of a local scope, the mapping the sources are taken
    from holds, for each code book, the entry of the local record when it
    has one and the entry of the state otherwise; and when no code key of
    the local record is an array index, the code books of the state keep
    their places at the front and those that only the local record has
    follow, in the order of the local record. *)
Theorem sources_mapping_local_first (st : Jurisdiction) (l : LocalRecord) (n : string) r :
  n <> "" -> NoDup (Object_keys (l_adopted l)) ->
  showReport (Some st) (Some l) (Some n) = Ok r ->
  (forall k, obj_get (allAdoptedForSources r) k
             = match obj_get (l_adopted l) k with
               | Some v => Some v
               | None => obj_get (adopted st) k
               end) /\
  (Forall (fun k => array_index k = None) (Object_keys (l_adopted l)) ->
   Object_keys (allAdoptedForSources r)
   = Object_keys (adopted st)
     ++ filter (fun k => negb (Set_has (Object_keys (adopted st)) k))
               (Object_keys (l_adopted l))).
Proof.
  intros Hn Hnd Hr. destruct (showReport_local_sources _ _ _ _ Hn Hr) as (-> & _).
  split; [intro k; now apply spread_get|].
  intro Hidx. rewrite spread_keys_named by exact Hidx.
  now rewrite Set_of_dedup_aux, dedup_NoDup.
Qed.

Lemma sources_mapping_local_first_witness :
  exists r,
    showReport (Some (state_of JURISDICTIONS "AZ"))
               (Some (county_of (state_of JURISDICTIONS "AZ") "Pima County"))
               (Some "Pima County") = Ok r /\
    option_map year (obj_get (allAdoptedForSources r) "NEC") = Some (Some 2017) /\
    option_map year (obj_get (adopted (state_of JURISDICTIONS "AZ")) "NEC") = Some (Some 2020) /\
    Object_keys (allAdoptedForSources r) = ["IFC"; "NEC"; "IBC"].
Proof.
  destruct (showReport_total (state_of JURISDICTIONS "AZ")
              (Some (county_of (state_of JURISDICTIONS "AZ") "Pima County"))
              (Some "Pima County")) as [r Hr].
  assert (Hn : "Pima County" <> "") by discriminate.
  assert (Hnd : NoDup (Object_keys
                  (l_adopted (county_of (state_of JURISDICTIONS "AZ") "Pima County")))).
  { vm_compute. repeat constructor; simpl; intuition discriminate. }
  destruct (sources_mapping_local_first _ _ _ r Hn Hnd Hr) as [Hget Hkeys].
  exists r. split; [exact Hr|]. rewrite Hget.
  split; [vm_compute; reflexivity|]. split; [vm_compute; reflexivity|].
  assert (Hl : Object_keys
                 (l_adopted (county_of (state_of JURISDICTIONS "AZ") "Pima County"))
               = ["IBC"; "NEC"]) by (vm_compute; reflexivity).
  rewrite Hkeys; [vm_compute; reflexivity|].
  rewrite Hl. repeat constructor.
Defined.

(** ** The fallback pass, run twice *)

Lemma fill_states_covers (stubs : list StateStub) (J : jsobj Jurisdiction) s :
  In s stubs -> obj_get (fill_states stubs J) (stub_abbr s) <> None.
Proof.
  unfold fill_states. revert J. induction stubs as [|s0 stubs IH]; intros J Hin; simpl.
  - contradiction.
  - destruct Hin as [-> | Hin]; [|now apply IH].
    assert (H : exists v, obj_get (fill_state J s) (stub_abbr s) = Some v).
    { unfold fill_state. destruct (obj_get J (stub_abbr s)) as [v|] eqn:E.
      - now exists v.
      - exists (stub_entry s). apply obj_get_set_eq. }
    destruct H as [v Hv].
    pose proof (fill_states_keeps stubs _ _ _ Hv) as H. unfold fill_states in H.
    rewrite H. discriminate.
Qed.

Lemma fill_states_nothing_to_add (stubs : list StateStub) (J : jsobj Jurisdiction) :
  (forall s, In s stubs -> obj_get J (stub_abbr s) <> None) -> fill_states stubs J = J.
Proof.
  unfold fill_states. induction stubs as [|s0 stubs IH]; intro H; simpl; [reflexivity|].
  assert (E : fill_state J s0 = J).
  { unfold fill_state. specialize (H s0 (or_introl eq_refl)).
    destruct (obj_get J (stub_abbr s0)); [reflexivity | congruence]. }
  rewrite E. apply IH. intros s Hs. apply H. now right.
Qed.

Lemma fill_states_length (stubs : list StateStub) (J : jsobj Jurisdiction) :
  List.length J <= List.length (fill_states stubs J) <= List.length J + List.length stubs.
Proof.
  unfold fill_states. revert J. induction stubs as [|s0 stubs IH]; intro J; simpl; [lia|].
  specialize (IH (fill_state J s0)).
  assert (E : List.length J <= List.length (fill_state J s0) <= S (List.length J)).
  { unfold fill_state. destruct (obj_get J (stub_abbr s0)) eqn:E; [lia|].
    rewrite obj_set_length, E. lia. }
  lia.
Qed.

(** X13.  After the fallback pass every state of its list has an entry,
    whatever the table held before; the pass adds at most one entry per
    state of the list; and running it a second time changes nothing. *)
Theorem fallback_covers_and_settles (stubs : list StateStub) (J : jsobj Jurisdiction) :
  (forall s, In s stubs -> obj_get (fill_states stubs J) (stub_abbr s) <> None) /\
  List.length J <= List.length (fill_states stubs J) <= List.length J + List.length stubs /\
  fill_states stubs (fill_states stubs J) = fill_states stubs J.
Proof.
  split; [intros s; apply fill_states_covers|]. split; [apply fill_states_length|].
  apply fill_states_nothing_to_add. intros s. apply fill_states_covers.
Qed.

Lemma fallback_covers_and_settles_witness :
  obj_get (fill_states ALL_STATES []) "WY" <> None.
Proof.
  apply (proj1 (fallback_covers_and_settles ALL_STATES [])
           {| stub_abbr := "WY"; stub_name := "Wyoming" |}).
  vm_compute. do 30 right. left. reflexivity.
Defined.

(** ** The amendment icon *)

Lemma lower_upper (c : ascii) : lower (upper c) = lower c.
Proof. by_cases_on_char c. Qed.

Lemma toLowerCase_toUpperCase (s : string) : toLowerCase (toUpperCase s) = toLowerCase s.
Proof.
  unfold toLowerCase, toUpperCase. induction s as [|c s IH]; simpl; [reflexivity|].
  now rewrite lower_upper, IH.
Qed.

(** X14.  The icon of an amendment does not depend on the case of its
    letters.  A text that starts with "based on" or "chapter" gets the
    "modified" icon whatever else it says; otherwise "required" or
    "mandatory" gives the "added" icon, also when "prohibited" or "removed"
    occurs too; the "deleted" icon needs one of these two words and none of
    the others. *)
Theorem amendmentIcon_rules (amend : string) :
  amendmentIcon (toUpperCase amend) = amendmentIcon amend /\
  amendmentIcon (toLowerCase amend) = amendmentIcon amend /\
  (startsWith (toLowerCase amend) "based on" = true \/
   startsWith (toLowerCase amend) "chapter" = true -> amendmentIcon amend = amend_mod) /\
  (amendmentIcon amend = amend_add <->
   startsWith (toLowerCase amend) "based on" = false /\
   startsWith (toLowerCase amend) "chapter" = false /\
   (includes (toLowerCase amend) "required" = true \/
    includes (toLowerCase amend) "mandatory" = true)) /\
  (amendmentIcon amend = amend_del <->
   startsWith (toLowerCase amend) "based on" = false /\
   startsWith (toLowerCase amend) "chapter" = false /\
   includes (toLowerCase amend) "required" = false /\
   includes (toLowerCase amend) "mandatory" = false /\
   (includes (toLowerCase amend) "prohibited" = true \/
    includes (toLowerCase amend) "removed" = true)).
Proof.
  unfold amendmentIcon. rewrite !toLowerCase_toUpperCase, !toLowerCase_idem.
  split; [reflexivity|]. split; [reflexivity|].
  destruct (startsWith (toLowerCase amend) "based on"),
           (startsWith (toLowerCase amend) "chapter"),
           (includes (toLowerCase amend) "required"),
           (includes (toLowerCase amend) "mandatory"),
           (includes (toLowerCase amend) "prohibited"),
           (includes (toLowerCase amend) "removed"); simpl;
    repeat split; intros;
    repeat match goal with
           | H : _ /\ _ |- _ => destruct H
           | H : _ \/ _ |- _ => destruct H
           end;
    try discriminate; try reflexivity; auto.
Qed.

Lemma amendmentIcon_rules_witness :
  amendmentIcon "Chapter 11 Accessibility: enhanced requirements beyond ADAAG" = amend_mod /\
  amendmentIcon "Sec 903.2.1.2: Sprinklers required in A-2 occupancies >3,000 sq ft"
  = amend_add.
Proof.
  split.
  - apply (proj1 (proj2 (proj2 (amendmentIcon_rules _)))). right. vm_compute. reflexivity.
  - apply (proj1 (proj2 (proj2 (proj2 (amendmentIcon_rules _))))).
    repeat split; try (vm_compute; reflexivity). left. vm_compute. reflexivity.
Defined.

(** ** The browse order does not depend on the order of definition *)

Lemma consistent_refl {A} (cmp : A -> A -> comparison) (a : A) :
  consistent cmp -> cmp a a = Eq.
Proof.
  intros [Hanti _]. pose proof (Hanti a a) as H.
  destruct (cmp a a); [reflexivity | discriminate | discriminate].
Qed.

Lemma consistent_tie {A} (cmp : A -> A -> comparison) (a b : A) :
  consistent cmp -> cmp a b <> Gt -> cmp b a <> Gt -> cmp a b = Eq.
Proof.
  intros [Hanti _] H1 H2. rewrite (Hanti b a) in H2.
  destruct (cmp a b); [reflexivity | simpl in H2; congruence | congruence].
Qed.

(** Two sorted arrangements of the same elements are equal when no two
    different elements tie. *)
Lemma sorted_unique {A} (cmp : A -> A -> comparison) (l1 l2 : list A) :
  consistent cmp ->
  (forall a b, In a l1 -> In b l1 -> cmp a b = Eq -> a = b) ->
  StronglySorted (fun a b => cmp a b <> Gt) l1 ->
  StronglySorted (fun a b => cmp a b <> Gt) l2 ->
  Permutation l1 l2 -> l1 = l2.
Proof.
  intro Hc. revert l2. induction l1 as [|a l1 IH]; intros l2 Htie Hs1 Hs2 Hp.
  - apply Permutation_nil in Hp. now subst.
  - destruct l2 as [|b l2]; [apply Permutation_sym, Permutation_nil in Hp; discriminate|].
    apply StronglySorted_inv in Hs1. destruct Hs1 as [Hs1 Ha].
    apply StronglySorted_inv in Hs2. destruct Hs2 as [Hs2 Hb].
    rewrite Forall_forall in Ha, Hb.
    assert (Hab : cmp a b <> Gt).
    { assert (Hin : In b (a :: l1))
        by (apply (Permutation_in b (Permutation_sym Hp)); now left).
      destruct Hin as [<- | Hin]; [|now apply Ha].
      rewrite (consistent_refl cmp a Hc). discriminate. }
    assert (Hba : cmp b a <> Gt).
    { assert (Hin : In a (b :: l2)) by (apply (Permutation_in a Hp); now left).
      destruct Hin as [<- | Hin]; [|now apply Hb].
      rewrite (consistent_refl cmp b Hc). discriminate. }
    assert (E : a = b).
    { apply Htie; [now left | | now apply consistent_tie].
      apply (Permutation_in b (Permutation_sym Hp)). now left. }
    subst b. f_equal. apply IH; auto.
    + intros x y Hx Hy. apply Htie; now right.
    + now apply Permutation_cons_inv in Hp.
Qed.

(** X15.  When no two states of the store have display names that tie, the
    browse sequence depends on the set of states only, not on the order in
    which the store defines them. *)
Theorem browse_order_of_distinct_names (localeCompare : string -> string -> comparison)
    (J1 J2 : jsobj Jurisdiction) :
  consistent localeCompare ->
  (forall a b, In a (Object_values J1) -> In b (Object_values J1) ->
               localeCompare (name a) (name b) = Eq -> a = b) ->
  Permutation (Object_values J1) (Object_values J2) ->
  statesSorted localeCompare J1 = statesSorted localeCompare J2.
Proof.
  intros Hc Htie Hp. pose proof (consistent_by_name _ Hc) as Hc'.
  unfold statesSorted.
  apply (sorted_unique (fun a b => localeCompare (name a) (name b))); auto.
  - intros a b Ha Hb. apply Htie.
    + apply (Permutation_in a (Permutation_sym (Array_sort_perm _ _)) Ha).
    + apply (Permutation_in b (Permutation_sym (Array_sort_perm _ _)) Hb).
  - now apply Array_sort_sorted.
  - now apply Array_sort_sorted.
  - rewrite <- !Array_sort_perm. exact Hp.
Qed.

Lemma browse_order_of_distinct_names_witness :
  statesSorted String.compare [("OH", state_of JURISDICTIONS "OH"); ("ID", state_of JURISDICTIONS "ID")]
  = statesSorted String.compare [("ID", state_of JURISDICTIONS "ID"); ("OH", state_of JURISDICTIONS "OH")].
Proof.
  apply browse_order_of_distinct_names.
  - exact String_compare_consistent.
  - intros a b [<- | [<- | []]] [<- | [<- | []]] H; try reflexivity;
      vm_compute in H; discriminate.
  - apply perm_swap.
Defined.

(** ** The state tree *)

Lemma buildTree_In (localeCompare : string -> string -> comparison)
    (J : jsobj Jurisdiction) item :
  In item (buildTree localeCompare J) <->
  exists st, In st (Object_values J) /\ item = treeItem st.
Proof.
  unfold buildTree, statesSorted. rewrite in_map_iff. split.
  - intros (st & <- & Hst). exists st. split; [|reflexivity].
    apply (Permutation_in st (Permutation_sym (Array_sort_perm _ _)) Hst).
  - intros (st & Hst & ->). exists st. split; [reflexivity|].
    apply (Permutation_in st (Array_sort_perm _ _) Hst).
Qed.

Lemma treeItem_subItems (st : Jurisdiction) i :
  In i (row_subItems (treeItem st)) <->
  (exists city, In city (Object_keys (cities st)) /\
                i = {| sub_state := abbr st; sub_city := Some city;
                       sub_county := None; sub_text := city |}) \/
  (exists county, In county (Object_keys (counties st)) /\
                  i = {| sub_state := abbr st; sub_city := None;
                         sub_county := Some county; sub_text := county |}).
Proof.
  unfold treeItem. cbn [row_subItems].
  destruct (Object_keys (cities st)) as [|c cs] eqn:Ec;
    destruct (Object_keys (counties st)) as [|k ks] eqn:Ek; cbn [List.length Nat.ltb Nat.leb orb].
  - split; [contradiction|]. intros [(x & [] & _) | (x & [] & _)].
  - rewrite in_app_iff, !in_map_iff. split.
    + intros [(x & <- & Hx) | (x & <- & Hx)]; [left | right]; exists x; auto.
    + intros [(x & Hx & ->) | (x & Hx & ->)]; [left | right]; exists x; auto.
  - rewrite in_app_iff, !in_map_iff. split.
    + intros [(x & <- & Hx) | (x & <- & Hx)]; [left | right]; exists x; auto.
    + intros [(x & Hx & ->) | (x & Hx & ->)]; [left | right]; exists x; auto.
  - rewrite in_app_iff, !in_map_iff. split.
    + intros [(x & <- & Hx) | (x & <- & Hx)]; [left | right]; exists x; auto.
    + intros [(x & Hx & ->) | (x & Hx & ->)]; [left | right]; exists x; auto.
Qed.

(** X16.  The tree has one row per state of the store.  In a store filed by
    abbreviation, a click on a state row shows the report of that state,
    and a click on a sub-item with a name shows the report of that city or
    county, titled with the text of the sub-item; no click raises.  A
    sub-item whose name is empty shows nothing. *)
Theorem tree_clicks (localeCompare : string -> string -> comparison)
    (J : jsobj Jurisdiction) :
  NoDup (Object_keys J) -> filed_by_abbr J ->
  Permutation (map row_state (buildTree localeCompare J)) (map abbr (Object_values J)) /\
  (forall item, In item (buildTree localeCompare J) ->
     (exists st r, obj_get J (row_state item) = Some st /\
                   clickStateRow J item = Ok r /\
                   displayName r = row_name item /\ adoptedCodes r = adopted st) /\
     (forall i, In i (row_subItems item) ->
        (sub_text i = "" -> clickSubItem J i = None) /\
        (sub_text i <> "" ->
         exists st l r,
           obj_get J (sub_state i) = Some st /\
           (obj_get (cities st) (sub_text i) = Some l /\ sub_city i = Some (sub_text i) \/
            obj_get (counties st) (sub_text i) = Some l /\ sub_county i = Some (sub_text i)) /\
           clickSubItem J i = Some (Ok r) /\
           displayName r = sub_text i /\ adoptedCodes r = l_adopted l))).
Proof.
  intros Hnd Hf. split.
  - unfold buildTree, statesSorted. rewrite map_map.
    change (fun x => row_state (treeItem x)) with abbr.
    apply Permutation_map, Permutation_sym, Array_sort_perm.
  - intros item Hitem. apply buildTree_In in Hitem. destruct Hitem as (st & Hst & ->).
    pose proof (filed_lookup _ _ Hnd Hf Hst) as Hget. split.
    + destruct (report_of_state st) as (r & Hr & Hd & Ha & _).
      exists st, r. unfold clickStateRow. cbn [row_state row_name treeItem].
      rewrite (read_own _ _ _ Hget). unfold showReport_state. auto.
    + intros i Hi. apply treeItem_subItems in Hi.
      destruct Hi as [(x & Hx & ->) | (x & Hx & ->)];
        unfold clickSubItem; cbn [sub_state sub_city sub_county sub_text nonempty];
        rewrite (read_own _ _ _ Hget); (split; [intros ->; reflexivity|]); intro Hne;
        destruct (obj_get_of_key _ _ Hx) as [l Hl];
        destruct (report_of_local st l x Hne) as (r & Hr & Hd & Ha & _);
        pose proof Hne as Ht; apply truthy_true in Ht; rewrite Ht, (read_own _ _ _ Hl);
        exists st, l, r; unfold showReport_local; rewrite Hr; auto 6.
Qed.

Lemma tree_clicks_witness :
  exists item, In item (buildTree String.compare JURISDICTIONS) /\
               row_state item = "AZ" /\
               exists r, clickStateRow JURISDICTIONS item = Ok r /\ displayName r = "Arizona".
Proof.
  pose proof (proj2 (tree_clicks String.compare JURISDICTIONS
                       (proj1 JURISDICTIONS_filed) (proj2 JURISDICTIONS_filed))) as H.
  assert (Hin : In (treeItem (state_of JURISDICTIONS "AZ"))
                   (buildTree String.compare JURISDICTIONS)).
  { refine (proj2 (buildTree_In String.compare JURISDICTIONS
                     (treeItem (state_of JURISDICTIONS "AZ"))) _).
    exists (state_of JURISDICTIONS "AZ"). split; [|reflexivity].
    apply (obj_get_In_values JURISDICTIONS "AZ"). vm_compute. reflexivity. }
  destruct (proj1 (H _ Hin)) as (st & r & _ & Hr & Hd & _).
  exists (treeItem (state_of JURISDICTIONS "AZ")). split; [exact Hin|].
  split; [vm_compute; reflexivity|].
  exists r. split; [exact Hr|]. rewrite Hd. vm_compute. reflexivity.
Defined.

(** ** Failure of a selection, and cards without a link *)

(** X17.  Selecting a suggestion raises exactly when its state code is not
    a key of the store, or when the city name it carries (or, without a
    city name, the county name) is not a key of the state's map and is
    the name of a member inherited from [Object.prototype]; in every other
    case a report is produced. *)
Theorem selectSuggestion_fails_iff (J : jsobj Jurisdiction) (s : Suggestion) :
  (selectSuggestion J s = TypeError <->
   obj_get J (s_state s) = None \/
   exists st n,
     obj_get J (s_state s) = Some st /\ In n Object_prototype /\
     ((nonempty (s_city s) = Some n /\ obj_get (cities st) n = None) \/
      (nonempty (s_city s) = None /\ nonempty (s_county s) = Some n /\
       obj_get (counties st) n = None))) /\
  (selectSuggestion J s <> TypeError -> exists r, selectSuggestion J s = Ok r).
Proof.
  split; [|destruct (selectSuggestion J s) as [r|]; [eauto | congruence]].
  assert (Hlocal : forall st (o : jsobj LocalRecord) n,
            n <> "" ->
            (showReport_local st (read o n) n = TypeError <->
             In n Object_prototype /\ obj_get o n = None)).
  { intros st o n Hn. unfold showReport_local.
    destruct (read o n) as [l|m|] eqn:E.
    - destruct (showReport_total st (Some l) (Some n)) as [r ->].
      apply read_val in E. split; [discriminate | intros [_ H]; congruence].
    - apply read_proto in E. destruct E as (_ & Hnone & Hp).
      apply truthy_true in Hn. rewrite Hn. tauto.
    - destruct (showReport_total st None (Some n)) as [r ->].
      apply read_undefined in E. split; [discriminate | tauto]. }
  assert (Hname : forall x n, nonempty x = Some n -> n <> "").
  { intros [x|] n; simpl; [|discriminate]. destruct (truthy x) eqn:E; [|discriminate].
    intro H. injection H as <-. now apply truthy_true. }
  unfold selectSuggestion.
  destruct (obj_get J (s_state s)) as [st|] eqn:Est.
  - rewrite (read_own _ _ _ Est).
    destruct (nonempty (s_city s)) as [city|] eqn:Ec.
    + pose proof (Hname _ _ Ec) as Hne. rewrite (Hlocal st (cities st) city); auto. split.
      * intros [Hp Hn]. right. exists st, city. auto.
      * intros [H | (st' & n & Hst & Hp & [[Hc Hn] | (Hc & _)])]; try discriminate.
        injection Hst as <-. injection Hc as <-. auto.
    + destruct (nonempty (s_county s)) as [county|] eqn:Ek.
      * pose proof (Hname _ _ Ek) as Hne. rewrite (Hlocal st (counties st) county); auto.
        split.
        -- intros [Hp Hn]. right. exists st, county. auto 6.
        -- intros [H | (st' & n & Hst & Hp & [[Hc _] | (_ & Hc & Hn)])]; try discriminate.
           injection Hst as <-. injection Hc as <-. auto.
      * unfold showReport_state. destruct (showReport_total st None None) as [r ->]. split.
        -- discriminate.
        -- intros [H | (st' & n & _ & _ & [[Hc _] | (_ & Hc & _)])]; discriminate.
  - assert (E : match read J (s_state s) with val _ => False | _ => True end).
    { unfold read. rewrite Est. now destruct (existsb _ _). }
    split; [auto|]. intros _.
    destruct (read J (s_state s)) as [st|m|]; [contradiction | |];
      destruct (nonempty (s_city s)); try reflexivity;
      destruct (nonempty (s_county s)); reflexivity.
Qed.

Lemma selectSuggestion_fails_iff_witness :
  (exists r, selectSuggestion JURISDICTIONS
               {| s_label := "Nowhere"; s_sub := "Texas"; s_type := COUNTY; s_state := "TX";
                  s_city := None; s_county := Some "Nowhere" |} = Ok r) /\
  selectSuggestion JURISDICTIONS
    {| s_label := "toString"; s_sub := "Texas"; s_type := COUNTY; s_state := "TX";
       s_city := None; s_county := Some "toString" |} = TypeError.
Proof.
  split.
  - apply (proj2 (selectSuggestion_fails_iff JURISDICTIONS _)).
    vm_compute. discriminate.
  - apply (proj2 (proj1 (selectSuggestion_fails_iff JURISDICTIONS _))).
    right. exists (state_of JURISDICTIONS "TX"), "toString".
    split; [vm_compute; reflexivity|].
    split; [vm_compute; do 8 right; left; reflexivity|].
    right. split; [reflexivity|]. split; [reflexivity|]. vm_compute. reflexivity.
Defined.

Lemma CODE_SOURCES_named (k sk : string) : obj_get CODE_SOURCES k = Some sk -> sk <> "".
Proof.
  intro H. apply obj_get_In_values in H.
  assert (Hall : forallb truthy (Object_values CODE_SOURCES) = true)
    by (vm_compute; reflexivity).
  rewrite forallb_forall in Hall. apply truthy_true. now apply Hall.
Qed.

(** X18.  A code card has a source link exactly when its code key has an
    entry in CODE_SOURCES: a code book outside that table is shown without
    a link, whatever the state. *)
Theorem card_link_iff_known_code (key stateAbbr : string) :
  cardSourceUrl key stateAbbr = None <-> obj_get CODE_SOURCES key = None.
Proof.
  unfold cardSourceUrl. cbv zeta. rewrite becp_stateUrl_eq. split.
  - destruct (String.eqb key "IECC" && truthy stateAbbr); [discriminate|].
    destruct (obj_get CODE_SOURCES key) as [sk|] eqn:E; [|reflexivity].
    pose proof (CODE_SOURCES_named _ _ E) as Hne. apply truthy_true in Hne.
    rewrite (read_own _ _ _ E). cbn [truthy_val read_at]. rewrite Hne.
    destruct (CODE_SOURCES_known _ _ E) as (src & Hsrc & _).
    rewrite (read_own _ _ _ Hsrc). discriminate.
  - intro H. destruct (String.eqb key "IECC") eqn:E.
    + apply String.eqb_eq in E. subst key. vm_compute in H. discriminate.
    + cbn [andb]. unfold read. rewrite H.
      destruct (existsb _ _); reflexivity.
Qed.

Lemma card_link_iff_known_code_witness :
  cardSourceUrl "ASHRAE90.1" "AZ" = None.
Proof.
  apply (proj2 (card_link_iff_known_code "ASHRAE90.1" "AZ")). vm_compute. reflexivity.
Defined.
